(** * LatteStream JavaScript SDK: a shallow embedding and its properties

    The development follows the TypeScript sources of the SDK:

    - [binary-protocol.ts]  the length-prefixed binary wire codec;
    - [encryption.ts]       authorization strings (HMAC-SHA256) of the server SDK;
    - [connection.ts]       the connection state machine of the client;
    - [channel.ts]          public, private and presence channels;
    - [client.ts], [auth.ts] the channel registry of the client.

    JavaScript values are modelled by the inductive type [JsValue], thrown
    [Error] objects by [JsError], one constructor per message of the sources.
    Logging ([this.log], [console.log]) has no effect on the state and is left
    out. *)

From Stdlib Require Import ZArith NArith QArith Qminmax Qround Qabs Qpower Lqa.
From Stdlib Require Import List String Ascii Bool Lia.
From Stdlib.Strings Require Import Byte.
From Stdlib Require Import DecimalString.
Import ListNotations.
Close Scope Q_scope.

Set Implicit Arguments.
Set Warnings "-register-all".

(* ================================================================== *)
(** * JavaScript values *)
(* ================================================================== *)

(** The values that travel through the SDK. Numbers are the integer-valued
    ones; [JBytes] is a [Uint8Array]. The fields of an object are kept in
    enumeration order. *)
Inductive JsValue : Type :=
| JUndefined
| JNull
| JBool (b : bool)
| JNum (n : Z)
| JStr (s : string)
| JArr (items : list JsValue)
| JObj (fields : list (string * JsValue))
| JBytes (bytes : list byte).

(** Errors thrown by the sources; arguments are the values interpolated in the
    message, [inner] is the [error.message] a handler re-throws. *)
Inductive JsError : Type :=
| SyntaxError
| TypeError
| RangeError
| BinaryMessageTooShort (len : Z)
| PayloadTruncated (expected got : Z)
| ZeroPayloadLength
| PayloadWithMetadataTooShort (len : Z)
| MetadataTruncated (expected got : Z)
| ZeroMetadataLength
| FailedToParseMetadata (inner : JsError)
| UnknownTypeEmptyPayload (messageType : Z)
| FailedToParseMessageType (messageType : Z) (inner : JsError)
| RequiresMetadataAndBinaryData
| UnsupportedMessageType (messageType : Z)
| UnableToParseAsJsonOrBinary
| EmptyOrInvalidUtf8
| UnableToParseBinaryMessage (inner : JsError)
| PrivateRequiresAuthEndpoint
| PresenceRequiresAuthEndpoint
| DiscoveryFailed
| DiscoveryTokenRequired
| InvalidApiKeyFormat
| AuthorizationFailed.

Inductive Result (A : Type) : Type :=
| Ok (a : A)
| Throw (e : JsError).
Arguments Ok {A} a.
Arguments Throw {A} e.

Definition rbind {A B} (r : Result A) (k : A -> Result B) : Result B :=
  match r with
  | Ok a => k a
  | Throw e => Throw e
  end.

(** [try { r } catch (error) { throw h(error) }] *)
Definition rethrow {A} (r : Result A) (h : JsError -> JsError) : Result A :=
  match r with
  | Ok a => Ok a
  | Throw e => Throw (h e)
  end.

Declare Scope result_scope.
Delimit Scope result_scope with result.
Notation "'let*' x ':=' r 'in' k" := (rbind r (fun x => k))
  (at level 10, x name, r at level 100, k at level 200) : result_scope.

(** Truthiness of a value, as tested by [if (v)], [!v] and [v || d]. *)
Definition truthy (v : JsValue) : bool :=
  match v with
  | JUndefined | JNull => false
  | JBool b => b
  | JNum n => negb (n =? 0)%Z
  | JStr s => negb (String.eqb s "")
  | JArr _ | JObj _ | JBytes _ => true
  end.

Fixpoint assoc (k : string) (l : list (string * JsValue)) : option JsValue :=
  match l with
  | [] => None
  | (k', v) :: l' => if String.eqb k k' then Some v else assoc k l'
  end.

(** Property read [v.k]: a [TypeError] on [undefined] and [null], [undefined]
    for a missing property. *)
Definition get_prop (v : JsValue) (k : string) : Result JsValue :=
  match v with
  | JUndefined | JNull => Throw TypeError
  | JObj fields =>
      match assoc k fields with
      | Some x => Ok x
      | None => Ok JUndefined
      end
  | _ => Ok JUndefined
  end.

(** Property write on an object literal: an existing key keeps its place, a
    new key comes last. *)
Fixpoint set_field (k : string) (v : JsValue) (l : list (string * JsValue))
  : list (string * JsValue) :=
  match l with
  | [] => [(k, v)]
  | (k', v') :: l' =>
      if String.eqb k k' then (k, v) :: l' else (k', v') :: set_field k v l'
  end.

Definition string_of_Z (z : Z) : string :=
  match z with
  | Z0 => "0"
  | Zpos p => NilZero.string_of_uint (Pos.to_uint p)
  | Zneg p => "-" ++ NilZero.string_of_uint (Pos.to_uint p)
  end.

Definition index_key (i : nat) : string :=
  NilZero.string_of_uint (Nat.to_uint i).

Fixpoint indexed {A} (f : A -> JsValue) (i : nat) (l : list A)
  : list (string * JsValue) :=
  match l with
  | [] => []
  | x :: l' => (index_key i, f x) :: indexed f (S i) l'
  end.

Definition byte_to_Z (b : byte) : Z := Z.of_N (Byte.to_N b).

(** The own enumerable properties copied by object spread [{...v}]. *)
Definition spread (v : JsValue) : list (string * JsValue) :=
  match v with
  | JObj fields => fields
  | JArr items => indexed (fun x => x) 0 items
  | JStr s => indexed (fun c => JStr (String c EmptyString)) 0 (list_ascii_of_string s)
  | JBytes bs => indexed (fun b => JNum (byte_to_Z b)) 0 bs
  | _ => []
  end.

(* ================================================================== *)
(** * Strings *)
(* ================================================================== *)

Definition is_whitespace (c : ascii) : bool :=
  match nat_of_ascii c with
  | 9 | 10 | 11 | 12 | 13 | 32 => true
  | _ => false
  end.

Fixpoint trim_start (s : string) : string :=
  match s with
  | String c s' => if is_whitespace c then trim_start s' else s
  | EmptyString => EmptyString
  end.

Fixpoint trim_end (s : string) : string :=
  match s with
  | EmptyString => EmptyString
  | String c s' =>
      match trim_end s' with
      | EmptyString => if is_whitespace c then EmptyString else String c EmptyString
      | t => String c t
      end
  end.

(** [s.trim()] on the ASCII white space characters. *)
Definition trim (s : string) : string := trim_end (trim_start s).

(** [s.startsWith(p)] *)
Definition startsWith (s p : string) : bool := String.prefix p s.

Fixpoint string_rev_acc (s acc : string) : string :=
  match s with
  | EmptyString => acc
  | String c s' => string_rev_acc s' (String c acc)
  end.

(** [s.endsWith(p)] *)
Definition endsWith (s p : string) : bool :=
  String.prefix (string_rev_acc p EmptyString) (string_rev_acc s EmptyString).

(** [s.includes(p)] *)
Fixpoint includes (s p : string) : bool :=
  String.prefix p s ||
  match s with
  | EmptyString => false
  | String _ s' => includes s' p
  end.

(* ================================================================== *)
(** * Numbers *)
(* ================================================================== *)

(** A JavaScript number is an IEEE 754 double. The finite doubles are
    rationals, and an arithmetic operation returns the exact result rounded to
    the nearest double, the one with an even last bit when two are equally
    near. [round] is that rounding on the rationals, subnormal numbers
    included. A rational at or beyond [2^1024] stands for no double (the
    operation overflows to an infinity): what is proved of a computation is
    proved for [finite] results. *)
Module Double.
Local Open Scope Q_scope.

(** [2^z] *)
Definition pow2 (z : Z) : Q := Qpower 2 z.

(** [floor(log2 x)] for a positive [x] *)
Definition ilog2 (x : Q) : Z :=
  let e := (Z.log2 (Qnum x) - Z.log2 (Zpos (Qden x)))%Z in
  if Qle_bool (pow2 e) x then e else (e - 1)%Z.

(** The nearest integer, the even one of two that are equally near. *)
Definition rne (x : Q) : Z :=
  let f := Qfloor x in
  match Qcompare (x - inject_Z f) (1 # 2) with
  | Lt => f
  | Gt => (f + 1)%Z
  | Eq => if Z.even f then f else (f + 1)%Z
  end.

(** The exponent of the last place of the doubles next to a positive [x]:
    53 significant bits, and no place below [2^-1074]. *)
Definition ulp_exp (x : Q) : Z := Z.max (ilog2 x - 52) (-1074).

Definition round_pos (x : Q) : Q :=
  let q := ulp_exp x in
  inject_Z (rne (x / pow2 q)) * pow2 q.

Definition round (x : Q) : Q :=
  Qred (match Qcompare 0 x with
        | Eq => 0
        | Lt => round_pos x
        | Gt => - round_pos (- x)
        end).

(** [x + y] and [x * y] on numbers *)
Definition add (x y : Q) : Q := round (x + y).
Definition mul (x y : Q) : Q := round (x * y).

Definition finite (x : Q) : Prop := Qabs x < pow2 1024.

End Double.

(** What [ToIntegerOrInfinity] gives: the number without its fraction, or an
    infinity. *)
Inductive Integer : Type :=
| Int (z : Z)
| PlusInfinity
| MinusInfinity.

(* ================================================================== *)
(** * The platform: built-ins and conversions *)
(* ================================================================== *)

(** The built-ins the SDK calls and the conversions of the language that are
    not written out here. [JSON_stringify] returns [None] where JavaScript
    returns [undefined]; [JSON_parse] returns [None] where it throws a
    [SyntaxError]. [Math_pow] is [Math.pow] where its result is finite: the
    language leaves the result to the implementation (an approximation of the
    power). [ToPrimitive] is the conversion of an array, an object or a
    [Uint8Array] to a primitive value (their [toString], as a rule), which can
    throw a [TypeError]; [StringToInteger] is the number a string converts to,
    without its fraction, [NaN] taken to 0 as [ToIntegerOrInfinity] does.
    Nothing is assumed of them. The one law: the empty text is not JSON. *)
Class Platform : Type := {
  JSON_stringify : JsValue -> option string;
  JSON_parse : string -> option JsValue;
  TextEncoder_encode : string -> list byte;
  TextDecoder_decode : list byte -> string;
  Math_pow : Q -> Q -> Q;
  ToPrimitive : JsValue -> Result JsValue;
  StringToInteger : string -> Integer;
  JSON_parse_empty : JSON_parse (TextDecoder_decode []) = None
}.

(* ================================================================== *)
(** * binary-protocol.ts *)
(* ================================================================== *)

Module BinaryProtocol.

Local Open Scope Z_scope.

Definition byte_of_Z (z : Z) : byte :=
  match Byte.of_N (Z.to_N (z mod 256)) with
  | Some b => b
  | None => x00
  end.

(** [new DataView(buffer, offset, 4).getUint32(0, true)]: a [RangeError] when
    fewer than four bytes are left at [offset]. *)
Definition getUint32 (bs : list byte) (offset : nat) : Result Z :=
  match skipn offset bs with
  | b0 :: b1 :: b2 :: b3 :: _ =>
      Ok (byte_to_Z b0 + 256 * byte_to_Z b1
          + 65536 * byte_to_Z b2 + 16777216 * byte_to_Z b3)
  | _ => Throw RangeError
  end.

(** [new DataView(new Uint8Array(4).buffer).setUint32(0, v, true)]: the value
    is taken modulo 2^32 and stored least significant byte first. *)
Definition setUint32 (v : Z) : list byte :=
  let w := v mod 4294967296 in
  [byte_of_Z w; byte_of_Z (w / 256); byte_of_Z (w / 65536); byte_of_Z (w / 16777216)].

Definition len {A} (l : list A) : Z := Z.of_nat (List.length l).

(** [bytes.slice(start, end)] and [bytes.slice(start)] *)
Definition slice {A} (l : list A) (start stop : Z) : list A :=
  firstn (Z.to_nat (stop - start)) (skipn (Z.to_nat start) l).
Definition slice_from {A} (l : list A) (start : Z) : list A :=
  skipn (Z.to_nat start) l.

Section Codec.
Context {P : Platform}.

Definition parse_json (text : string) : Result JsValue :=
  match JSON_parse text with
  | Some v => Ok v
  | None => Throw SyntaxError
  end.

(** [new TextEncoder().encode(JSON.stringify(v))]; [encode(undefined)] is the
    empty array. *)
Definition encode_json (v : JsValue) : list byte :=
  match JSON_stringify v with
  | Some s => TextEncoder_encode s
  | None => TextEncoder_encode ""
  end.

Definition parseBinaryPayloadWithMetadata (payloadBytes : list byte) : Result JsValue :=
  if len payloadBytes <? 4 then Throw (PayloadWithMetadataTooShort (len payloadBytes))
  else
    (let* metadataLength := getUint32 payloadBytes 0 in
     if len payloadBytes <? 4 + metadataLength
     then Throw (MetadataTruncated (4 + metadataLength) (len payloadBytes))
     else if metadataLength =? 0 then Throw ZeroMetadataLength
     else
       let metadataBytes := slice payloadBytes 4 (4 + metadataLength) in
       let binaryDataBytes := slice_from payloadBytes (4 + metadataLength) in
       rethrow
         (let* metadata := parse_json (TextDecoder_decode metadataBytes) in
          Ok (JObj (set_field "binaryData" (JBytes binaryDataBytes) (spread metadata))))
         FailedToParseMetadata)%result.

(** Compression is not implemented: the payload is read as UTF-8 JSON. *)
Definition parseCompressedPayload (payloadBytes : list byte) : Result JsValue :=
  parse_json (TextDecoder_decode payloadBytes).

Definition parseLatteStreamBinaryProtocol (bytes : list byte) : Result JsValue :=
  if len bytes <? 8 then Throw (BinaryMessageTooShort (len bytes))
  else
    (let* messageType := getUint32 bytes 0 in
     let* payloadLength := getUint32 bytes 4 in
     if len bytes <? 8 + payloadLength
     then Throw (PayloadTruncated (8 + payloadLength) (len bytes))
     else if payloadLength =? 0 then Throw ZeroPayloadLength
     else
       let payloadBytes := slice bytes 8 (8 + payloadLength) in
       rethrow
         (match messageType with
          | 1 => parse_json (TextDecoder_decode payloadBytes)
          | 2 => parseBinaryPayloadWithMetadata payloadBytes
          | 3 => parseCompressedPayload payloadBytes
          | _ =>
              let fallbackText := TextDecoder_decode payloadBytes in
              if Z.of_nat (String.length (trim fallbackText)) =? 0
              then Throw (UnknownTypeEmptyPayload messageType)
              else parse_json fallbackText
          end)
         (FailedToParseMessageType messageType))%result.

(** ** Conversions on the way into a [Uint8Array] *)

(** [ToIntegerOrInfinity(ToNumber(v))]: [undefined] is [NaN], which gives 0;
    an array, an object or a [Uint8Array] is made a primitive first. *)
Definition integerOfPrimitive (v : JsValue) : Integer :=
  match v with
  | JBool true => Int 1
  | JNum n => Int n
  | JStr s => StringToInteger s
  | _ => Int 0
  end.

Definition ToInteger (v : JsValue) : Result Integer :=
  match v with
  | JArr _ | JObj _ | JBytes _ =>
      let* p := ToPrimitive v in Ok (integerOfPrimitive p)
  | _ => Ok (integerOfPrimitive v)
  end%result.

(** [ToUint8]: an infinity gives 0, an integer is taken modulo 256. *)
Definition ToUint8 (v : JsValue) : Result byte :=
  (let* i := ToInteger v in
   Ok (match i with
       | Int z => byte_of_Z z
       | _ => x00
       end))%result.

(** [ToLength]: between 0 and [2^53 - 1]. *)
Definition ToLength (v : JsValue) : Result Z :=
  (let* i := ToInteger v in
   Ok (match i with
       | Int z => if z <=? 0 then 0 else Z.min z 9007199254740991
       | PlusInfinity => 9007199254740991
       | MinusInfinity => 0
       end))%result.

(** [v.length] of a value that is neither [undefined] nor [null] *)
Definition length_of (v : JsValue) : JsValue :=
  match v with
  | JBytes bs => JNum (len bs)
  | JArr items => JNum (len items)
  | JStr s => JNum (Z.of_nat (String.length s))
  | JObj fields =>
      match assoc "length" fields with
      | Some x => x
      | None => JUndefined
      end
  | _ => JUndefined
  end.

(** [v[k]] of an array-like *)
Definition element (v : JsValue) (k : nat) : JsValue :=
  match v with
  | JArr items => nth k items JUndefined
  | JStr s =>
      match String.get k s with
      | Some c => JStr (String c EmptyString)
      | None => JUndefined
      end
  | JObj fields =>
      match assoc (index_key k) fields with
      | Some x => x
      | None => JUndefined
      end
  | _ => JUndefined
  end.

(** What [a + v] is for a whole number [a]: a string when [v], made
    primitive, is one, and else a number, [NaN] for [undefined]. The sum of
    two integers is exact below [2^53]; beyond it the rounded sum fails the
    range check of [ToIndex] as the exact one does. *)
Inductive Sum : Type :=
| SumNaN
| SumInt (z : Z)
| SumStr (s : string).

Definition sumOfPrimitive (a : Z) (v : JsValue) : Sum :=
  match v with
  | JStr s => SumStr (string_of_Z a ++ s)
  | JNull | JBool false => SumInt a
  | JBool true => SumInt (a + 1)
  | JNum m => SumInt (a + m)
  | _ => SumNaN
  end.

Definition plus (a : Z) (v : JsValue) : Result Sum :=
  match v with
  | JArr _ | JObj _ | JBytes _ =>
      let* p := ToPrimitive v in Ok (sumOfPrimitive a p)
  | _ => Ok (sumOfPrimitive a v)
  end%result.

(** [ToIndex]: a [RangeError] outside 0 to [2^53 - 1]. *)
Definition indexOfInteger (i : Integer) : Result Z :=
  match i with
  | Int z => if (z <? 0) || (9007199254740991 <? z) then Throw RangeError else Ok z
  | _ => Throw RangeError
  end.

Definition ToIndex (x : Sum) : Result Z :=
  match x with
  | SumNaN => Ok 0
  | SumInt z => indexOfInteger (Int z)
  | SumStr s => indexOfInteger (StringToInteger s)
  end.

(** [new Uint8Array(x)] for an [x] that is not an object: zeros. *)
Definition Uint8Array_new (x : Sum) : Result (list byte) :=
  (let* n := ToIndex x in Ok (repeat x00 (Z.to_nat n)))%result.

(** The bytes [target.set(source, offset)] writes. For a source that is not a
    typed array they are its elements, [ToLength(source.length)] of them, each
    through [ToUint8]; the length is checked against the target first. *)
Fixpoint elementBytes (source : JsValue) (k n : nat) : Result (list byte) :=
  match n with
  | O => Ok []
  | S n' =>
      (let* b := ToUint8 (element source k) in
       let* bs := elementBytes source (S k) n' in
       Ok (b :: bs))%result
  end.

Definition Uint8Array_set (target : list byte) (source : JsValue) (offset : Z)
  : Result (list byte) :=
  (let write (bs : list byte) : list byte :=
     firstn (Z.to_nat offset) target ++ bs ++ skipn (Z.to_nat (offset + len bs)) target in
   match source with
   | JUndefined | JNull => Throw TypeError
   | JBytes bs =>
       if len target <? len bs + offset then Throw RangeError else Ok (write bs)
   | _ =>
       let* srcLength := ToLength (length_of source) in
       if len target <? srcLength + offset then Throw RangeError
       else let* bs := elementBytes source 0 (Z.to_nat srcLength) in Ok (write bs)
   end)%result.

(** [payload.binaryData] is whatever the caller hands over: the code reads
    its [length] and copies it with [Uint8Array.prototype.set], which takes
    any array-like. *)
Definition createBinaryMessage (messageType : Z) (payload : JsValue)
  : Result (list byte) :=
  (let* payloadBytes :=
     match messageType with
     | 1 => Ok (encode_json payload)
     | 2 =>
         let* binaryData := get_prop payload "binaryData" in
         let* metadata := get_prop payload "metadata" in
         if negb (truthy binaryData) || negb (truthy metadata)
         then Throw RequiresMetadataAndBinaryData
         else
           let metadataBytes := encode_json metadata in
           let metadataLengthBytes := setUint32 (len metadataBytes) in
           let* size := plus (4 + len metadataBytes) (length_of binaryData) in
           let* payloadBytes := Uint8Array_new size in
           let* payloadBytes := Uint8Array_set payloadBytes (JBytes metadataLengthBytes) 0 in
           let* payloadBytes := Uint8Array_set payloadBytes (JBytes metadataBytes) 4 in
           Uint8Array_set payloadBytes binaryData (4 + len metadataBytes)
     | _ => Throw (UnsupportedMessageType messageType)
     end in
   let messageTypeBytes := setUint32 messageType in
   let payloadLengthBytes := setUint32 (len payloadBytes) in
   Ok (messageTypeBytes ++ payloadLengthBytes ++ payloadBytes))%result.

(** The decoding entry point, on the bytes of the [ArrayBuffer], [Uint8Array]
    or [Blob] it is given. *)
Definition parseBinaryMessage (bytes : list byte) : Result JsValue :=
  let text := TextDecoder_decode bytes in
  let trimmedText := trim text in
  let looksLikeJson := startsWith trimmedText "{" || startsWith trimmedText "[" in
  let attempt : Result JsValue :=
    match (if looksLikeJson then JSON_parse trimmedText else None) with
    | Some parsedJson => Ok parsedJson
    | None =>
        let header :=
          if 8 <=? len bytes then
            match getUint32 bytes 0, getUint32 bytes 4 with
            | Ok messageType, Ok payloadLength =>
                (1 <=? messageType) && (messageType <=? 3)
                && (payloadLength <=? len bytes - 8) && (0 <? payloadLength)
            | _, _ => false
            end
          else false in
        if header then parseLatteStreamBinaryProtocol bytes
        else if (0 <? Z.of_nat (String.length trimmedText)) then
          match JSON_parse trimmedText with
          | Some v => Ok v
          | None => Throw UnableToParseAsJsonOrBinary
          end
        else Throw EmptyOrInvalidUtf8
    end in
  match attempt with
  | Ok v => Ok v
  | Throw error =>
      match parseLatteStreamBinaryProtocol bytes with
      | Ok v => Ok v
      | Throw _ => Throw (UnableToParseBinaryMessage error)
      end
  end.

End Codec.

End BinaryProtocol.

(* ================================================================== *)
(** * A reference platform *)
(* ================================================================== *)

(** A small JSON printer and reader and the one-byte-per-character text
    codec: an instance of [Platform] on which the codec can be run. It covers
    [null], booleans, integers, strings without escapes, arrays and objects. *)
Module RefPlatform.

Local Open Scope string_scope.

(** The double quote character. *)
Definition dquote : ascii := "034"%char.

Definition quote (s : string) : string := String dquote (s ++ String dquote "").

Fixpoint join (sep : string) (l : list string) : string :=
  match l with
  | [] => ""
  | [x] => x
  | x :: l' => x ++ sep ++ join sep l'
  end.

Definition or_null (o : option string) : string :=
  match o with Some s => s | None => "null" end.

Fixpoint stringify (v : JsValue) : option string :=
  match v with
  | JUndefined => None
  | JNull => Some "null"
  | JBool true => Some "true"
  | JBool false => Some "false"
  | JNum n => Some (string_of_Z n)
  | JStr s => Some (quote s)
  | JArr items =>
      Some ("[" ++ join "," (map (fun x => or_null (stringify x)) items) ++ "]")
  | JObj fields =>
      Some ("{" ++ join ","
              (flat_map (fun kv =>
                           match stringify (snd kv) with
                           | Some s => [quote (fst kv) ++ ":" ++ s]
                           | None => []
                           end) fields) ++ "}")
  | JBytes bs =>
      Some ("{" ++ join ","
              (map (fun kv => quote (fst kv) ++ ":" ++ string_of_Z (snd kv))
                   (combine (map index_key (seq 0 (List.length bs))) (map byte_to_Z bs)))
              ++ "}")
  end.

Definition is_digit (c : ascii) : bool :=
  (48 <=? nat_of_ascii c)%nat && (nat_of_ascii c <=? 57)%nat.

Fixpoint skip_ws (s : list ascii) : list ascii :=
  match s with
  | c :: s' => if is_whitespace c then skip_ws s' else s
  | [] => []
  end.

(** The characters of a string literal up to its closing quote. *)
Fixpoint read_string (s : list ascii) : option (string * list ascii) :=
  match s with
  | [] => None
  | c :: s' =>
      if Ascii.eqb c dquote then Some ("", s')
      else if Ascii.eqb c "\" then None
      else match read_string s' with
           | Some (t, r) => Some (String c t, r)
           | None => None
           end
  end.

Fixpoint read_digits (acc : Z) (s : list ascii) : Z * list ascii :=
  match s with
  | c :: s' =>
      if is_digit c
      then read_digits (10 * acc + Z.of_nat (nat_of_ascii c - 48)) s'
      else (acc, s)
  | [] => (acc, [])
  end.

(** A key read again later keeps its first place and takes the later value. *)
Definition add_field (k : string) (v : JsValue) (fs : list (string * JsValue))
  : list (string * JsValue) :=
  match assoc k fs with
  | Some v' => (k, v') :: filter (fun kv => negb (String.eqb k (fst kv))) fs
  | None => (k, v) :: fs
  end.

Fixpoint read_value (fuel : nat) (s : list ascii) : option (JsValue * list ascii) :=
  match fuel with
  | O => None
  | S fuel' =>
      match skip_ws s with
      | "n" :: "u" :: "l" :: "l" :: r => Some (JNull, r)
      | "t" :: "r" :: "u" :: "e" :: r => Some (JBool true, r)
      | "f" :: "a" :: "l" :: "s" :: "e" :: r => Some (JBool false, r)
      | "034"%char :: r =>
          match read_string r with
          | Some (t, r') => Some (JStr t, r')
          | None => None
          end
      | "[" :: r =>
          match skip_ws r with
          | "]" :: r' => Some (JArr [], r')
          | _ =>
              match read_items fuel' r with
              | Some (items, r') => Some (JArr items, r')
              | None => None
              end
          end
      | "{" :: r =>
          match skip_ws r with
          | "}" :: r' => Some (JObj [], r')
          | _ =>
              match read_fields fuel' r with
              | Some (fields, r') => Some (JObj fields, r')
              | None => None
              end
          end
      | "-" :: c :: r =>
          if is_digit c
          then let (n, r') := read_digits 0 (c :: r) in Some (JNum (- n), r')
          else None
      | c :: r =>
          if is_digit c
          then let (n, r') := read_digits 0 (c :: r) in Some (JNum n, r')
          else None
      | [] => None
      end%char
  end
with read_items (fuel : nat) (s : list ascii) : option (list JsValue * list ascii) :=
  match fuel with
  | O => None
  | S fuel' =>
      match read_value fuel' s with
      | Some (v, r) =>
          match skip_ws r with
          | "," :: r' =>
              match read_items fuel' r' with
              | Some (vs, r'') => Some (v :: vs, r'')
              | None => None
              end
          | "]" :: r' => Some ([v], r')
          | _ => None
          end%char
      | None => None
      end
  end
with read_fields (fuel : nat) (s : list ascii)
  : option (list (string * JsValue) * list ascii) :=
  match fuel with
  | O => None
  | S fuel' =>
      match skip_ws s with
      | "034"%char :: r =>
          match read_string r with
          | Some (k, r1) =>
              match skip_ws r1 with
              | ":" :: r2 =>
                  match read_value fuel' r2 with
                  | Some (v, r3) =>
                      match skip_ws r3 with
                      | "," :: r4 =>
                          match read_fields fuel' r4 with
                          | Some (fs, r5) => Some (add_field k v fs, r5)
                          | None => None
                          end
                      | "}" :: r4 => Some ([(k, v)], r4)
                      | _ => None
                      end
                  | None => None
                  end
              | _ => None
              end
          | None => None
          end
      | _ => None
      end%char
  end.

Definition parse (text : string) : option JsValue :=
  let s := list_ascii_of_string text in
  match read_value (S (List.length s)) s with
  | Some (v, r) => match skip_ws r with [] => Some v | _ => None end
  | None => None
  end.

Definition encode (s : string) : list byte := list_byte_of_string s.
Definition decode (bs : list byte) : string := string_of_list_byte bs.

(** Powers with a whole exponent, rounded once. *)
Definition pow (x y : Q) : Q := Double.round (Qpower x (Qfloor y)).

(** [toString] of an array (its elements joined by commas, [null] and
    [undefined] as the empty string), of an object and of a [Uint8Array]. *)
Fixpoint to_string (v : JsValue) : string :=
  match v with
  | JUndefined => "undefined"
  | JNull => "null"
  | JBool true => "true"
  | JBool false => "false"
  | JNum n => string_of_Z n
  | JStr s => s
  | JArr items =>
      join "," (map (fun x => match x with
                              | JUndefined | JNull => ""
                              | _ => to_string x
                              end) items)
  | JObj _ => "[object Object]"
  | JBytes bs => join "," (map (fun b => string_of_Z (byte_to_Z b)) bs)
  end.

Definition to_primitive (v : JsValue) : Result JsValue := Ok (JStr (to_string v)).

(** The integers written in decimal digits, white space around them left
    out; the empty string is 0, and so is every other string here. *)
Definition string_to_integer (s : string) : Integer :=
  match list_ascii_of_string (trim s) with
  | "-"%char :: c :: r =>
      if forallb is_digit (c :: r) then Int (- fst (read_digits 0 (c :: r))) else Int 0
  | cs => if forallb is_digit cs then Int (fst (read_digits 0 cs)) else Int 0
  end.

#[export] Instance platform : Platform := {|
  JSON_stringify := stringify;
  JSON_parse := parse;
  TextEncoder_encode := encode;
  TextDecoder_decode := decode;
  Math_pow := pow;
  ToPrimitive := to_primitive;
  StringToInteger := string_to_integer;
  JSON_parse_empty := eq_refl
|}.

End RefPlatform.

(* ================================================================== *)
(** * Node's [crypto]: HMAC-SHA256 *)
(* ================================================================== *)

(** [createHmac('sha256', key).update(text).digest('hex')] of the Node
    runtime, on byte strings (FIPS 180-4, RFC 2104). Words are integers
    modulo 2^32. *)
Module Crypto.

Local Open Scope Z_scope.

Definition mask32 : Z := 4294967295.
Definition add32 (x y : Z) : Z := (x + y) mod 4294967296.
Definition rotr (n x : Z) : Z :=
  Z.lor (Z.shiftr x n) (Z.land (Z.shiftl x (32 - n)) mask32).
Definition not32 (x : Z) : Z := Z.lxor x mask32.

Definition Ch (x y z : Z) : Z := Z.lxor (Z.land x y) (Z.land (not32 x) z).
Definition Maj (x y z : Z) : Z :=
  Z.lxor (Z.lxor (Z.land x y) (Z.land x z)) (Z.land y z).
Definition Sigma0 (x : Z) : Z := Z.lxor (Z.lxor (rotr 2 x) (rotr 13 x)) (rotr 22 x).
Definition Sigma1 (x : Z) : Z := Z.lxor (Z.lxor (rotr 6 x) (rotr 11 x)) (rotr 25 x).
Definition sigma0 (x : Z) : Z := Z.lxor (Z.lxor (rotr 7 x) (rotr 18 x)) (Z.shiftr x 3).
Definition sigma1 (x : Z) : Z := Z.lxor (Z.lxor (rotr 17 x) (rotr 19 x)) (Z.shiftr x 10).

Definition K256 : list Z :=
  [1116352408; 1899447441; 3049323471; 3921009573; 961987163; 1508970993;
   2453635748; 2870763221; 3624381080; 310598401; 607225278; 1426881987;
   1925078388; 2162078206; 2614888103; 3248222580; 3835390401; 4022224774;
   264347078; 604807628; 770255983; 1249150122; 1555081692; 1996064986;
   2554220882; 2821834349; 2952996808; 3210313671; 3336571891; 3584528711;
   113926993; 338241895; 666307205; 773529912; 1294757372; 1396182291;
   1695183700; 1986661051; 2177026350; 2456956037; 2730485921; 2820302411;
   3259730800; 3345764771; 3516065817; 3600352804; 4094571909; 275423344;
   430227734; 506948616; 659060556; 883997877; 958139571; 1322822218;
   1537002063; 1747873779; 1955562222; 2024104815; 2227730452; 2361852424;
   2428436474; 2756734187; 3204031479; 3329325298].

Record HashState : Type := mkHash {
  ha : Z; hb : Z; hc : Z; hd : Z; he : Z; hf : Z; hg : Z; hh : Z
}.

Definition H0 : HashState :=
  mkHash 1779033703 3144134277 1013904242 2773480762
         1359893119 2600822924 528734635 1541459225.

(** The message schedule: [w] holds the last sixteen words, oldest first. *)
Fixpoint schedule (n : nat) (w : list Z) : list Z :=
  match n with
  | O => []
  | S n' =>
      match w with
      | [] => []
      | w0 :: rest =>
          let next := add32 (add32 (sigma1 (nth 14 w 0)) (nth 9 w 0))
                            (add32 (sigma0 (nth 1 w 0)) w0) in
          w0 :: schedule n' (rest ++ [next])
      end
  end.

Definition round (s : HashState) (kw : Z * Z) : HashState :=
  let t1 := add32 (add32 (add32 (hh s) (Sigma1 (he s)))
                         (add32 (Ch (he s) (hf s) (hg s)) (fst kw))) (snd kw) in
  let t2 := add32 (Sigma0 (ha s)) (Maj (ha s) (hb s) (hc s)) in
  mkHash (add32 t1 t2) (ha s) (hb s) (hc s) (add32 (hd s) t1) (he s) (hf s) (hg s).

Definition compress (s : HashState) (block : list Z) : HashState :=
  let r := fold_left round (combine K256 (schedule 64 block)) s in
  mkHash (add32 (ha s) (ha r)) (add32 (hb s) (hb r)) (add32 (hc s) (hc r))
         (add32 (hd s) (hd r)) (add32 (he s) (he r)) (add32 (hf s) (hf r))
         (add32 (hg s) (hg r)) (add32 (hh s) (hh r)).

(** Big-endian words of a byte list whose length is a multiple of four. *)
Fixpoint words (bs : list Z) : list Z :=
  match bs with
  | b0 :: b1 :: b2 :: b3 :: rest =>
      (16777216 * b0 + 65536 * b1 + 256 * b2 + b3) :: words rest
  | _ => []
  end.

Fixpoint blocks (n : nat) (ws : list Z) : list (list Z) :=
  match n with
  | O => []
  | S n' => firstn 16 ws :: blocks n' (skipn 16 ws)
  end.

Definition word_bytes (w : Z) : list Z :=
  [Z.shiftr w 24 mod 256; Z.shiftr w 16 mod 256; Z.shiftr w 8 mod 256; w mod 256].

Definition pad (msg : list Z) : list Z :=
  let l := Z.of_nat (List.length msg) in
  let zeros := Z.to_nat ((55 - l) mod 64) in
  msg ++ [128] ++ repeat 0 zeros
      ++ word_bytes (Z.shiftr (8 * l) 32 mod 4294967296)
      ++ word_bytes ((8 * l) mod 4294967296).

Definition sha256 (msg : list Z) : list Z :=
  let ws := words (pad msg) in
  let s := fold_left compress (blocks (List.length ws / 16) ws) H0 in
  word_bytes (ha s) ++ word_bytes (hb s) ++ word_bytes (hc s) ++ word_bytes (hd s)
  ++ word_bytes (he s) ++ word_bytes (hf s) ++ word_bytes (hg s) ++ word_bytes (hh s).

Definition hmac_sha256 (key msg : list Z) : list Z :=
  let key0 := if 64 <? Z.of_nat (List.length key) then sha256 key else key in
  let keyb := key0 ++ repeat 0 (64 - List.length key0) in
  let ipad := map (Z.lxor 54) keyb in
  let opad := map (Z.lxor 92) keyb in
  sha256 (opad ++ sha256 (ipad ++ msg)).

Definition hex_digit (n : Z) : ascii :=
  match n with
  | 0 => "0" | 1 => "1" | 2 => "2" | 3 => "3" | 4 => "4" | 5 => "5" | 6 => "6"
  | 7 => "7" | 8 => "8" | 9 => "9" | 10 => "a" | 11 => "b" | 12 => "c"
  | 13 => "d" | 14 => "e" | _ => "f"
  end%char.

Fixpoint hex (bs : list Z) : string :=
  match bs with
  | [] => EmptyString
  | b :: bs' => String (hex_digit (b / 16)) (String (hex_digit (b mod 16)) (hex bs'))
  end.

(** The character codes of a string: [charCodeAt], and the bytes of its UTF-8
    encoding for the ASCII strings of the protocol. *)
Definition codes (s : string) : list Z :=
  map (fun c => Z.of_N (N_of_ascii c)) (list_ascii_of_string s).

Definition createHmac_sha256_hex (key text : string) : string :=
  hex (hmac_sha256 (codes key) (codes text)).

End Crypto.

(* ================================================================== *)
(** * server/encryption.ts *)
(* ================================================================== *)

Module EncryptionHelper.

Local Open Scope string_scope.

(** [s.split(':')] *)
Fixpoint split_colon (s : string) : list string :=
  match s with
  | EmptyString => [EmptyString]
  | String c s' =>
      if Ascii.eqb c ":" then EmptyString :: split_colon s'
      else match split_colon s' with
           | f :: fs => String c f :: fs
           | [] => [String c EmptyString]
           end
  end.

Definition no_colon (s : string) : bool :=
  forallb (fun c => negb (Ascii.eqb c ":")) (list_ascii_of_string s).

Section WithKey.
Variable masterKey : string.

(** The string that is signed; [channelData ? ... : ...] takes the empty
    string for absent. *)
Definition finalString (socketId channelName : string)
           (channelData : option string) : string :=
  let stringToSign := socketId ++ ":" ++ channelName in
  match channelData with
  | Some d => if String.eqb d "" then stringToSign else stringToSign ++ ":" ++ d
  | None => stringToSign
  end.

Definition generateAuthString (socketId channelName : string)
           (channelData : option string) : string :=
  let signature :=
    Crypto.createHmac_sha256_hex masterKey (finalString socketId channelName channelData) in
  socketId ++ ":" ++ signature.

(** The loop of [constantTimeCompare]: [result |= a.charCodeAt(i) ^ b.charCodeAt(i)]. *)
Fixpoint compare_loop (a b : list Z) (result : Z) : Z :=
  match a, b with
  | x :: a', y :: b' => compare_loop a' b' (Z.lor result (Z.lxor x y))
  | _, _ => result
  end.

Definition constantTimeCompare (a b : string) : bool :=
  if negb (String.length a =? String.length b)%nat then false
  else (compare_loop (Crypto.codes a) (Crypto.codes b) 0 =? 0)%Z.

(** Any exception inside the [try] block gives [false]: the only one is
    reading [length] of an [undefined] expected signature. *)
Definition verifyAuthString (authString channelName : string)
           (channelData : option string) : bool :=
  match split_colon authString with
  | socketId :: signature :: _ =>
      if String.eqb socketId "" || String.eqb signature "" then false
      else
        let expectedAuth := generateAuthString socketId channelName channelData in
        match split_colon expectedAuth with
        | _ :: expectedSignature :: _ => constantTimeCompare signature expectedSignature
        | _ => false
        end
  | _ => false
  end.

Definition generateWebhookSignature (payload : string) : string :=
  Crypto.createHmac_sha256_hex masterKey payload.

Definition verifyWebhookSignature (payload signature : string) : bool :=
  constantTimeCompare signature (generateWebhookSignature payload).

End WithKey.

End EncryptionHelper.

(* ================================================================== *)
(** * The state of a client *)
(* ================================================================== *)

Inductive ConnectionState : Type :=
| disconnected | connecting | connected | unavailable | failed.

Inductive ChannelType : Type := public | private | presence.

Definition ConnectionState_eqb (a b : ConnectionState) : bool :=
  match a, b with
  | disconnected, disconnected | connecting, connecting | connected, connected
  | unavailable, unavailable | failed, failed => true
  | _, _ => false
  end.

(** The options read by the client ([LatteStreamOptions]); an absent option is
    [None]. *)
Record LatteStreamOptions : Type := mkOptions {
  authEndpoint : option string;
  wsEndpoint : option string;
  cluster : option string;
  forceTLS : bool;
  enableBatching : option bool;
  batchSize : option Q;
  batchInterval : option Q;
  maxReconnectionAttempts : option Q;
  maxReconnectGapInSeconds : option Q;
  reconnectBaseDelay : option Q;
  reconnectBackoffMultiplier : option Q;
  reconnectJitter : option bool;
  activityTimeout : option Q;
  pongTimeout : option Q
}.

Definition defaultOptions : LatteStreamOptions :=
  mkOptions None None None false None None None None None None None None None None.

Record DiscoveryResponse : Type := mkDiscovery {
  discovery_token : string;
  node_id : Z;
  discovery_cluster : string
}.

(** ** The runtime: sockets, timers and the wire *)

Inductive ReadyState : Type := CONNECTING | OPEN | CLOSING | CLOSED.

Record WebSocket : Type := mkSocket {
  url : string;
  readyState : ReadyState
}.

(** The callback of a pending timer is fixed by the place that set it. *)
Inductive TimerKind : Type :=
| ReconnectTimer   (* attemptReconnect: [this.connect()] *)
| ActivityTimer    (* startActivityTimer: [this.sendPing()] *)
| PongTimer        (* startPongTimer: [this.disconnect()] *)
| DebounceTimer    (* debounce: [this.attemptReconnect()] *)
| FlushTimer.      (* MessageQueue.enqueue: [this.flush()] *)

Record Timer : Type := mkTimer {
  handle : nat;
  kind : TimerKind;
  delay : Q
}.

(** Every socket created so far (a socket is named by its index), the timers
    that are pending, the next timer handle, and the frames handed to
    [ws.send] with the socket they went to (each is sent as its JSON text). *)
Record Runtime : Type := mkRuntime {
  sockets : list WebSocket;
  timers : list Timer;
  nextHandle : nat;
  wire : list (nat * JsValue)
}.

Definition set_sockets (v : list WebSocket) (r : Runtime) : Runtime :=
  mkRuntime v (timers r) (nextHandle r) (wire r).
Definition set_timers (v : list Timer) (r : Runtime) : Runtime :=
  mkRuntime (sockets r) v (nextHandle r) (wire r).
Definition set_nextHandle (v : nat) (r : Runtime) : Runtime :=
  mkRuntime (sockets r) (timers r) v (wire r).
Definition set_wire (v : list (nat * JsValue)) (r : Runtime) : Runtime :=
  mkRuntime (sockets r) (timers r) (nextHandle r) v.

(** The fields of [Connection], the [timeout] variable of its debounced
    reconnect and the two fields of its [MessageQueue]. *)
Record Connection : Type := mkConnection {
  ws : option nat;
  state : ConnectionState;
  reconnectAttempts : nat;
  reconnectTimer : option nat;
  activityTimer : option nat;
  pongTimer : option nat;
  socketId : JsValue;
  discoveryToken : option string;
  discoveryData : option DiscoveryResponse;
  debounceTimeout : option nat;
  queue : list JsValue;
  flushTimer : option nat
}.

Definition set_ws (v : option nat) (r : Connection) : Connection :=
  mkConnection v (state r) (reconnectAttempts r) (reconnectTimer r) (activityTimer r) (pongTimer r) (socketId r) (discoveryToken r) (discoveryData r) (debounceTimeout r) (queue r) (flushTimer r).
Definition set_state (v : ConnectionState) (r : Connection) : Connection :=
  mkConnection (ws r) v (reconnectAttempts r) (reconnectTimer r) (activityTimer r) (pongTimer r) (socketId r) (discoveryToken r) (discoveryData r) (debounceTimeout r) (queue r) (flushTimer r).
Definition set_reconnectAttempts (v : nat) (r : Connection) : Connection :=
  mkConnection (ws r) (state r) v (reconnectTimer r) (activityTimer r) (pongTimer r) (socketId r) (discoveryToken r) (discoveryData r) (debounceTimeout r) (queue r) (flushTimer r).
Definition set_reconnectTimer (v : option nat) (r : Connection) : Connection :=
  mkConnection (ws r) (state r) (reconnectAttempts r) v (activityTimer r) (pongTimer r) (socketId r) (discoveryToken r) (discoveryData r) (debounceTimeout r) (queue r) (flushTimer r).
Definition set_activityTimer (v : option nat) (r : Connection) : Connection :=
  mkConnection (ws r) (state r) (reconnectAttempts r) (reconnectTimer r) v (pongTimer r) (socketId r) (discoveryToken r) (discoveryData r) (debounceTimeout r) (queue r) (flushTimer r).
Definition set_pongTimer (v : option nat) (r : Connection) : Connection :=
  mkConnection (ws r) (state r) (reconnectAttempts r) (reconnectTimer r) (activityTimer r) v (socketId r) (discoveryToken r) (discoveryData r) (debounceTimeout r) (queue r) (flushTimer r).
Definition set_socketId (v : JsValue) (r : Connection) : Connection :=
  mkConnection (ws r) (state r) (reconnectAttempts r) (reconnectTimer r) (activityTimer r) (pongTimer r) v (discoveryToken r) (discoveryData r) (debounceTimeout r) (queue r) (flushTimer r).
Definition set_discoveryToken (v : option string) (r : Connection) : Connection :=
  mkConnection (ws r) (state r) (reconnectAttempts r) (reconnectTimer r) (activityTimer r) (pongTimer r) (socketId r) v (discoveryData r) (debounceTimeout r) (queue r) (flushTimer r).
Definition set_discoveryData (v : option DiscoveryResponse) (r : Connection) : Connection :=
  mkConnection (ws r) (state r) (reconnectAttempts r) (reconnectTimer r) (activityTimer r) (pongTimer r) (socketId r) (discoveryToken r) v (debounceTimeout r) (queue r) (flushTimer r).
Definition set_debounceTimeout (v : option nat) (r : Connection) : Connection :=
  mkConnection (ws r) (state r) (reconnectAttempts r) (reconnectTimer r) (activityTimer r) (pongTimer r) (socketId r) (discoveryToken r) (discoveryData r) v (queue r) (flushTimer r).
Definition set_queue (v : list JsValue) (r : Connection) : Connection :=
  mkConnection (ws r) (state r) (reconnectAttempts r) (reconnectTimer r) (activityTimer r) (pongTimer r) (socketId r) (discoveryToken r) (discoveryData r) (debounceTimeout r) v (flushTimer r).
Definition set_flushTimer (v : option nat) (r : Connection) : Connection :=
  mkConnection (ws r) (state r) (reconnectAttempts r) (reconnectTimer r) (activityTimer r) (pongTimer r) (socketId r) (discoveryToken r) (discoveryData r) (debounceTimeout r) (queue r) v.

(** ** Channels and presence members *)

Record PresenceMember : Type := mkMember {
  id : JsValue;
  info : JsValue
}.

(** A channel object; [members] and [myId] are used by presence channels.
    Member objects live in a store shared with the static member pool, the map
    holds their addresses. *)
Record Channel : Type := mkChannel {
  name : string;
  channelType : ChannelType;
  subscribed : bool;
  members : list (JsValue * nat);
  myId : JsValue
}.

Definition set_subscribed (v : bool) (c : Channel) : Channel :=
  mkChannel (name c) (channelType c) v (members c) (myId c).
Definition set_members (v : list (JsValue * nat)) (c : Channel) : Channel :=
  mkChannel (name c) (channelType c) (subscribed c) v (myId c).
Definition set_myId (v : JsValue) (c : Channel) : Channel :=
  mkChannel (name c) (channelType c) (subscribed c) (members c) v.

(** What an emitter hands to its listeners. *)
Inductive Payload : Type :=
| PValue (v : JsValue)
| PError (e : JsError)
| PErrorEvent
| PStateChange (previous current : ConnectionState)
| PMember (address : nat) (member : PresenceMember).

(** A call of [emit]: the emitter ([None] is the global one, [Some c] the
    channel object [c]), the event name and the payload. *)
Record Emitted : Type := mkEmitted {
  emitter : option nat;
  eventName : JsValue;
  payload : Payload
}.

(** An authorization request in flight: the channel object that waits for it
    and the socket id it was made for. *)
Record AuthRequest : Type := mkAuthRequest {
  requester : nat;
  requestSocketId : JsValue
}.

(** The fields of [LatteStream] next to its connection: the authorizer (its
    endpoint), the channel map, the store of channel objects, the store of
    member objects, the static member pool (most recently released first),
    the calls of [emit] so far and the authorization requests in flight. *)
Record Client : Type := mkClient {
  authorizer : option string;
  channels : list (JsValue * nat);
  channelStore : list Channel;
  memberStore : list PresenceMember;
  memberPool : list nat;
  emitted : list Emitted;
  pendingAuth : list AuthRequest
}.

Definition set_authorizer (v : option string) (r : Client) : Client :=
  mkClient v (channels r) (channelStore r) (memberStore r) (memberPool r) (emitted r) (pendingAuth r).
Definition set_channels (v : list (JsValue * nat)) (r : Client) : Client :=
  mkClient (authorizer r) v (channelStore r) (memberStore r) (memberPool r) (emitted r) (pendingAuth r).
Definition set_channelStore (v : list Channel) (r : Client) : Client :=
  mkClient (authorizer r) (channels r) v (memberStore r) (memberPool r) (emitted r) (pendingAuth r).
Definition set_memberStore (v : list PresenceMember) (r : Client) : Client :=
  mkClient (authorizer r) (channels r) (channelStore r) v (memberPool r) (emitted r) (pendingAuth r).
Definition set_memberPool (v : list nat) (r : Client) : Client :=
  mkClient (authorizer r) (channels r) (channelStore r) (memberStore r) v (emitted r) (pendingAuth r).
Definition set_emitted (v : list Emitted) (r : Client) : Client :=
  mkClient (authorizer r) (channels r) (channelStore r) (memberStore r) (memberPool r) v (pendingAuth r).
Definition set_pendingAuth (v : list AuthRequest) (r : Client) : Client :=
  mkClient (authorizer r) (channels r) (channelStore r) (memberStore r) (memberPool r) (emitted r) v.

(** A client with its runtime. *)
Record World : Type := mkWorld {
  appKeyOrToken : string;
  options : LatteStreamOptions;
  conn : Connection;
  rt : Runtime;
  cl : Client
}.

Definition set_appKeyOrToken (v : string) (r : World) : World :=
  mkWorld v (options r) (conn r) (rt r) (cl r).
Definition set_options (v : LatteStreamOptions) (r : World) : World :=
  mkWorld (appKeyOrToken r) v (conn r) (rt r) (cl r).
Definition set_conn (v : Connection) (r : World) : World :=
  mkWorld (appKeyOrToken r) (options r) v (rt r) (cl r).
Definition set_rt (v : Runtime) (r : World) : World :=
  mkWorld (appKeyOrToken r) (options r) (conn r) v (cl r).
Definition set_cl (v : Client) (r : World) : World :=
  mkWorld (appKeyOrToken r) (options r) (conn r) (rt r) v.

(* ================================================================== *)
(** * Methods as state transformers *)
(* ================================================================== *)

(** A method runs on a world and returns a value or throws; what it wrote
    before a throw stays written. *)
Definition M (A : Type) : Type := World -> Result A * World.

Definition ret {A} (a : A) : M A := fun w => (Ok a, w).
Definition throw {A} (e : JsError) : M A := fun w => (Throw e, w).
Definition bind {A B} (m : M A) (k : A -> M B) : M B :=
  fun w => match m w with
           | (Ok a, w') => k a w'
           | (Throw e, w') => (Throw e, w')
           end.
(** [try { m } catch (error) { h error }] *)
Definition try_catch {A} (m : M A) (h : JsError -> M A) : M A :=
  fun w => match m w with
           | (Ok a, w') => (Ok a, w')
           | (Throw e, w') => h e w'
           end.
Definition get : M World := fun w => (Ok w, w).
Definition modify (f : World -> World) : M unit := fun w => (Ok tt, f w).
Definition lift {A} (r : Result A) : M A := fun w => (r, w).

Declare Scope method_scope.
Delimit Scope method_scope with method.
Notation "x <- m ;; k" := (bind m (fun x => k))
  (at level 61, m at next level, right associativity) : method_scope.
Notation "m ;; k" := (bind m (fun _ => k))
  (at level 61, right associativity) : method_scope.
Local Open Scope method_scope.

Definition when (b : bool) (m : M unit) : M unit := if b then m else ret tt.

Fixpoint forEach {A} (l : list A) (f : A -> M unit) : M unit :=
  match l with
  | [] => ret tt
  | x :: l' => f x ;; forEach l' f
  end.

Definition exec {A} (m : M A) (w : World) : World := snd (m w).
Definition result {A} (m : M A) (w : World) : Result A := fst (m w).

Definition modify_conn (f : Connection -> Connection) : M unit :=
  modify (fun w => set_conn (f (conn w)) w).
Definition modify_rt (f : Runtime -> Runtime) : M unit :=
  modify (fun w => set_rt (f (rt w)) w).
Definition modify_cl (f : Client -> Client) : M unit :=
  modify (fun w => set_cl (f (cl w)) w).

(** ** [Map] *)

(** Keys are compared as [Map] does (SameValueZero): primitives by value; an
    object read from a message is a new object, equal to no key. Entries are
    kept in insertion order. *)
Module JsMap.

Definition same_value_zero (a b : JsValue) : bool :=
  match a, b with
  | JUndefined, JUndefined => true
  | JNull, JNull => true
  | JBool x, JBool y => Bool.eqb x y
  | JNum x, JNum y => Z.eqb x y
  | JStr x, JStr y => String.eqb x y
  | _, _ => false
  end.

Section Ops.
Context {V : Type}.

Fixpoint get (k : JsValue) (m : list (JsValue * V)) : option V :=
  match m with
  | [] => None
  | (k', v) :: m' => if same_value_zero k k' then Some v else get k m'
  end.

Definition has (k : JsValue) (m : list (JsValue * V)) : bool :=
  match get k m with Some _ => true | None => false end.

Fixpoint set (k : JsValue) (v : V) (m : list (JsValue * V)) : list (JsValue * V) :=
  match m with
  | [] => [(k, v)]
  | (k', v') :: m' =>
      if same_value_zero k k' then (k', v) :: m' else (k', v') :: set k v m'
  end.

Fixpoint delete (k : JsValue) (m : list (JsValue * V)) : list (JsValue * V) :=
  match m with
  | [] => []
  | (k', v') :: m' =>
      if same_value_zero k k' then m' else (k', v') :: delete k m'
  end.

(** The number of entries under a key: at most one in a [Map]. *)
Definition count (k : JsValue) (m : list (JsValue * V)) : nat :=
  List.length (filter (fun e => same_value_zero k (fst e)) m).

Definition values (m : list (JsValue * V)) : list V := map snd m.
Definition size (m : list (JsValue * V)) : nat := List.length m.

End Ops.
End JsMap.

(** ** Numbers and timers *)

(** [x || d] on a numeric option: [undefined] and [0] give the default. *)
Definition num_or (o : option Q) (d : Q) : Q :=
  match o with
  | Some x => if Qeq_bool x 0 then d else x
  | None => d
  end.

(** [x !== false] *)
Definition not_false (o : option bool) : bool :=
  match o with
  | Some false => false
  | _ => true
  end.

(** [window.setTimeout(callback, delay)]: a new pending timer and its handle
    (handles are positive). *)
Definition setTimeout (k : TimerKind) (d : Q) : M nat :=
  w <- get ;;
  let h := nextHandle (rt w) in
  modify_rt (fun r => set_nextHandle (S h) (set_timers (timers r ++ [mkTimer h k d]) r)) ;;
  ret h.

(** [clearTimeout(h)] *)
Definition clearTimeout (h : nat) : M unit :=
  modify_rt (fun r => set_timers (filter (fun t => negb (Nat.eqb (handle t) h)) (timers r)) r).

Definition find_timer (h : nat) (ts : list Timer) : option Timer :=
  find (fun t => Nat.eqb (handle t) h) ts.

Fixpoint update_nth {A} (n : nat) (f : A -> A) (l : list A) : list A :=
  match l, n with
  | [], _ => []
  | x :: l', O => f x :: l'
  | x :: l', S n' => x :: update_nth n' f l'
  end.

(* ================================================================== *)
(** * client/connection.ts and the MessageQueue of client/performance.ts *)
(* ================================================================== *)

(** What the environment decides when a method runs: the outcome of the
    discovery request, whether [new WebSocket(url)] throws, and the value of
    [Math.random()]. The [await] of the discovery request is taken in one
    step. *)
Record Env : Type := mkEnv {
  discovery : Result DiscoveryResponse;
  socketThrows : bool;
  random : Q
}.

(** The [data] of a [MessageEvent]. *)
Inductive MessageData : Type :=
| TextData (text : string)
| BinaryData (bytes : list byte)
| OtherData.

Definition is_str (v : JsValue) (s : string) : bool :=
  match v with
  | JStr x => String.eqb x s
  | _ => false
  end.

Module Connection.

Local Open Scope string_scope.
Local Open Scope method_scope.

Definition isPrivateToken (w : World) : bool := startsWith (appKeyOrToken w) "lspc_".
Definition isPublicKey (w : World) : bool := startsWith (appKeyOrToken w) "lspk_".
Definition isToken (w : World) : bool :=
  startsWith (appKeyOrToken w) "lspc_" || startsWith (appKeyOrToken w) "lspk_".
Definition supportsPrivateChannels (w : World) : bool := negb (isPublicKey w).

Definition getSocketId (w : World) : JsValue := socketId (conn w).
Definition getState (w : World) : ConnectionState := state (conn w).
Definition getReconnectionAttempts (w : World) : nat := reconnectAttempts (conn w).

(** ** Reconnection policy *)

Definition maxAttempts (o : LatteStreamOptions) : Q := num_or (maxReconnectionAttempts o) 6.
Definition maxGap (o : LatteStreamOptions) : Q := num_or (maxReconnectGapInSeconds o) 30.
Definition baseDelay (o : LatteStreamOptions) : Q := num_or (reconnectBaseDelay o) 1000.
Definition backoffMultiplier (o : LatteStreamOptions) : Q :=
  num_or (reconnectBackoffMultiplier o) 2.
Definition enableJitter (o : LatteStreamOptions) : bool := not_false (reconnectJitter o).

(** [Math.pow(backoffMultiplier, this.reconnectAttempts) * baseDelay] *)
Definition exponentialDelay `{Platform} (o : LatteStreamOptions) (attempts : nat) : Q :=
  Double.mul (Math_pow (backoffMultiplier o) (inject_Z (Z.of_nat attempts))) (baseDelay o).

(** [Math.min(exponentialDelay, maxGap * 1000)] *)
Definition cappedDelay `{Platform} (o : LatteStreamOptions) (attempts : nat) : Q :=
  Qmin (exponentialDelay o attempts) (Double.mul (maxGap o) 1000).

(** The delay handed to [setTimeout]; [r] is the value of [Math.random()]. *)
Definition reconnectDelay `{Platform} (o : LatteStreamOptions) (attempts : nat) (r : Q) : Q :=
  let delay := cappedDelay o attempts in
  if enableJitter o then
    let jitterRange := Double.mul delay (1 # 4) in
    let jitter := Double.mul r jitterRange in
    Double.add delay jitter
  else delay.

(** [this.reconnectAttempts >= maxAttempts] *)
Definition budgetExhausted (o : LatteStreamOptions) (attempts : nat) : bool :=
  Qle_bool (maxAttempts o) (inject_Z (Z.of_nat attempts)).

(** ** Sending *)

Definition sendRaw (data : JsValue) : M bool :=
  w <- get ;;
  match ws (conn w) with
  | None => ret false
  | Some i =>
      match nth_error (sockets (rt w)) i with
      | Some (mkSocket _ OPEN) =>
          modify_rt (fun r => set_wire (wire r ++ [(i, data)]) r) ;;
          ret true
      | _ => ret false
      end
  end.

Definition batchMessage (messages : list JsValue) : JsValue :=
  JObj [("event"%string, JStr "lattestream:batch");
        ("data"%string, JObj [("messages"%string, JArr messages)])].

Definition clearFlushTimer : M unit :=
  w <- get ;;
  match flushTimer (conn w) with
  | Some h => clearTimeout h ;; modify_conn (set_flushTimer None)
  | None => ret tt
  end.

(** [MessageQueue.flush] *)
Definition flush : M unit :=
  clearFlushTimer ;;
  w <- get ;;
  match queue (conn w) with
  | [] => ret tt
  | [message] => modify_conn (set_queue []) ;; _ <- sendRaw message ;; ret tt
  | messages => modify_conn (set_queue []) ;; _ <- sendRaw (batchMessage messages) ;; ret tt
  end.

(** [MessageQueue.enqueue] *)
Definition enqueue (message : JsValue) : M unit :=
  modify_conn (fun c => set_queue (queue c ++ [message]) c) ;;
  w <- get ;;
  if Qle_bool (num_or (batchSize (options w)) 10)
              (inject_Z (Z.of_nat (List.length (queue (conn w)))))
  then flush
  else match flushTimer (conn w) with
       | Some _ => ret tt
       | None =>
           h <- setTimeout FlushTimer (num_or (batchInterval (options w)) 16) ;;
           modify_conn (set_flushTimer (Some h))
       end.

(** [MessageQueue.clear] *)
Definition clearQueue : M unit :=
  modify_conn (set_queue []) ;; clearFlushTimer.

Definition send (data : JsValue) : M bool :=
  w <- get ;;
  match state (conn w) with
  | connected =>
      if not_false (enableBatching (options w))
      then enqueue data ;; ret true
      else sendRaw data
  | _ => ret false
  end.

(** ** Timers *)

Definition clearTimers : M unit :=
  w <- get ;;
  match reconnectTimer (conn w) with
  | Some h => clearTimeout h ;; modify_conn (set_reconnectTimer None)
  | None => ret tt
  end ;;
  match activityTimer (conn w) with
  | Some h => clearTimeout h ;; modify_conn (set_activityTimer None)
  | None => ret tt
  end ;;
  match pongTimer (conn w) with
  | Some h => clearTimeout h ;; modify_conn (set_pongTimer None)
  | None => ret tt
  end.

Definition startActivityTimer : M unit :=
  w <- get ;;
  h <- setTimeout ActivityTimer (num_or (activityTimeout (options w)) 120000) ;;
  modify_conn (set_activityTimer (Some h)).

Definition resetActivityTimer : M unit :=
  w <- get ;;
  match activityTimer (conn w) with
  | Some h => clearTimeout h
  | None => ret tt
  end ;;
  startActivityTimer.

Definition startPongTimer : M unit :=
  w <- get ;;
  h <- setTimeout PongTimer (num_or (pongTimeout (options w)) 30000) ;;
  modify_conn (set_pongTimer (Some h)).

Definition sendPing : M unit :=
  w <- get ;;
  match state (conn w) with
  | connected =>
      _ <- send (JObj [("event"%string, JStr "lattestream:ping");
                       ("data"%string, JObj [])]) ;;
      startPongTimer
  | _ => ret tt
  end.

Definition handlePong : M unit :=
  w <- get ;;
  match pongTimer (conn w) with
  | Some h => clearTimeout h ;; modify_conn (set_pongTimer None)
  | None => ret tt
  end.

(** The function returned by [debounce(() => this.attemptReconnect(), 100)]. *)
Definition debouncedReconnect : M unit :=
  w <- get ;;
  match debounceTimeout (conn w) with
  | Some h => clearTimeout h
  | None => ret tt
  end ;;
  h <- setTimeout DebounceTimer 100 ;;
  modify_conn (set_debounceTimeout (Some h)).

Definition resetReconnectionState : M unit :=
  w <- get ;;
  match reconnectAttempts (conn w) with
  | O => ret tt
  | S _ => modify_conn (set_reconnectAttempts 0)
  end.

Definition resetBackoffOnSuccess : M unit := resetReconnectionState.

(** [ws.close()] on socket [i] *)
Definition closeSocket (i : nat) : M unit :=
  modify_rt (fun r =>
    set_sockets
      (update_nth i (fun s => match readyState s with
                              | CONNECTING | OPEN => mkSocket (url s) CLOSING
                              | _ => s
                              end) (sockets r)) r).

(** [new WebSocket(url)], assigned to [this.ws]; [bindEvents] puts the
    handlers below on it. *)
Definition openSocket (u : string) : M unit :=
  w <- get ;;
  modify_rt (fun r => set_sockets (sockets r ++ [mkSocket u CONNECTING]) r) ;;
  modify_conn (set_ws (Some (List.length (sockets (rt w))))).

Definition getDefaultEndpoint (w : World) : string :=
  let c := match cluster (options w) with
           | Some c => if String.eqb c "" then "eu1" else c
           | None => "eu1"
           end in
  (c ++ ".lattestream.com")%string.

Definition getEndpoint (w : World) : string :=
  let fallback :=
    match discoveryData (conn w) with
    | Some d =>
        (discovery_cluster d ++ "-node" ++ string_of_Z (node_id d) ++ ".lattestream.com")%string
    | None =>
        match wsEndpoint (options w) with
        | Some e => if String.eqb e "" then getDefaultEndpoint w else e
        | None => getDefaultEndpoint w
        end
    end in
  match wsEndpoint (options w) with
  | Some e => if includes e "localhost" then e else fallback
  | None => fallback
  end.

Section Callbacks.

(** The three callbacks the constructor receives. *)
Variable onStateChange : ConnectionState -> ConnectionState -> M unit.
Variable onMessage : JsValue -> M unit.
Variable onError : Payload -> M unit.

Definition setState (newState : ConnectionState) : M unit :=
  w <- get ;;
  let previous := state (conn w) in
  modify_conn (set_state newState) ;;
  if ConnectionState_eqb previous newState then ret tt
  else onStateChange previous newState.

Definition handleConnectionError (error : JsError) : M unit :=
  setState failed ;; debouncedReconnect.

Definition performDiscovery (env : Env) : M unit :=
  match discovery env with
  | Ok d =>
      modify_conn (fun c => set_discoveryToken (Some (discovery_token d))
                              (set_discoveryData (Some d) c))
  | Throw e => throw e
  end.

Definition connect (env : Env) : M unit :=
  w <- get ;;
  match state (conn w) with
  | connected | connecting => ret tt
  | _ =>
      setState connecting ;;
      clearTimers ;;
      try_catch
        (w <- get ;;
         (if isPublicKey w then
            performDiscovery env ;;
            w <- get ;;
            match discoveryToken (conn w) with
            | Some t => if String.eqb t "" then throw DiscoveryTokenRequired else ret tt
            | None => throw DiscoveryTokenRequired
            end
          else ret tt) ;;
         (if negb (isToken w) then throw InvalidApiKeyFormat else ret tt) ;;
         w <- get ;;
         let protocol := if forceTLS (options w) then "wss" else "ws" in
         let endpoint := getEndpoint w in
         let u := (protocol ++ "://" ++ endpoint)%string in
         let u := match discoveryToken (conn w) with
                  | Some t => if String.eqb t "" then u
                              else (u ++ "?discovery_token=" ++ t)%string
                  | None => u
                  end in
         (if socketThrows env then throw SyntaxError else openSocket u) ;;
         startActivityTimer)
        handleConnectionError
  end.

Definition closeCurrentSocket : M unit :=
  w <- get ;;
  match ws (conn w) with
  | Some i => closeSocket i ;; modify_conn (set_ws None)
  | None => ret tt
  end.

Definition disconnect : M unit :=
  clearTimers ;;
  modify_conn (set_reconnectAttempts 0) ;;
  closeCurrentSocket ;;
  setState disconnected.

Definition forceReconnect (env : Env) : M unit :=
  clearTimers ;;
  modify_conn (set_reconnectAttempts 0) ;;
  closeCurrentSocket ;;
  setState connecting ;;
  connect env.

Context {P : Platform}.

(** The message to forward to the client, or [null]. *)
Definition handleMessage (data : MessageData) : M JsValue :=
  match data with
  | OtherData => ret JNull
  | _ =>
      try_catch
        (message <- lift (match data with
                          | BinaryData bytes => BinaryProtocol.parseBinaryMessage bytes
                          | TextData text => BinaryProtocol.parse_json text
                          | OtherData => Ok JNull
                          end) ;;
         event <- lift (get_prop message "event") ;;
         if is_str event "lattestream:connection_established" then
           d <- lift (get_prop message "data") ;;
           sid <- lift (get_prop d "socket_id") ;;
           modify_conn (set_socketId sid) ;;
           w <- get ;;
           (if isToken w && negb (ConnectionState_eqb (state (conn w)) connected)
            then setState connected else ret tt) ;;
           ret JNull
         else if is_str event "lattestream:pong" then
           handlePong ;; ret JNull
         else ret message)
        (fun _ => ret JNull)
  end.

(** [ws.onopen] *)
Definition onopen : M unit :=
  w <- get ;;
  if isToken w
  then _ <- sendRaw (JObj [("api_key"%string, JStr (appKeyOrToken w))]) ;; ret tt
  else setState connected.

(** [ws.onmessage] *)
Definition onmessage (data : MessageData) : M unit :=
  try_catch
    (parsedMessage <- handleMessage data ;;
     when (truthy parsedMessage) (onMessage parsedMessage) ;;
     resetActivityTimer)
    (fun error => onError (PError error)).

Definition handleDisconnection : M unit :=
  modify_conn (set_ws None) ;;
  clearTimers ;;
  clearQueue ;;
  w <- get ;;
  match state (conn w) with
  | connected | connecting => setState disconnected ;; debouncedReconnect
  | unavailable => debouncedReconnect
  | _ => ret tt
  end.

(** [ws.onclose] and [ws.onerror] *)
Definition onclose : M unit := handleDisconnection.
Definition onerror : M unit := onError PErrorEvent.

Definition attemptReconnect (env : Env) : M unit :=
  w <- get ;;
  if budgetExhausted (options w) (reconnectAttempts (conn w))
  then setState failed
  else
    let delay := reconnectDelay (options w) (reconnectAttempts (conn w)) (random env) in
    modify_conn (fun c => set_reconnectAttempts (S (reconnectAttempts c)) c) ;;
    w <- get ;;
    (match state (conn w) with
     | connecting => ret tt
     | _ => setState unavailable
     end) ;;
    h <- setTimeout ReconnectTimer delay ;;
    modify_conn (set_reconnectTimer (Some h)).

(** The callback of a timer that fires. *)
Definition timerCallback (k : TimerKind) (env : Env) : M unit :=
  match k with
  | ReconnectTimer => connect env
  | ActivityTimer => sendPing
  | PongTimer => disconnect
  | DebounceTimer => modify_conn (set_debounceTimeout None) ;; attemptReconnect env
  | FlushTimer => flush
  end.

End Callbacks.

End Connection.

(* ================================================================== *)
(** * client/channel.ts, with the ObjectPool of client/performance.ts *)
(* ================================================================== *)

Module Channel.

Local Open Scope string_scope.
Local Open Scope method_scope.

(** The [send] every channel is constructed with: [LatteStream.send], which
    is [Connection.send]. *)
Definition send : JsValue -> M bool := Connection.send.

Definition lookup (c : nat) (w : World) : option Channel :=
  nth_error (channelStore (cl w)) c.

Definition update (c : nat) (f : Channel -> Channel) : M unit :=
  modify_cl (fun k => set_channelStore (update_nth c f (channelStore k)) k).

(** [FastEventEmitter.emit]: the call is recorded; an exception of a listener
    is caught there and does not reach the caller. *)
Definition emit (source : option nat) (event : JsValue) (p : Payload) : M unit :=
  modify_cl (fun k => set_emitted (emitted k ++ [mkEmitted source event p]) k).

Definition isSubscribed (c : nat) (w : World) : bool :=
  match lookup c w with
  | Some ch => subscribed ch
  | None => false
  end.

Definition getType (c : nat) (w : World) : option ChannelType :=
  option_map channelType (lookup c w).

Definition subscribeFrame (ch : Channel) (extra : list (string * JsValue)) : JsValue :=
  JObj [("event", JStr "lattestream:subscribe");
        ("data", JObj (("channel", JStr (name ch)) :: extra))].

Definition unsubscribeFrame (ch : Channel) : JsValue :=
  JObj [("event", JStr "lattestream:unsubscribe");
        ("data", JObj [("channel", JStr (name ch))])].

Definition trigger (c : nat) (eventName : string) (data : JsValue) : M bool :=
  w <- get ;;
  match lookup c w with
  | None => ret false
  | Some ch =>
      if negb (subscribed ch) then ret false
      else send (JObj [("event", JStr eventName); ("data", data);
                       ("channel", JStr (name ch))])
  end.

(** [Channel.subscribe], the one of a public channel *)
Definition subscribe (c : nat) : M unit :=
  w <- get ;;
  match lookup c w with
  | None => ret tt
  | Some ch =>
      if subscribed ch then ret tt
      else _ <- send (subscribeFrame ch []) ;; ret tt
  end.

Definition unsubscribe (c : nat) : M unit :=
  w <- get ;;
  match lookup c w with
  | None => ret tt
  | Some ch =>
      if negb (subscribed ch) then ret tt
      else _ <- send (unsubscribeFrame ch) ;; update c (set_subscribed false)
  end.

Section WithPlatform.
Context {P : Platform}.

Definition parseEventData (data : JsValue) : JsValue :=
  match data with
  | JStr s =>
      let trimmed := trim s in
      if (startsWith trimmed "{" && endsWith trimmed "}")
         || (startsWith trimmed "[" && endsWith trimmed "]")
      then match JSON_parse s with
           | Some parsed => parsed
           | None => data
           end
      else data
  | _ => data
  end.

Definition parsePayload (p : Payload) : Payload :=
  match p with
  | PValue v => PValue (parseEventData v)
  | _ => p
  end.

Definition handleEvent (c : nat) (eventName : JsValue) (data : Payload) : M unit :=
  emit (Some c) eventName (parsePayload data).

Definition handleSubscriptionError (c : nat) (error : Payload) : M unit :=
  handleEvent c (JStr "lattestream:subscription_error") error.

(** [Channel.handleSubscriptionSucceeded] *)
Definition baseHandleSubscriptionSucceeded (c : nat) (data : JsValue) : M unit :=
  update c (set_subscribed true) ;;
  handleEvent c (JStr "lattestream:subscription_succeeded") (PValue data).

(** ** Private and presence channels *)

(** [PrivateChannel.subscribe] and [PresenceChannel.subscribe] up to their
    [await this.authorize(...)]: the request is in flight. *)
Definition subscribeWithAuth (c : nat) (sid : JsValue) : M unit :=
  w <- get ;;
  match lookup c w with
  | None => ret tt
  | Some ch =>
      if subscribed ch then ret tt
      else modify_cl (fun k => set_pendingAuth (pendingAuth k ++ [mkAuthRequest c sid]) k)
  end.

(** The rest of the two methods, once the request has an outcome. The client
    passes no user data, so [channel_data] is [undefined]. *)
Definition resumeSubscribe (c : nat) (outcome : Result JsValue) : M unit :=
  w <- get ;;
  match lookup c w with
  | None => ret tt
  | Some ch =>
      match outcome with
      | Ok authData =>
          match channelType ch with
          | presence =>
              _ <- send (subscribeFrame ch [("auth", authData);
                                            ("channel_data", JUndefined)]) ;;
              ret tt
          | _ => _ <- send (subscribeFrame ch [("auth", authData)]) ;; ret tt
          end
      | Throw error => handleSubscriptionError c (PError error)
      end
  end.

(** [Object.entries(v)] *)
Definition entries (v : JsValue) : Result (list (string * JsValue)) :=
  match v with
  | JUndefined | JNull => Throw TypeError
  | _ => Ok (spread v)
  end.

Definition newMember (m : PresenceMember) : M nat :=
  w <- get ;;
  modify_cl (fun k => set_memberStore (memberStore k ++ [m]) k) ;;
  ret (List.length (memberStore (cl w))).

Definition writeMember (a : nat) (m : PresenceMember) : M unit :=
  modify_cl (fun k => set_memberStore (update_nth a (fun _ => m) (memberStore k)) k).

Definition readMember (a : nat) (w : World) : PresenceMember :=
  nth a (memberStore (cl w)) (mkMember JUndefined JUndefined).

(** [ObjectPool.acquire]: [this.pool.pop() || this.factory()] *)
Definition acquire : M nat :=
  w <- get ;;
  match memberPool (cl w) with
  | a :: rest => modify_cl (set_memberPool rest) ;; ret a
  | [] => newMember (mkMember (JStr "") JUndefined)
  end.

(** [ObjectPool.release] *)
Definition release (a : nat) : M unit :=
  writeMember a (mkMember (JStr "") JUndefined) ;;
  w <- get ;;
  if (List.length (memberPool (cl w)) <? 50)%nat
  then modify_cl (fun k => set_memberPool (a :: memberPool k) k)
  else ret tt.

Definition setMember (c : nat) (key : JsValue) (a : nat) : M unit :=
  update c (fun ch => set_members (JsMap.set key a (members ch)) ch).

(** [PresenceChannel.handleSubscriptionSucceeded] *)
Definition presenceHandleSubscriptionSucceeded (c : nat) (data : JsValue) : M unit :=
  let parsedData := parseEventData data in
  (if truthy parsedData then
     pres <- lift (get_prop parsedData "presence") ;;
     if truthy pres then
       update c (set_members []) ;;
       hash <- lift (get_prop pres "hash") ;;
       es <- lift (entries hash) ;;
       forEach es (fun e =>
         a <- newMember (mkMember (JStr (fst e)) (snd e)) ;;
         setMember c (JStr (fst e)) a) ;;
       me <- lift (get_prop pres "me") ;;
       if truthy me then
         i <- lift (get_prop me "id") ;;
         update c (set_myId i)
       else ret tt
     else ret tt
   else ret tt) ;;
  baseHandleSubscriptionSucceeded c parsedData.

(** The method the object has: the presence one overrides the base one. *)
Definition handleSubscriptionSucceeded (c : nat) (data : JsValue) : M unit :=
  w <- get ;;
  match getType c w with
  | Some presence => presenceHandleSubscriptionSucceeded c data
  | _ => baseHandleSubscriptionSucceeded c data
  end.

Definition handleMemberAdded (c : nat) (member : JsValue) : M unit :=
  pooledMember <- acquire ;;
  i <- lift (get_prop member "id") ;;
  writeMember pooledMember (mkMember i JUndefined) ;;
  x <- lift (get_prop member "info") ;;
  writeMember pooledMember (mkMember i x) ;;
  setMember c i pooledMember ;;
  handleEvent c (JStr "lattestream:member_added") (PMember pooledMember (mkMember i x)).

Definition handleMemberRemoved (c : nat) (member : JsValue) : M unit :=
  i <- lift (get_prop member "id") ;;
  w <- get ;;
  match lookup c w with
  | None => ret tt
  | Some ch =>
      match JsMap.get i (members ch) with
      | Some existingMember =>
          update c (fun ch => set_members (JsMap.delete i (members ch)) ch) ;;
          handleEvent c (JStr "lattestream:member_removed")
                      (PMember existingMember (readMember existingMember w)) ;;
          release existingMember
      | None => ret tt
      end
  end.

Definition getMembers (c : nat) (w : World) : list PresenceMember :=
  match lookup c w with
  | Some ch => map (fun a => readMember a w) (JsMap.values (members ch))
  | None => []
  end.

Definition getMember (c : nat) (i : JsValue) (w : World) : option PresenceMember :=
  match lookup c w with
  | Some ch => option_map (fun a => readMember a w) (JsMap.get i (members ch))
  | None => None
  end.

Definition getMemberCount (c : nat) (w : World) : nat :=
  match lookup c w with
  | Some ch => JsMap.size (members ch)
  | None => O
  end.

End WithPlatform.

(** Every object of the pool is in the store. *)
Definition poolValid (w : World) : Prop :=
  Forall (fun a => a < List.length (memberStore (cl w))) (memberPool (cl w)).

End Channel.

(* ================================================================== *)
(** * client/auth.ts *)
(* ================================================================== *)

Definition getChannelType (channelName : string) : ChannelType :=
  if startsWith channelName "presence-" then presence
  else if startsWith channelName "private-" then private
  else public.

(* ================================================================== *)
(** * client/client.ts *)
(* ================================================================== *)

Module LatteStream.

Local Open Scope string_scope.
Local Open Scope method_scope.

Definition emptyMember : PresenceMember := mkMember (JStr "") JUndefined.

(** [new LatteStream(appKeyOrToken, options)]: an authorizer exists when
    [options.authEndpoint] is truthy; the static member pool starts with ten
    objects. *)
Definition create (key : string) (o : LatteStreamOptions) : World :=
  mkWorld key o
    (mkConnection None disconnected 0 None None None JNull None None None [] None)
    (mkRuntime [] [] 1 [])
    (mkClient
       (match authEndpoint o with
        | Some e => if String.eqb e "" then None else Some e
        | None => None
        end)
       [] []
       (repeat emptyMember 10) (rev (seq 0 10)) [] []).

Definition send : JsValue -> M bool := Connection.send.

Definition triggerGlobalEvent (event : JsValue) (data : Payload) : M unit :=
  Channel.emit None event data.

Definition handleError (error : Payload) : M unit :=
  triggerGlobalEvent (JStr "error") error.

Definition resetChannelStates : M unit :=
  w <- get ;;
  forEach (JsMap.values (channels (cl w))) (fun c =>
    w' <- get ;;
    if Channel.isSubscribed c w' then Channel.update c (set_subscribed false)
    else ret tt).

(** [subscribeChannel], up to its first [await]. *)
Definition subscribeChannel (c : nat) : M unit :=
  w <- get ;;
  let connectionState := Connection.getState w in
  let sid := Connection.getSocketId w in
  if negb (ConnectionState_eqb connectionState connected) || negb (truthy sid)
  then ret tt
  else match Channel.getType c w with
       | Some private | Some presence => Channel.subscribeWithAuth c sid
       | _ => Channel.subscribe c
       end.

Definition subscribeAllChannels : M unit :=
  w <- get ;;
  match channels (cl w) with
  | [] => ret tt
  | cs => forEach (JsMap.values cs) subscribeChannel
  end.

Definition handleConnectionStateChange (previous current : ConnectionState) : M unit :=
  match current with
  | connected => subscribeAllChannels
  | disconnected | failed => resetChannelStates
  | _ => ret tt
  end ;;
  triggerGlobalEvent (JStr "connection_state_change") (PStateChange previous current).

Definition setState := Connection.setState handleConnectionStateChange.

Definition connect (env : Env) : M unit :=
  Connection.connect handleConnectionStateChange env.

Definition attemptReconnect `{Platform} (env : Env) : M unit :=
  Connection.attemptReconnect handleConnectionStateChange env.

Definition disconnect : M unit :=
  w <- get ;;
  forEach (JsMap.values (channels (cl w))) Channel.unsubscribe ;;
  modify_cl (set_channels []) ;;
  Connection.disconnect handleConnectionStateChange.

Definition forceReconnect (env : Env) : M unit :=
  Connection.forceReconnect handleConnectionStateChange env.

Definition newChannel (ch : Channel) : M nat :=
  w <- get ;;
  modify_cl (fun k => set_channelStore (channelStore k ++ [ch]) k) ;;
  ret (List.length (channelStore (cl w))).

Definition subscribe (channelName : string) : M nat :=
  w <- get ;;
  match JsMap.get (JStr channelName) (channels (cl w)) with
  | Some c => ret c
  | None =>
      let channelType := getChannelType channelName in
      (match channelType with
       | private =>
           match authorizer (cl w) with
           | None => throw PrivateRequiresAuthEndpoint
           | Some _ => ret tt
           end
       | presence =>
           match authorizer (cl w) with
           | None => throw PresenceRequiresAuthEndpoint
           | Some _ => ret tt
           end
       | public => ret tt
       end) ;;
      c <- newChannel (mkChannel channelName channelType false [] JNull) ;;
      modify_cl (fun k => set_channels (JsMap.set (JStr channelName) c (channels k)) k) ;;
      subscribeChannel c ;;
      ret c
  end.

Definition unsubscribe (channelName : string) : M unit :=
  w <- get ;;
  match JsMap.get (JStr channelName) (channels (cl w)) with
  | Some c =>
      Channel.unsubscribe c ;;
      modify_cl (fun k => set_channels (JsMap.delete (JStr channelName) (channels k)) k)
  | None => ret tt
  end.

Definition getSocketId := Connection.getSocketId.
Definition getConnectionState := Connection.getState.
Definition getReconnectionAttempts := Connection.getReconnectionAttempts.

Section WithPlatform.
Context {P : Platform}.

Definition is_event (event : JsValue) (short : string) : bool :=
  is_str event ("lattestream:" ++ short) || is_str event ("lattestream_internal:" ++ short).

Definition handleChannelEvent (channel event data : JsValue) : M unit :=
  w <- get ;;
  match JsMap.get channel (channels (cl w)) with
  | None => ret tt
  | Some c =>
      let isPresence := match Channel.getType c w with
                        | Some presence => true
                        | _ => false
                        end in
      if is_event event "subscription_succeeded" then
        Channel.handleSubscriptionSucceeded c data ;;
        Connection.resetBackoffOnSuccess
      else if is_event event "subscription_error" then
        Channel.handleSubscriptionError c (PValue data)
      else if is_event event "member_added" && isPresence then
        Channel.handleMemberAdded c data
      else if is_event event "member_removed" && isPresence then
        Channel.handleMemberRemoved c data
      else Channel.handleEvent c event (PValue data)
  end.

Definition handleGlobalEvent (event data : JsValue) : M unit :=
  triggerGlobalEvent event (PValue (Channel.parseEventData data)).

(** [message.channel || (message.data && message.data.channel)] *)
Definition messageChannel (message : JsValue) : Result JsValue :=
  (let* top := get_prop message "channel" in
   if truthy top then Ok top
   else
     let* data := get_prop message "data" in
     if truthy data then get_prop data "channel" else Ok data)%result.

Definition handleParsedMessage (message : JsValue) : M unit :=
  channel <- lift (messageChannel message) ;;
  event <- lift (get_prop message "event") ;;
  data <- lift (get_prop message "data") ;;
  if truthy channel then handleChannelEvent channel event data
  else handleGlobalEvent event data.

Definition onopen : M unit := Connection.onopen handleConnectionStateChange.
Definition onmessage (data : MessageData) : M unit :=
  Connection.onmessage handleConnectionStateChange handleParsedMessage handleError data.
Definition onclose : M unit := Connection.onclose handleConnectionStateChange.
Definition onerror : M unit := Connection.onerror handleError.
Definition timerCallback (k : TimerKind) (env : Env) : M unit :=
  Connection.timerCallback handleConnectionStateChange k env.

End WithPlatform.

End LatteStream.

(* ================================================================== *)
(** * Executions *)
(* ================================================================== *)

(** What the application calls. *)
Inductive Call : Type :=
| CallConnect (env : Env)
| CallDisconnect
| CallSubscribe (channelName : string)
| CallUnsubscribe (channelName : string)
| CallForceReconnect (env : Env)
| CallTrigger (channel : nat) (eventName : string) (data : JsValue).

(** What happens to a client: an event of one of its sockets, a timer that
    fires, the outcome of an authorization request, or a call. *)
Inductive Event : Type :=
| SocketOpen (i : nat)
| SocketMessage (i : nat) (data : MessageData)
| SocketClose (i : nat)
| SocketError (i : nat)
| TimerFired (h : nat) (env : Env)
| AuthResolved (k : nat) (outcome : Result JsValue)
| Called (c : Call).

Definition is_call (e : Event) : bool :=
  match e with
  | Called _ => true
  | _ => false
  end.

Definition setReadyState (i : nat) (s : ReadyState) (w : World) : World :=
  set_rt (set_sockets (update_nth i (fun x => mkSocket (url x) s) (sockets (rt w))) (rt w)) w.

Definition socketState (i : nat) (w : World) : option ReadyState :=
  option_map readyState (nth_error (sockets (rt w)) i).

Definition removeTimer (h : nat) (w : World) : World :=
  set_rt (set_timers (filter (fun t => negb (Nat.eqb (handle t) h)) (timers (rt w))) (rt w)) w.

Fixpoint remove_nth {A} (n : nat) (l : list A) : list A :=
  match l, n with
  | [], _ => []
  | _ :: l', O => l'
  | x :: l', S n' => x :: remove_nth n' l'
  end.

Section Step.
Context {P : Platform}.

Definition firedKind (w : World) (h : nat) : option TimerKind :=
  option_map kind (find_timer h (timers (rt w))).


Definition call (c : Call) : M unit :=
  match c with
  | CallConnect env => LatteStream.connect env
  | CallDisconnect => LatteStream.disconnect
  | CallSubscribe n => bind (LatteStream.subscribe n) (fun _ => ret tt)
  | CallUnsubscribe n => LatteStream.unsubscribe n
  | CallForceReconnect env => LatteStream.forceReconnect env
  | CallTrigger c n d => bind (Channel.trigger c n d) (fun _ => ret tt)
  end.

(** One step of an execution; [None] when the event cannot happen in [w]. An
    exception of a call goes to the caller, the world stays as the call left
    it. *)
Definition step (w : World) (e : Event) : option World :=
  match e with
  | SocketOpen i =>
      match socketState i w with
      | Some CONNECTING => Some (exec LatteStream.onopen (setReadyState i OPEN w))
      | _ => None
      end
  | SocketMessage i data =>
      match socketState i w with
      | Some OPEN => Some (exec (LatteStream.onmessage data) w)
      | _ => None
      end
  | SocketClose i =>
      match socketState i w with
      | Some CLOSED | None => None
      | Some _ => Some (exec LatteStream.onclose (setReadyState i CLOSED w))
      end
  | SocketError i =>
      match socketState i w with
      | Some CLOSED | None => None
      | Some _ => Some (exec LatteStream.onerror w)
      end
  | TimerFired h env =>
      match firedKind w h with
      | Some k => Some (exec (LatteStream.timerCallback k env) (removeTimer h w))
      | None => None
      end
  | AuthResolved k outcome =>
      match nth_error (pendingAuth (cl w)) k with
      | Some req =>
          Some (exec (Channel.resumeSubscribe (requester req) outcome)
                     (set_cl (set_pendingAuth (remove_nth k (pendingAuth (cl w))) (cl w)) w))
      | None => None
      end
  | Called c => Some (exec (call c) w)
  end.

(** The message a frame decodes to in [Connection.handleMessage]. *)
Definition decodeFrame (data : MessageData) : Result JsValue :=
  match data with
  | BinaryData bytes => BinaryProtocol.parseBinaryMessage bytes
  | TextData text => BinaryProtocol.parse_json text
  | OtherData => Throw TypeError
  end.

(** The frame is a [subscription_succeeded] event for a channel of the map:
    the frame on which [handleChannelEvent] calls [resetBackoffOnSuccess]. *)
Definition confirmsSubscription (w : World) (data : MessageData) : bool :=
  match decodeFrame data with
  | Ok message =>
      match get_prop message "event", LatteStream.messageChannel message with
      | Ok event, Ok channel =>
          LatteStream.is_event event "subscription_succeeded"
          && JsMap.has channel (channels (cl w))
      | _, _ => false
      end
  | Throw _ => false
  end.

(** The events that can write the attempt counter: a confirmed subscription,
    [disconnect()] (called, or run by the pong timer), [forceReconnect()] and
    [attemptReconnect()] (run by the debounce timer). *)
Definition touchesCounter (w : World) (e : Event) : bool :=
  match e with
  | SocketMessage _ data => confirmsSubscription w data
  | TimerFired h _ =>
      match firedKind w h with
      | Some PongTimer | Some DebounceTimer => true
      | _ => false
      end
  | Called CallDisconnect | Called (CallForceReconnect _) => true
  | _ => false
  end.

(** The events that can set the attempt counter to zero. *)
Definition resetsCounter (w : World) (e : Event) : bool :=
  match e with
  | SocketMessage _ data => confirmsSubscription w data
  | TimerFired h _ =>
      match firedKind w h with
      | Some PongTimer => true
      | _ => false
      end
  | Called CallDisconnect | Called (CallForceReconnect _) => true
  | _ => false
  end.

(** An execution in which no event of [touchesCounter] happens. *)
Fixpoint quiet (w : World) (es : list Event) : Prop :=
  match es with
  | [] => True
  | e :: es' =>
      touchesCounter w e = false
      /\ match step w e with
         | Some w' => quiet w' es'
         | None => True
         end
  end.

Definition liveSocket (s : WebSocket) : bool :=
  match readyState s with
  | CONNECTING | OPEN => true
  | _ => false
  end.

Definition wakingTimer (t : Timer) : bool :=
  match kind t with
  | ReconnectTimer | PongTimer => true
  | _ => false
  end.

(** No socket is connecting or open, and neither a reconnect timer nor a pong
    timer is pending: the condition in which the close of a socket leaves the
    runtime once [handleDisconnection] has cleared the timers. *)
Definition idle (w : World) : bool :=
  forallb (fun s => negb (liveSocket s)) (sockets (rt w))
  && forallb (fun t => negb (wakingTimer t)) (timers (rt w)).

Definition reconnectPending (w : World) : bool :=
  existsb (fun t => match kind t with ReconnectTimer => true | _ => false end)
          (timers (rt w)).

Fixpoint run (w : World) (es : list Event) : option World :=
  match es with
  | [] => Some w
  | e :: es' =>
      match step w e with
      | Some w' => run w' es'
      | None => None
      end
  end.

End Step.

(* ================================================================== *)
(** * binary-protocol.ts: the inspection functions *)
(* ================================================================== *)

Module BinaryInspect.
Import BinaryProtocol.
Local Open Scope Z_scope.

(** [getBinaryMessageType(data)], on the bytes of its argument: [null] below
    four bytes. *)
Definition getBinaryMessageType (bytes : list byte) : option Z :=
  if len bytes <? 4 then None
  else match getUint32 bytes 0 with
       | Ok messageType => Some messageType
       | Throw _ => None
       end.

(** A value that is neither an array, an object nor a [Uint8Array]: its
    conversion to a number calls nothing that can throw. *)
Definition primitive (v : JsValue) : bool :=
  match v with
  | JArr _ | JObj _ | JBytes _ => false
  | _ => true
  end.

(** A [Uint8Array], a string, or an array of primitive values, with the
    number of its elements. *)
Definition byteSource (v : JsValue) : option Z :=
  match v with
  | JBytes bs => Some (len bs)
  | JStr s => Some (Z.of_nat (String.length s))
  | JArr items => if forallb primitive items then Some (len items) else None
  | _ => None
  end.

End BinaryInspect.

(* ================================================================== *)
(** * server/auth.ts: [ServerAuthorizer] *)
(* ================================================================== *)

Module ServerAuthorizer.
Import EncryptionHelper.
Local Open Scope string_scope.

(** The errors of [ServerAuthorizer], with the values their messages show. *)
Inductive ServerError : Type :=
| InvalidChannelName (channelName : JsValue)
| InvalidSocketId (socketId : JsValue)
| NotPresenceChannel (channelName : string)
| UserDataRequired
| UserIdRequired
| Thrown (e : JsError).

Inductive Attempt (A : Type) : Type :=
| Done (a : A)
| Failed (e : ServerError).
Arguments Done {A} a.
Arguments Failed {A} e.

(** [AuthenticationResult] *)
Record AuthenticationResult : Type := mkAuth {
  auth : string;
  channelData : option string
}.

Definition in_range (lo hi : nat) (c : ascii) : bool :=
  (lo <=? nat_of_ascii c)%nat && (nat_of_ascii c <=? hi)%nat.

(** The class [[a-zA-Z0-9_\-=@,.;]] *)
Definition is_channel_char (c : ascii) : bool :=
  in_range 97 122 c || in_range 65 90 c || in_range 48 57 c
  || Ascii.eqb c "_" || Ascii.eqb c "-" || Ascii.eqb c "=" || Ascii.eqb c "@"
  || Ascii.eqb c "," || Ascii.eqb c "." || Ascii.eqb c ";".

(** The class [[0-9a-f]] *)
Definition is_hex_char (c : ascii) : bool :=
  in_range 48 57 c || in_range 97 102 c.

(** The longest prefix in a class, and what follows it: the match of
    [[...]+] when it is not empty. *)
Fixpoint span (p : ascii -> bool) (s : string) : string * string :=
  match s with
  | String c s' =>
      if p c then let (a, r) := span p s' in (String c a, r) else (EmptyString, s)
  | EmptyString => (EmptyString, EmptyString)
  end.

(** [/^[a-zA-Z0-9_\-=@,.;]+$/.test(s)] *)
Definition validChannelPattern (s : string) : bool :=
  match span is_channel_char s with
  | (String _ _, EmptyString) => true
  | _ => false
  end.

(** [/^[0-9a-f]+\.[0-9a-f]+$/.test(s)] *)
Definition socketIdPattern (s : string) : bool :=
  match span is_hex_char s with
  | (String _ _, String "." r) =>
      match span is_hex_char r with
      | (String _ _, EmptyString) => true
      | _ => false
      end
  | _ => false
  end.

(** The two validators take what the caller hands them: a value that is not
    a string is refused. *)
Definition isValidChannelName (channelName : JsValue) : bool :=
  match channelName with
  | JStr s =>
      if String.eqb s "" then false
      else if (200 <? String.length s)%nat then false
      else validChannelPattern s
  | _ => false
  end.

Definition isValidSocketId (socketId : JsValue) : bool :=
  match socketId with
  | JStr s => if String.eqb s "" then false else socketIdPattern s
  | _ => false
  end.

(** [typeof v === 'object'] *)
Definition is_object (v : JsValue) : bool :=
  match v with
  | JNull | JArr _ | JObj _ | JBytes _ => true
  | _ => false
  end.

Section WithKey.
Context {P : Platform}.
Variable masterKey : string.

Definition authorizeChannel (socketId channelName : JsValue) : Attempt AuthenticationResult :=
  if negb (isValidChannelName channelName) then Failed (InvalidChannelName channelName)
  else if negb (isValidSocketId socketId) then Failed (InvalidSocketId socketId)
  else match socketId, channelName with
       | JStr s, JStr c => Done (mkAuth (generateAuthString masterKey s c None) None)
       | _, _ => Failed (Thrown TypeError)
       end.

(** [JSON.stringify(userData)] gives [undefined] for a value it cannot
    write; [generateAuthString] then signs without channel data. *)
Definition authorizePresenceChannel (socketId : JsValue) (channelName : string)
           (userData : JsValue) : Attempt AuthenticationResult :=
  if negb (startsWith channelName "presence-") then Failed (NotPresenceChannel channelName)
  else if negb (isValidSocketId socketId) then Failed (InvalidSocketId socketId)
  else if negb (truthy userData) || negb (is_object userData) then Failed UserDataRequired
  else match get_prop userData "user_id" with
       | Throw e => Failed (Thrown e)
       | Ok user_id =>
           if negb (truthy user_id) then Failed UserIdRequired
           else match socketId with
                | JStr s =>
                    let channelData := JSON_stringify userData in
                    Done (mkAuth (generateAuthString masterKey s channelName channelData)
                                 channelData)
                | _ => Failed (Thrown TypeError)
                end
       end.

Definition verifyChannelAuth (authString channelName : string)
           (channelData : option string) : bool :=
  verifyAuthString masterKey authString channelName channelData.

Definition generateWebhookSignature (payload : string) : string :=
  EncryptionHelper.generateWebhookSignature masterKey payload.

Definition verifyWebhookSignature (payload signature : string) : bool :=
  EncryptionHelper.verifyWebhookSignature masterKey payload signature.

End WithKey.

End ServerAuthorizer.

(* ================================================================== *)
(** * client/performance.ts: [FastEventEmitter] and [PerformanceMonitor.addMetric] *)
(* ================================================================== *)

Module FastEventEmitter.

(** A listener is a function; it is named here by a number, and two
    registrations are of the same function when the numbers are equal. What a
    listener does when it is called is its own affair: an exception it throws
    is caught by [emit], and it is taken not to call the emitter back. *)

(** [Set<Function>]: no element twice, in insertion order. *)
Definition set_has (l : nat) (s : list nat) : bool := existsb (Nat.eqb l) s.
Definition set_add (l : nat) (s : list nat) : list nat :=
  if set_has l s then s else s ++ [l].
Definition set_delete (l : nat) (s : list nat) : list nat :=
  filter (fun x => negb (Nat.eqb x l)) s.

Record Emitter : Type := mkEmitter {
  events : list (JsValue * list nat);
  onceEvents : list (JsValue * list nat)
}.

Definition empty : Emitter := mkEmitter [] [].

(** [if (!m.has(event)) m.set(event, new Set()); m.get(event)!.add(listener)] *)
Definition register (event : JsValue) (listener : nat) (m : list (JsValue * list nat))
  : list (JsValue * list nat) :=
  let m1 := if JsMap.has event m then m else JsMap.set event [] m in
  match JsMap.get event m1 with
  | Some s => JsMap.set event (set_add listener s) m1
  | None => m1
  end.

(** [m.get(event)?.delete(listener)] *)
Definition unregister (event : JsValue) (listener : nat) (m : list (JsValue * list nat))
  : list (JsValue * list nat) :=
  match JsMap.get event m with
  | Some s => JsMap.set event (set_delete listener s) m
  | None => m
  end.

Definition on (event : string) (listener : nat) (e : Emitter) : Emitter :=
  mkEmitter (register (JStr event) listener (events e)) (onceEvents e).

Definition once (event : string) (listener : nat) (e : Emitter) : Emitter :=
  mkEmitter (events e) (register (JStr event) listener (onceEvents e)).

Definition off (event : string) (listener : option nat) (e : Emitter) : Emitter :=
  match listener with
  | None =>
      mkEmitter (JsMap.delete (JStr event) (events e))
                (JsMap.delete (JStr event) (onceEvents e))
  | Some l =>
      mkEmitter (unregister (JStr event) l (events e))
                (unregister (JStr event) l (onceEvents e))
  end.

Definition listeners (event : JsValue) (m : list (JsValue * list nat)) : list nat :=
  match JsMap.get event m with
  | Some s => s
  | None => []
  end.

(** [emit(event, ...args)]: the listeners it calls, in the order of the
    calls, and the emitter it leaves. *)
Definition emit (event : string) (e : Emitter) : list nat * Emitter :=
  (listeners (JStr event) (events e) ++ listeners (JStr event) (onceEvents e),
   mkEmitter (events e) (JsMap.delete (JStr event) (onceEvents e))).

End FastEventEmitter.

Module PerformanceMonitor.

(** [metrics] is the [Map] from a label to its samples, which are numbers. *)
Definition maxSamples : nat := 100.

Definition addMetric (label : string) (value : Q) (metrics : list (JsValue * list Q))
  : list (JsValue * list Q) :=
  let metrics1 :=
    if JsMap.has (JStr label) metrics then metrics else JsMap.set (JStr label) [] metrics in
  match JsMap.get (JStr label) metrics1 with
  | Some samples =>
      let pushed := samples ++ [value] in
      JsMap.set (JStr label)
                (if (maxSamples <? List.length pushed)%nat then tl pushed else pushed)
                metrics1
  | None => metrics1
  end.

End PerformanceMonitor.

(* ================================================================== *)
(** * client/discovery.ts and the [Authorizer] of client/auth.ts *)
(* ================================================================== *)

(** What one request gives: [fetch] rejects, or the response is not [ok],
    or it is [ok] and [response.json()] returns a value or throws. *)
Inductive Fetched : Type :=
| FetchRejected
| FetchStatus (status : Z)
| FetchBody (data : Result JsValue).

Module DiscoveryService.

Record DiscoveryOptions : Type := mkDiscoveryOptions {
  maxAttempts : option nat;
  baseDelay : option Q;
  backoffMultiplier : option Q;
  enableJitter : option bool
}.

(** [options.maxAttempts || 3] *)
Definition attemptLimit (o : DiscoveryOptions) : nat :=
  match maxAttempts o with
  | Some (S n) => S n
  | _ => 3
  end.

(** The body of the [try]: the data of a response that is [ok], is JSON and
    has a truthy [discovery_token]; anything else throws and is caught. *)
Definition accepted (f : Fetched) : option JsValue :=
  match f with
  | FetchBody (Ok data) =>
      match get_prop data "discovery_token" with
      | Ok token => if truthy token then Some data else None
      | Throw _ => None
      end
  | _ => None
  end.

(** The delay before the next request, [attempts] requests having failed;
    [r] is the value of [Math.random()]. *)
Definition retryDelay `{Platform} (o : DiscoveryOptions) (attempts : nat) (r : Q) : Q :=
  let exponentialDelay :=
    Double.mul (Math_pow (num_or (backoffMultiplier o) 2)
                         (inject_Z (Z.of_nat attempts) - 1))
               (num_or (baseDelay o) 1000) in
  if not_false (enableJitter o) then
    let jitterRange := Double.mul exponentialDelay (1 # 4) in
    let jitter := Double.mul r jitterRange in
    Double.add exponentialDelay jitter
  else exponentialDelay.

Section Discover.
Context {P : Platform}.
Variable o : DiscoveryOptions.
(** The outcome of the request made after [n] failures, and the value of
    [Math.random()] after the failure number [n]. *)
Variable fetches : nat -> Fetched.
Variable randoms : nat -> Q.

(** The [while] loop: what [discover] returns or throws, and the delays it
    slept. The loop ends within [attemptLimit] rounds, which is the fuel
    [discover] gives it; out of fuel is the exit of the [while]. *)
Fixpoint attemptLoop (fuel attempts : nat) : Result JsValue * list Q :=
  match fuel with
  | O => (Throw DiscoveryFailed, [])
  | S fuel' =>
      if (attempts <? attemptLimit o)%nat then
        match accepted (fetches attempts) with
        | Some data => (Ok data, [])
        | None =>
            let attempts := S attempts in
            if (attemptLimit o <=? attempts)%nat then (Throw DiscoveryFailed, [])
            else
              let delay := retryDelay o attempts (randoms attempts) in
              let (r, delays) := attemptLoop fuel' attempts in
              (r, delay :: delays)
        end
      else (Throw DiscoveryFailed, [])
  end.

Definition discover : Result JsValue * list Q := attemptLoop (attemptLimit o) 0.

End Discover.

End DiscoveryService.

Module Authorizer.

Local Open Scope string_scope.

(** [authorize], from the outcome of its request on. Every failure leaves as
    a "Channel authorization failed" error. *)
Definition authorize (response : Fetched) : Result JsValue :=
  match response with
  | FetchBody (Ok authResponse) =>
      match get_prop authResponse "auth", get_prop authResponse "channel_data" with
      | Ok a, Ok channel_data =>
          if truthy a then Ok (JObj [("auth", a); ("channel_data", channel_data)])
          else Throw AuthorizationFailed
      | _, _ => Throw AuthorizationFailed
      end
  | _ => Throw AuthorizationFailed
  end.

End Authorizer.

(* ================================================================== *)
(** * Example data *)
(* ================================================================== *)

(** JSON texts are written with ['] where the text has a double quote. *)
Fixpoint json_text (s : string) : string :=
  match s with
  | EmptyString => EmptyString
  | String c s' =>
      String (if Ascii.eqb c "'" then RefPlatform.dquote else c) (json_text s')
  end.

Module CodecExamples.
Import BinaryProtocol.

(** The message of the binary-parsing test utility, and Scenario D: a type
    0x02 frame that declares 20 bytes of metadata and carries 15. *)
Definition testMessage : JsValue :=
  JObj [("event"%string, JStr "test-event"); ("data"%string, JStr "hello world")].

Definition testMetadata : JsValue :=
  JObj [("event"%string, JStr "binary-data"); ("channel"%string, JStr "test")].

Definition hello : list byte := [x48; x65; x6c; x6c; x6f].

Definition scenarioD : list byte :=
  setUint32 2 ++ setUint32 19 ++ setUint32 20
  ++ RefPlatform.encode (json_text "{'event':'binar").

End CodecExamples.

(** Clients and executions used in the examples. *)
Module ClientExamples.

Local Open Scope string_scope.

Definition env0 : Env := mkEnv (Throw DiscoveryFailed) false (1 # 2).

(** Scenario C: three attempts, base delay 1000 ms, multiplier 2, no jitter. *)
Definition optionsC : LatteStreamOptions :=
  mkOptions None None None false None None None
            (Some 3%Q) None (Some 1000%Q) (Some 2%Q) (Some false) None None.

Definition clientC : World := LatteStream.create "lspc_demo" optionsC.

(** The transport closes after every connection attempt. *)
Definition scenarioC : list Event :=
  [Called (CallConnect env0); SocketClose 0; TimerFired 2 env0;
   TimerFired 3 env0; SocketClose 1; TimerFired 5 env0;
   TimerFired 6 env0; SocketClose 2; TimerFired 8 env0;
   TimerFired 9 env0; SocketClose 3].

(** Scenario E: one attempt allowed. The application calls [connect()]
    while the debounced reconnect after the second close is pending. *)
Definition optionsE : LatteStreamOptions :=
  mkOptions None None None false None None None
            (Some 1%Q) None None None (Some false) None None.

Definition clientE : World := LatteStream.create "lspc_demo" optionsE.

Definition scenarioE : list Event :=
  [Called (CallConnect env0); SocketClose 0; TimerFired 2 env0;
   TimerFired 3 env0; SocketClose 1; Called (CallConnect env0)].

Definition after `{Platform} (w : World) (es : list Event) : World :=
  match run w es with
  | Some w' => w'
  | None => w
  end.

Definition established : MessageData :=
  TextData (json_text "{'event':'lattestream:connection_established','data':{'socket_id':'1234.5678'}}").

Definition subscribed_news : MessageData :=
  TextData (json_text "{'event':'lattestream:subscription_succeeded','channel':'news'}").

(** A client with default options and no [authEndpoint] that subscribes to
    the public channel ["news"], connects, and is confirmed. *)
Definition clientB : World := LatteStream.create "lspc_demo" defaultOptions.

Definition scenarioB : list Event :=
  [Called (CallSubscribe "news"); Called (CallConnect env0); SocketOpen 0;
   SocketMessage 0 established; TimerFired 2 env0; SocketMessage 0 subscribed_news].

Definition typing : JsValue := JObj [("user", JStr "john")].

(** A client with an authorizer and a presence channel. *)
Definition optionsA : LatteStreamOptions :=
  mkOptions (Some "/auth") None None false None None None
            None None None None None None None.

Definition clientA : World := LatteStream.create "lspc_demo" optionsA.

Definition room : Channel := mkChannel "presence-room" presence false [] JNull.

Definition member (i : string) (x : JsValue) : JsValue :=
  JObj [("id", JStr i); ("info", x)].

End ClientExamples.

(* ================================================================== *)
(** * Predicates on worlds and methods *)
(* ================================================================== *)

Module Predicates.
Import Connection.

(** The reconnection attempt counter. *)
Definition attempts (w : World) : nat := reconnectAttempts (conn w).

(** [m] leaves the part [proj] of the world as it finds it. *)
Definition keeps {X} (proj : World -> X) {A} (m : M A) : Prop :=
  forall w, proj (snd (m w)) = proj w.

(** [m], run on [w], leaves the attempt counter as it is. *)
Definition keeps_at {A} (w : World) (m : M A) : Prop :=
  attempts (snd (m w)) = attempts w.

(** [m] keeps the invariant [I]; [m], run on [w], ends in [I]. *)
Definition pres (I : World -> Prop) {A} (m : M A) : Prop :=
  forall w, I w -> I (snd (m w)).

Definition pres_on (I : World -> Prop) {A} (w : World) (m : M A) : Prop :=
  I (snd (m w)).

(** [m] does not throw. *)
Definition returns {A} (m : M A) : Prop := forall w, exists x, fst (m w) = Ok x.

(** The connection has given up: it is failed with its budget used up, the
    runtime is idle and holds [n] sockets, the counter is [a]. *)
Definition gaveUp (n a : nat) (w : World) : Prop :=
  state (conn w) = failed
  /\ budgetExhausted (options w) (reconnectAttempts (conn w)) = true
  /\ idle w = true
  /\ List.length (sockets (rt w)) = n
  /\ reconnectAttempts (conn w) = a.

(** A client without an authorizer whose channel map holds public names only *)
Definition publicKey (k : JsValue) : Prop :=
  exists n, k = JStr n /\ getChannelType n = public.

Definition registry (w : World) : option string * list (JsValue * nat) :=
  (authorizer (cl w), channels (cl w)).

Definition publicOnly (w : World) : Prop :=
  authorizer (cl w) = None /\ Forall (fun e => publicKey (fst e)) (channels (cl w)).

(** The object [acquire] hands out, the store and the pool it leaves. *)
Definition acquired (w : World) : nat * list PresenceMember * list nat :=
  match memberPool (cl w) with
  | a :: rest => (a, memberStore (cl w), rest)
  | [] => (List.length (memberStore (cl w)),
           memberStore (cl w) ++ [mkMember (JStr ""%string) JUndefined], [])
  end.

End Predicates.

(* ================================================================== *)
(** * Predicates on presence data *)
(* ================================================================== *)

Module PresencePredicates.

(** The entries of a presence hash as member objects, and the addresses the
    objects get when they are created one after the other from [n] on. *)
Definition hashMember (e : string * JsValue) : PresenceMember :=
  mkMember (JStr (fst e)) (snd e).

Fixpoint numbered (n : nat) (es : list (string * JsValue)) : list (JsValue * nat) :=
  match es with
  | [] => []
  | e :: es' => (JStr (fst e), n) :: numbered (S n) es'
  end.

(** The socket of the connection is open. *)
Definition socketOpen (w : World) : bool :=
  match ws (conn w) with
  | Some i =>
      match socketState i w with
      | Some OPEN => true
      | _ => false
      end
  | None => false
  end.

End PresencePredicates.

(* ================================================================== *)
(** * Further example data *)
(* ================================================================== *)

Module MoreExamples.
Import BinaryProtocol CodecExamples ClientExamples.
Local Open Scope string_scope.

(** The message of the test utility as a type 0x01 frame, and the same
    payload under the type named compressed. *)
Definition testPayload : list byte :=
  RefPlatform.encode (json_text "{'event':'test-event','data':'hello world'}").

Definition jsonFrame : list byte :=
  setUint32 1 ++ setUint32 (len testPayload) ++ testPayload.

Definition compressedFrame : list byte :=
  setUint32 3 ++ setUint32 (len testPayload) ++ testPayload.

(** A connected client with two messages in its queue. *)
Definition queued `{Platform} : World :=
  after clientB (scenarioB ++ [Called (CallTrigger 0 "client-typing" typing);
                               Called (CallTrigger 0 "client-stopped" typing)])%list.

(** A client whose presence channel ["presence-room"] is channel object 0,
    and the same with the member ["u1"]. *)
Definition inRoom `{Platform} : World :=
  after clientA [Called (CallSubscribe "presence-room")].

Definition withMember `{Platform} : World :=
  exec (Channel.handleMemberAdded 0 (member "u1" (JStr "first"))) inRoom.

Definition presenceData : list (string * JsValue) :=
  [("presence",
    JObj [("count", JNum 2);
          ("hash", JObj [("u1", JObj [("name", JStr "Ann")]);
                         ("u2", JObj [("name", JStr "Bob")])])])].

(** A client whose private channel ["private-orders"] is channel object 0. *)
Definition withPrivate `{Platform} : World :=
  after clientA [Called (CallSubscribe "private-orders")].

(** An emitter with listeners 1 and 3 registered with [on] and listener 2
    with [once]. *)
Definition someEmitter : FastEventEmitter.Emitter :=
  FastEventEmitter.once "message" 2
    (FastEventEmitter.on "message" 1
       (FastEventEmitter.on "other" 3 FastEventEmitter.empty)).

(** Discovery that is refused twice and then answered. *)
Definition discoveryAnswer : JsValue :=
  JObj [("discovery_token", JStr "tok"); ("cluster", JStr "eu1"); ("node_id", JNum 7)].

Definition thirdTime (n : nat) : Fetched :=
  match n with
  | 0 | 1 => FetchStatus 503
  | _ => FetchBody (Ok discoveryAnswer)
  end.

Definition plainRetries : DiscoveryService.DiscoveryOptions :=
  DiscoveryService.mkDiscoveryOptions None None None (Some false).

End MoreExamples.

(* ================================================================== *)
(** * Properties *)
(* ================================================================== *)

Module BinaryProtocolFacts.
Import BinaryProtocol.
Local Open Scope Z_scope.

Lemma byte_to_Z_of_Z (z : Z) : byte_to_Z (byte_of_Z z) = z mod 256.
Proof.
  unfold byte_to_Z, byte_of_Z.
  assert (Hb : 0 <= z mod 256 < 256) by (apply Z.mod_pos_bound; lia).
  destruct (Byte.of_N (Z.to_N (z mod 256))) as [b|] eqn:E.
  - apply Byte.to_of_N in E. rewrite E. lia.
  - apply Byte.of_N_None_iff in E. lia.
Qed.

Lemma byte_to_Z_range (b : byte) : 0 <= byte_to_Z b < 256.
Proof.
  unfold byte_to_Z. pose proof (Byte.to_N_bounded b). lia.
Qed.

Lemma getUint32_setUint32 (v : Z) (rest : list byte) :
  getUint32 (setUint32 v ++ rest) 0 = Ok (v mod 4294967296).
Proof.
  unfold getUint32, setUint32. cbn [skipn app].
  rewrite !byte_to_Z_of_Z. f_equal.
  assert (Hb : 0 <= v mod 4294967296 < 4294967296) by (apply Z.mod_pos_bound; lia).
  generalize dependent (v mod 4294967296). intros w Hw.
  Z.to_euclidean_division_equations. lia.
Qed.

Lemma getUint32_skip (pre rest : list byte) (n : nat) :
  List.length pre = n -> getUint32 (pre ++ rest) n = getUint32 rest 0.
Proof.
  intros <-. unfold getUint32. rewrite skipn_app, skipn_all, Nat.sub_diag. reflexivity.
Qed.

Lemma length_setUint32 (v : Z) : List.length (setUint32 v) = 4%nat.
Proof. reflexivity. Qed.

Lemma getUint32_total (bs : list byte) (off : nat) :
  Z.of_nat off + 4 <= len bs -> exists v, getUint32 bs off = Ok v /\ 0 <= v < 4294967296.
Proof.
  unfold len, getUint32. intros H.
  assert (Hl : (4 <= List.length (skipn off bs))%nat) by (rewrite length_skipn; lia).
  destruct (skipn off bs) as [|b0 [|b1 [|b2 [|b3 r]]]]; cbn in Hl; try lia.
  eexists. split; [reflexivity|].
  pose proof (byte_to_Z_range b0). pose proof (byte_to_Z_range b1).
  pose proof (byte_to_Z_range b2). pose proof (byte_to_Z_range b3). lia.
Qed.

Lemma len_app {A} (a b : list A) : len (a ++ b) = len a + len b.
Proof. unfold len. rewrite length_app. lia. Qed.

Lemma len_setUint32 (v : Z) : len (setUint32 v) = 4.
Proof. reflexivity. Qed.

Lemma len_nonneg {A} (a : list A) : 0 <= len a.
Proof. unfold len. lia. Qed.

Lemma slice_prefix {A} (pre mid post : list A) (n : Z) :
  len pre = n -> slice (pre ++ mid ++ post) n (n + len mid) = mid.
Proof.
  intros <-. unfold slice, len.
  replace (Z.to_nat (Z.of_nat (List.length pre) + Z.of_nat (List.length mid)
                     - Z.of_nat (List.length pre))) with (List.length mid) by lia.
  rewrite Nat2Z.id, skipn_app, skipn_all, Nat.sub_diag. cbn [skipn app].
  rewrite firstn_app, firstn_all, Nat.sub_diag. cbn. apply app_nil_r.
Qed.

Lemma slice_from_prefix {A} (pre post : list A) (n : Z) :
  len pre = n -> slice_from (pre ++ post) n = post.
Proof.
  intros <-. unfold slice_from, len.
  rewrite Nat2Z.id, skipn_app, skipn_all, Nat.sub_diag. reflexivity.
Qed.

Section Frames.
Context {P : Platform}.

(** A frame built from a header and a payload of the declared length reaches
    the dispatch on its message type. *)
Lemma parse_frame (ty : Z) (payload : list byte) :
  0 <= ty < 4294967296 -> 0 < len payload < 4294967296 ->
  parseLatteStreamBinaryProtocol (setUint32 ty ++ setUint32 (len payload) ++ payload)
  = rethrow
      (match ty with
       | 1 => parse_json (TextDecoder_decode payload)
       | 2 => parseBinaryPayloadWithMetadata payload
       | 3 => parseCompressedPayload payload
       | _ =>
           if Z.of_nat (String.length (trim (TextDecoder_decode payload))) =? 0
           then Throw (UnknownTypeEmptyPayload ty)
           else parse_json (TextDecoder_decode payload)
       end)
      (FailedToParseMessageType ty).
Proof.
  intros Hty Hlen. unfold parseLatteStreamBinaryProtocol.
  assert (Hl : len (setUint32 ty ++ setUint32 (len payload) ++ payload) = 8 + len payload).
  { rewrite !len_app. unfold len at 1 2. rewrite !length_setUint32. lia. }
  rewrite Hl.
  destruct (Z.ltb_spec (8 + len payload) 8) as [|_]; [lia|].
  rewrite getUint32_setUint32, Z.mod_small by lia. cbn [rbind].
  rewrite (getUint32_skip _ _ (length_setUint32 ty)).
  rewrite getUint32_setUint32, Z.mod_small by lia. cbn [rbind].
  destruct (Z.ltb_spec (8 + len payload) (8 + len payload)) as [|_]; [lia|].
  destruct (Z.eqb_spec (len payload) 0) as [|_]; [lia|].
  replace (setUint32 ty ++ setUint32 (len payload) ++ payload)
    with ((setUint32 ty ++ setUint32 (len payload)) ++ payload ++ [])
    by (rewrite app_nil_r, app_assoc; reflexivity).
  rewrite slice_prefix by (unfold len; rewrite length_app, !length_setUint32; reflexivity).
  reflexivity.
Qed.

Lemma parse_metadata_payload (metadataBytes data : list byte) (m : JsValue) :
  0 < len metadataBytes < 4294967296 ->
  JSON_parse (TextDecoder_decode metadataBytes) = Some m ->
  parseBinaryPayloadWithMetadata (setUint32 (len metadataBytes) ++ metadataBytes ++ data)
  = Ok (JObj (set_field "binaryData" (JBytes data) (spread m))).
Proof.
  intros Hlen Hm. unfold parseBinaryPayloadWithMetadata.
  assert (Hl : len (setUint32 (len metadataBytes) ++ metadataBytes ++ data)
               = 4 + len metadataBytes + len data).
  { rewrite !len_app. unfold len at 1. rewrite length_setUint32. lia. }
  rewrite Hl. pose proof (len_nonneg data).
  destruct (Z.ltb_spec (4 + len metadataBytes + len data) 4) as [|_]; [lia|].
  rewrite getUint32_setUint32, Z.mod_small by lia. cbn [rbind].
  destruct (Z.ltb_spec (4 + len metadataBytes + len data) (4 + len metadataBytes))
    as [|_]; [lia|].
  destruct (Z.eqb_spec (len metadataBytes) 0) as [|_]; [lia|].
  rewrite slice_prefix by reflexivity.
  unfold parse_json. rewrite Hm. cbn [rbind rethrow].
  rewrite app_assoc, slice_from_prefix; [reflexivity|].
  rewrite len_app. unfold len at 1. rewrite length_setUint32. lia.
Qed.

Lemma roundtrip_nonempty (s : string) (v : JsValue) :
  JSON_parse (TextDecoder_decode (TextEncoder_encode s)) = Some v ->
  0 < len (TextEncoder_encode s).
Proof.
  intros H. destruct (TextEncoder_encode s) eqn:E.
  - rewrite JSON_parse_empty in H. discriminate.
  - unfold len. cbn. lia.
Qed.

End Frames.

Lemma len_slice {A} (l : list A) (start stop : Z) :
  0 <= start <= stop -> stop <= len l -> len (slice l start stop) = stop - start.
Proof.
  unfold len, slice. intros H1 H2. rewrite length_firstn, length_skipn. lia.
Qed.

Lemma getUint32_slice (bs : list byte) (start stop : Z) :
  0 <= start -> start + 4 <= stop ->
  getUint32 (slice bs start stop) 0 = getUint32 bs (Z.to_nat start).
Proof.
  intros H1 H2. unfold getUint32, slice. cbn [skipn].
  destruct (Z.to_nat (stop - start)) as [|[|[|[|k]]]] eqn:E; try lia.
  destruct (skipn (Z.to_nat start) bs) as [|b0 [|b1 [|b2 [|b3 r]]]]; reflexivity.
Qed.

Section Claims.
Context {P : Platform}.

Lemma len_repeat (b : byte) (n : nat) : len (repeat b n) = Z.of_nat n.
Proof. unfold len. rewrite repeat_length. reflexivity. Qed.

(** Writing [bs] into the zeros that follow [pre]. *)
Lemma set_bytes_fill (pre bs : list byte) (k : nat) :
  Uint8Array_set (pre ++ repeat x00 (List.length bs + k)) (JBytes bs) (len pre)
  = Ok ((pre ++ bs) ++ repeat x00 k).
Proof.
  unfold Uint8Array_set.
  rewrite len_app, len_repeat.
  destruct (Z.ltb_spec (len pre + Z.of_nat (List.length bs + k)) (len bs + len pre)) as [H|_].
  { unfold len in H. lia. }
  f_equal. unfold len. rewrite Nat2Z.id.
  rewrite firstn_app, firstn_all, Nat.sub_diag, firstn_O, app_nil_r.
  rewrite <- Nat2Z.inj_add, Nat2Z.id.
  rewrite skipn_app, skipn_all2 by lia.
  replace (List.length pre + List.length bs - List.length pre)%nat with (List.length bs) by lia.
  rewrite repeat_app, skipn_app, skipn_all2 by (rewrite repeat_length; lia).
  rewrite repeat_length, Nat.sub_diag. cbn [skipn app]. rewrite <- app_assoc. reflexivity.
Qed.

(** The payload of a type 0x02 message whose [binaryData] has the length
    and the bytes of [bs]. *)
Lemma payload_bytes (mb bs : list byte) (source : JsValue) :
  4 + len mb + len bs <= 9007199254740991 ->
  plus (4 + len mb) (length_of source) = Ok (SumInt (4 + len mb + len bs)) ->
  (forall t off, Uint8Array_set t source off = Uint8Array_set t (JBytes bs) off) ->
  (let* size := plus (4 + len mb) (length_of source) in
   let* t := Uint8Array_new size in
   let* t := Uint8Array_set t (JBytes (setUint32 (len mb))) 0 in
   let* t := Uint8Array_set t (JBytes mb) 4 in
   Uint8Array_set t source (4 + len mb))%result
  = Ok (setUint32 (len mb) ++ mb ++ bs).
Proof.
  intros H Hsize Hset. pose proof (len_nonneg mb). pose proof (len_nonneg bs).
  rewrite Hsize. cbn [rbind]. unfold Uint8Array_new, ToIndex, indexOfInteger.
  destruct (Z.ltb_spec (4 + len mb + len bs) 0) as [|_]; [lia|].
  destruct (Z.ltb_spec 9007199254740991 (4 + len mb + len bs)) as [|_]; [lia|].
  cbn [orb rbind].
  replace (Z.to_nat (4 + len mb + len bs))
    with (List.length (setUint32 (len mb)) + (List.length mb + List.length bs))%nat
    by (rewrite length_setUint32; unfold len; lia).
  pose proof (set_bytes_fill [] (setUint32 (len mb)) (List.length mb + List.length bs)) as E.
  cbn [app] in E. change (len (@nil byte)) with 0 in E. rewrite E. clear E.
  cbn [rbind].
  change 4 with (len (setUint32 (len mb))) at 1.
  rewrite (set_bytes_fill (setUint32 (len mb)) mb (List.length bs)). cbn [rbind].
  rewrite Hset.
  replace (4 + len mb) with (len (setUint32 (len mb) ++ mb))
    by (rewrite len_app, len_setUint32; reflexivity).
  rewrite <- (Nat.add_0_r (List.length bs)).
  rewrite (set_bytes_fill (setUint32 (len mb) ++ mb) bs 0).
  cbn [repeat]. rewrite app_nil_r, <- app_assoc. reflexivity.
Qed.

Lemma binaryData_bytes (mb b : list byte) :
  4 + len mb + len b <= 9007199254740991 ->
  (let* size := plus (4 + len mb) (length_of (JBytes b)) in
   let* t := Uint8Array_new size in
   let* t := Uint8Array_set t (JBytes (setUint32 (len mb))) 0 in
   let* t := Uint8Array_set t (JBytes mb) 4 in
   Uint8Array_set t (JBytes b) (4 + len mb))%result
  = Ok (setUint32 (len mb) ++ mb ++ b).
Proof. intros H. apply payload_bytes; [exact H | reflexivity | reflexivity]. Qed.

(** C3 (as amended). Encoding then decoding a type 0x01 message gives back the
    payload. For type 0x02 the decoder does not give back the input
    [{metadata: m, binaryData: b}]: it gives the object [{...m, binaryData: b}],
    the fields of the metadata followed by the tail bytes, unchanged. A value
    is JSON-serializable when the platform reads its JSON text back to it. *)
Theorem binary_roundtrip :
  (forall (p : JsValue) (s : string),
      JSON_stringify p = Some s ->
      JSON_parse (TextDecoder_decode (TextEncoder_encode s)) = Some p ->
      len (TextEncoder_encode s) < 4294967296 ->
      rbind (createBinaryMessage 1 p) parseLatteStreamBinaryProtocol = Ok p)
  /\
  (forall (m : JsValue) (b : list byte) (s : string),
      truthy m = true ->
      JSON_stringify m = Some s ->
      JSON_parse (TextDecoder_decode (TextEncoder_encode s)) = Some m ->
      4 + len (TextEncoder_encode s) + len b < 4294967296 ->
      rbind (createBinaryMessage 2 (JObj [("metadata"%string, m);
                                          ("binaryData"%string, JBytes b)]))
            parseLatteStreamBinaryProtocol
      = Ok (JObj (set_field "binaryData" (JBytes b) (spread m)))).
Proof.
  split.
  - intros p s Hs Hp Hlen. pose proof (roundtrip_nonempty _ Hp) as Hpos.
    unfold createBinaryMessage, encode_json. rewrite Hs. cbn [rbind].
    rewrite parse_frame by lia. unfold parse_json. rewrite Hp. reflexivity.
  - intros m b s Hm Hs Hp Hlen. pose proof (roundtrip_nonempty _ Hp) as Hpos.
    pose proof (len_nonneg b) as Hb.
    unfold createBinaryMessage, encode_json.
    change (get_prop (JObj [("metadata"%string, m); ("binaryData"%string, JBytes b)])
              "binaryData") with (Ok (JBytes b)).
    change (get_prop (JObj [("metadata"%string, m); ("binaryData"%string, JBytes b)])
              "metadata") with (Ok m).
    cbn [rbind truthy]. rewrite Hm, Hs. cbn [negb orb rbind].
    rewrite binaryData_bytes by lia. cbn [rbind].
    rewrite parse_frame.
    + rewrite parse_metadata_payload with (m := m) by (try lia; assumption). reflexivity.
    + lia.
    + rewrite !len_app, len_setUint32. lia.
Qed.

(** C4. A frame whose declared payload length exceeds the bytes that follow
    the 8-byte header, or is zero, is rejected with an error and no data; a
    type 0x02 payload whose declared metadata length exceeds the bytes present
    is rejected with the truncation error, before any JSON is read. *)
Theorem truncated_frame_rejected (bytes : list byte) :
  (forall payloadLength,
      8 <= len bytes -> getUint32 bytes 4 = Ok payloadLength ->
      len bytes - 8 < payloadLength ->
      parseLatteStreamBinaryProtocol bytes
      = Throw (PayloadTruncated (8 + payloadLength) (len bytes)))
  /\
  (8 <= len bytes -> getUint32 bytes 4 = Ok 0 ->
   parseLatteStreamBinaryProtocol bytes = Throw ZeroPayloadLength)
  /\
  (forall payloadLength metadataLength,
      getUint32 bytes 0 = Ok 2 -> getUint32 bytes 4 = Ok payloadLength ->
      4 <= payloadLength <= len bytes - 8 ->
      getUint32 bytes 8 = Ok metadataLength ->
      payloadLength - 4 < metadataLength ->
      parseLatteStreamBinaryProtocol bytes
      = Throw (FailedToParseMessageType 2
                 (MetadataTruncated (4 + metadataLength) payloadLength))).
Proof.
  split; [|split].
  - intros pl Hlen Hpl Hshort. unfold parseLatteStreamBinaryProtocol.
    destruct (Z.ltb_spec (len bytes) 8) as [|_]; [lia|].
    destruct (getUint32_total bytes 0 ltac:(cbn; lia)) as [ty [-> _]].
    rewrite Hpl. cbn [rbind].
    destruct (Z.ltb_spec (len bytes) (8 + pl)) as [_|]; [reflexivity|lia].
  - intros Hlen Hpl. unfold parseLatteStreamBinaryProtocol.
    destruct (Z.ltb_spec (len bytes) 8) as [|_]; [lia|].
    destruct (getUint32_total bytes 0 ltac:(cbn; lia)) as [ty [-> _]].
    rewrite Hpl. cbn [rbind].
    destruct (Z.ltb_spec (len bytes) (8 + 0)) as [|_]; [lia|]. reflexivity.
  - intros pl ml Hty Hpl Hrange Hml Hshort. unfold parseLatteStreamBinaryProtocol.
    destruct (Z.ltb_spec (len bytes) 8) as [|_]; [lia|].
    rewrite Hty, Hpl. cbn [rbind].
    destruct (Z.ltb_spec (len bytes) (8 + pl)) as [|_]; [lia|].
    destruct (Z.eqb_spec pl 0) as [|_]; [lia|].
    unfold parseBinaryPayloadWithMetadata.
    rewrite len_slice by lia. replace (8 + pl - 8) with pl by lia.
    destruct (Z.ltb_spec pl 4) as [|_]; [lia|].
    rewrite getUint32_slice by lia. change (Z.to_nat 8) with 8%nat.
    rewrite Hml. cbn [rbind].
    destruct (Z.ltb_spec pl (4 + ml)) as [_|]; [reflexivity|lia].
Qed.

End Claims.

#[local] Existing Instance RefPlatform.platform.
Import CodecExamples.

Lemma binary_roundtrip_witness :
  rbind (createBinaryMessage (P := RefPlatform.platform) 1 testMessage)
        parseLatteStreamBinaryProtocol = Ok testMessage
  /\ rbind (createBinaryMessage (P := RefPlatform.platform) 2
              (JObj [("metadata"%string, testMetadata);
                     ("binaryData"%string, JBytes hello)]))
           parseLatteStreamBinaryProtocol
     = Ok (JObj (set_field "binaryData" (JBytes hello) (spread testMetadata))).
Proof.
  destruct (binary_roundtrip (P := RefPlatform.platform)) as [H1 H2]. split.
  - apply (H1 testMessage (json_text "{'event':'test-event','data':'hello world'}"%string));
      [reflexivity | reflexivity | reflexivity].
  - apply (H2 testMetadata hello (json_text "{'event':'binary-data','channel':'test'}"%string));
      [reflexivity | reflexivity | reflexivity | reflexivity].
Defined.

(** C3, as stated, fails for type 0x02: the decoded value is not the payload
    that was encoded. *)
Lemma binary_roundtrip_0x02_not_identity :
  let payload := JObj [("metadata"%string, testMetadata);
                       ("binaryData"%string, JBytes hello)] in
  rbind (createBinaryMessage (P := RefPlatform.platform) 2 payload)
        parseLatteStreamBinaryProtocol
  = Ok (JObj [("event"%string, JStr "binary-data"); ("channel"%string, JStr "test");
              ("binaryData"%string, JBytes hello)])
  /\ rbind (createBinaryMessage (P := RefPlatform.platform) 2 payload)
            parseLatteStreamBinaryProtocol <> Ok payload.
Proof.
  split; [vm_compute; reflexivity | vm_compute; discriminate].
Qed.

Lemma truncated_frame_rejected_witness :
  parseLatteStreamBinaryProtocol (P := RefPlatform.platform) scenarioD
  = Throw (FailedToParseMessageType 2 (MetadataTruncated 24 19))
  /\ parseLatteStreamBinaryProtocol (P := RefPlatform.platform)
       (setUint32 1 ++ setUint32 12 ++ hello)
     = Throw (PayloadTruncated 20 13)
  /\ parseLatteStreamBinaryProtocol (P := RefPlatform.platform)
       (setUint32 1 ++ setUint32 0 ++ hello)
     = Throw ZeroPayloadLength.
Proof.
  split; [|split].
  - apply (proj2 (proj2 (truncated_frame_rejected (P := RefPlatform.platform) scenarioD))
             19 20);
      [reflexivity | reflexivity | split; [lia | vm_compute; discriminate]
      | reflexivity | lia].
  - apply (proj1 (truncated_frame_rejected (P := RefPlatform.platform)
                    (setUint32 1 ++ setUint32 12 ++ hello)) 12);
      [vm_compute; discriminate | reflexivity | reflexivity].
  - apply (proj1 (proj2 (truncated_frame_rejected (P := RefPlatform.platform)
                           (setUint32 1 ++ setUint32 0 ++ hello))));
      [vm_compute; discriminate | reflexivity].
Defined.

End BinaryProtocolFacts.

Module CryptoFacts.
Import Crypto.
Local Open Scope string_scope.

(** The implementation agrees with the published test vectors. *)
Example sha256_abc :
  hex (sha256 (codes "abc"))
  = "ba7816bf8f01cfea414140de5dae2223b00361a396177a9cb410ff61f20015ad".
Proof. vm_compute. reflexivity. Qed.

Example hmac_sha256_fox :
  createHmac_sha256_hex "key" "The quick brown fox jumps over the lazy dog"
  = "f7bc83f430538424b13298e6aa6fb143ef4d59a14946175997479dbc2d1a3cd8".
Proof. vm_compute. reflexivity. Qed.

Example hmac_sha256_long_key :
  createHmac_sha256_hex
    "kkkkkkkkkkkkkkkkkkkkkkkkkkkkkkkkkkkkkkkkkkkkkkkkkkkkkkkkkkkkkkkkkkkkkk"
    "xxxxxxxxxxxxxxxxxxxxxxxxxxxxxxxxxxxxxxxxxxxxxxxxxxxxxxxxxxxxxxxxxxxxxxxxxxxxxxxxxxxxxxxxxxxxxxxxxxxxxxxxxxxxxxxxxxxxxxxx"
  = "cc7303de037b22ab70b4ffc9af4aee2175209d3c6e805f0662a63d0e62e51cc9".
Proof. vm_compute. reflexivity. Qed.

End CryptoFacts.

Module EncryptionHelperFacts.
Import Crypto EncryptionHelper.
Local Open Scope string_scope.

Lemma hex_digit_no_colon (n : Z) : Ascii.eqb (hex_digit n) ":" = false.
Proof.
  unfold hex_digit. destruct n as [|p|p]; try reflexivity.
  do 4 (try destruct p as [p|p|]; try reflexivity).
Qed.

Lemma hex_no_colon (bs : list Z) : no_colon (hex bs) = true.
Proof.
  unfold no_colon. induction bs as [|b bs IH]; [reflexivity|].
  cbn [hex list_ascii_of_string forallb]. rewrite !hex_digit_no_colon. exact IH.
Qed.

Lemma hex_length (bs : list Z) : String.length (hex bs) = (2 * List.length bs)%nat.
Proof. induction bs as [|b bs IH]; cbn [hex String.length List.length]; lia. Qed.

Lemma sha256_length (msg : list Z) : List.length (sha256 msg) = 32%nat.
Proof. unfold sha256. rewrite !length_app. reflexivity. Qed.

(** The digest is 64 characters, none of them a colon. *)
Lemma hmac_hex_length (key text : string) :
  String.length (createHmac_sha256_hex key text) = 64%nat.
Proof.
  unfold createHmac_sha256_hex, hmac_sha256. rewrite hex_length, sha256_length. reflexivity.
Qed.

Lemma hmac_hex_no_colon (key text : string) :
  no_colon (createHmac_sha256_hex key text) = true.
Proof. apply hex_no_colon. Qed.

Lemma hmac_hex_nonempty (key text : string) : createHmac_sha256_hex key text <> "".
Proof.
  intros H. pose proof (hmac_hex_length key text) as L. rewrite H in L. discriminate.
Qed.

(** ** [split(':')] *)

Lemma split_no_colon (s : string) : no_colon s = true -> split_colon s = [s].
Proof.
  unfold no_colon. induction s as [|c s IH]; [reflexivity|].
  cbn [list_ascii_of_string forallb split_colon]. intros H.
  apply andb_true_iff in H as [Hc Hs]. apply negb_true_iff in Hc. rewrite Hc.
  rewrite (IH Hs). reflexivity.
Qed.

Lemma split_field (s t : string) :
  no_colon s = true -> split_colon (s ++ ":" ++ t) = s :: split_colon t.
Proof.
  unfold no_colon. induction s as [|c s IH]; [reflexivity|].
  cbn [list_ascii_of_string forallb]. intros H.
  apply andb_true_iff in H as [Hc Hs]. apply negb_true_iff in Hc.
  change ((String c s) ++ ":" ++ t) with (String c (s ++ ":" ++ t)).
  cbn [split_colon]. rewrite Hc, (IH Hs). reflexivity.
Qed.

Lemma split_nonempty (s : string) : split_colon s <> [].
Proof.
  destruct s as [|c s]; [discriminate|]. cbn [split_colon].
  destruct (Ascii.eqb c ":"); [discriminate|]. destruct (split_colon s); discriminate.
Qed.

(** The first field of a split holds no colon. *)
Lemma split_head_no_colon (s f : string) (fs : list string) :
  split_colon s = f :: fs -> no_colon f = true.
Proof.
  revert f fs. induction s as [|c s IH]; intros f fs.
  - cbn. intros [= <- <-]. reflexivity.
  - cbn [split_colon]. destruct (Ascii.eqb c ":") eqn:Hc.
    + intros [= <- <-]. reflexivity.
    + destruct (split_colon s) as [|g gs] eqn:Hs.
      * intros [= <- <-]. unfold no_colon. cbn. rewrite Hc. reflexivity.
      * intros [= <- <-]. unfold no_colon. cbn [list_ascii_of_string forallb].
        rewrite Hc. cbn [negb andb]. exact (IH g gs eq_refl).
Qed.

(** A string is its first field, alone or followed by a colon and the rest. *)
Lemma split_first (s f : string) (fs : list string) :
  split_colon s = f :: fs -> s = f \/ exists r, s = f ++ ":" ++ r.
Proof.
  revert f fs. induction s as [|c s IH]; intros f fs.
  - cbn. intros [= <- <-]. left. reflexivity.
  - cbn [split_colon]. destruct (Ascii.eqb_spec c ":") as [->|Hc].
    + intros [= <- <-]. right. exists s. reflexivity.
    + destruct (split_colon s) as [|g gs] eqn:Hs.
      * exfalso. exact (split_nonempty s Hs).
      * intros [= <- <-]. destruct (IH g gs eq_refl) as [->|[r ->]].
        -- left. reflexivity.
        -- right. exists r. reflexivity.
Qed.

Lemma length_append (a b : string) :
  String.length (a ++ b) = (String.length a + String.length b)%nat.
Proof. induction a as [|c a IH]; cbn; [reflexivity | rewrite IH; reflexivity]. Qed.

(** ** [constantTimeCompare] *)

Lemma compare_loop_zero (a b : list Z) (r : Z) :
  List.length a = List.length b ->
  (compare_loop a b r = 0 <-> r = 0 /\ a = b)%Z.
Proof.
  revert b r. induction a as [|x a IH]; intros [|y b] r Hl; try discriminate.
  - cbn. intuition.
  - cbn [compare_loop]. injection Hl as Hl. rewrite (IH b _ Hl).
    rewrite Z.lor_eq_0_iff, Z.lxor_eq_0_iff. split.
    + intros [[-> ->] ->]. auto.
    + intros [-> [= -> ->]]. auto.
Qed.

Lemma codes_length (s : string) : List.length (codes s) = String.length s.
Proof.
  unfold codes. rewrite length_map. induction s; cbn; congruence.
Qed.

Lemma codes_inj (a b : string) : codes a = codes b -> a = b.
Proof.
  unfold codes. revert b. induction a as [|x a IH]; intros [|y b]; cbn; try discriminate.
  - reflexivity.
  - intros [= Hxy Hab]. f_equal; [|exact (IH b Hab)].
    apply N2Z.inj in Hxy.
    rewrite <- (ascii_N_embedding x), <- (ascii_N_embedding y), Hxy. reflexivity.
Qed.

(** The comparison looks at every position and accepts equal strings only. *)
Lemma constantTimeCompare_eq (a b : string) : constantTimeCompare a b = true <-> a = b.
Proof.
  unfold constantTimeCompare. destruct (Nat.eqb_spec (String.length a) (String.length b)) as [Hl|Hl].
  - cbn [negb]. rewrite Z.eqb_eq, compare_loop_zero by (rewrite !codes_length; exact Hl).
    split; [intros [_ H]; exact (codes_inj _ _ H) | intros ->; auto].
  - cbn [negb]. split; [discriminate | intros ->; contradiction].
Qed.

Lemma append_assoc (a b c : string) : (a ++ b) ++ c = a ++ b ++ c.
Proof. induction a as [|x a IH]; cbn; [reflexivity | rewrite IH; reflexivity]. Qed.

(** What [verifyAuthString] accepts: the first field is a non-empty socket id
    and the second field is the digest of the string signed for it; further
    fields are not looked at. *)
Lemma verifyAuthString_spec (masterKey authString channelName : string)
      (channelData : option string) :
  verifyAuthString masterKey authString channelName channelData = true
  <-> exists socketId signature rest,
        split_colon authString = socketId :: signature :: rest
        /\ socketId <> ""
        /\ signature = createHmac_sha256_hex masterKey
                         (finalString socketId channelName channelData).
Proof.
  unfold verifyAuthString.
  destruct (split_colon authString) as [|sid [|sig rest]] eqn:Hs.
  - split; [discriminate | intros (? & ? & ? & [=] & _)].
  - split; [discriminate | intros (? & ? & ? & [=] & _)].
  - pose proof (split_head_no_colon _ Hs) as Hsid.
    unfold generateAuthString.
    rewrite (split_field _ _ Hsid), (split_no_colon _ (hmac_hex_no_colon _ _)).
    destruct (String.eqb_spec sid "") as [->|Hne]; cbn [orb].
    { split; [discriminate | intros (? & ? & ? & [= <- <- <-] & H & _); contradiction]. }
    destruct (String.eqb_spec sig "") as [->|Hne2]; cbn [orb].
    { split; [discriminate|]. intros (? & ? & ? & [= <- <- <-] & _ & H).
      symmetry in H. exfalso. exact (hmac_hex_nonempty H). }
    rewrite constantTimeCompare_eq. split.
    + intros ->. do 3 eexists. split; [reflexivity | split; [exact Hne | reflexivity]].
    + intros (? & ? & ? & [= <- <- <-] & _ & H). exact H.
Qed.

(** C9 (as amended). [generateAuthString] is the socket id, a colon and the
    HMAC-SHA256 digest of the signing string; empty channel data counts as
    absent. [verifyAuthString] reads the first two colon-separated fields of
    the auth string. For a socket id without a colon: it accepts the generated
    string when the socket id is not empty; it accepts the socket id followed
    by a colon and [s] exactly when the socket id is not empty and [s] is the
    expected digest, alone or followed by a colon and anything; so it rejects
    every [s] of the length of the digest other than the digest; and it
    rejects other channel data whenever the two signing strings have different
    digests. *)
Theorem auth_string_verification (masterKey : string) :
  (forall socketId channelName,
      generateAuthString masterKey socketId channelName None
      = socketId ++ ":"
        ++ createHmac_sha256_hex masterKey (socketId ++ ":" ++ channelName))
  /\
  (forall socketId channelName channelData,
      channelData <> "" ->
      generateAuthString masterKey socketId channelName (Some channelData)
      = socketId ++ ":"
        ++ createHmac_sha256_hex masterKey
             (socketId ++ ":" ++ channelName ++ ":" ++ channelData))
  /\
  (forall socketId channelName,
      generateAuthString masterKey socketId channelName (Some "")
      = generateAuthString masterKey socketId channelName None)
  /\
  (forall socketId channelName channelData,
      socketId <> "" -> no_colon socketId = true ->
      verifyAuthString masterKey
        (generateAuthString masterKey socketId channelName channelData)
        channelName channelData = true)
  /\
  (forall socketId signature channelName channelData,
      no_colon socketId = true ->
      let expected :=
        createHmac_sha256_hex masterKey (finalString socketId channelName channelData) in
      verifyAuthString masterKey (socketId ++ ":" ++ signature)
        channelName channelData = true
      <-> socketId <> ""
          /\ (signature = expected \/ exists rest, signature = expected ++ ":" ++ rest))
  /\
  (forall socketId signature channelName channelData,
      no_colon socketId = true ->
      String.length signature = 64%nat ->
      signature <> createHmac_sha256_hex masterKey
                     (finalString socketId channelName channelData) ->
      verifyAuthString masterKey (socketId ++ ":" ++ signature)
        channelName channelData = false)
  /\
  (forall socketId channelName channelData channelData',
      no_colon socketId = true ->
      createHmac_sha256_hex masterKey (finalString socketId channelName channelData)
      <> createHmac_sha256_hex masterKey (finalString socketId channelName channelData') ->
      verifyAuthString masterKey
        (generateAuthString masterKey socketId channelName channelData)
        channelName channelData' = false).
Proof.
  assert (Hiff : forall socketId signature channelName channelData,
             no_colon socketId = true ->
             verifyAuthString masterKey (socketId ++ ":" ++ signature)
               channelName channelData = true
             <-> socketId <> ""
                 /\ (signature
                     = createHmac_sha256_hex masterKey
                         (finalString socketId channelName channelData)
                     \/ exists rest,
                          signature
                          = createHmac_sha256_hex masterKey
                              (finalString socketId channelName channelData)
                            ++ ":" ++ rest)).
  { intros sid sig ch cd Hsid. rewrite verifyAuthString_spec. split.
    - intros (sid' & sig' & rest & Hs & Hne & Heq).
      rewrite (split_field _ _ Hsid) in Hs.
      destruct (split_colon sig) as [|f fs] eqn:Hf; [discriminate|].
      injection Hs as <- <- <-. split; [exact Hne|].
      rewrite <- Heq. exact (split_first sig Hf).
    - intros (Hne & [->|[rest ->]]).
      + exists sid, (createHmac_sha256_hex masterKey (finalString sid ch cd)), [].
        rewrite (split_field _ _ Hsid), (split_no_colon _ (hmac_hex_no_colon _ _)). auto.
      + exists sid, (createHmac_sha256_hex masterKey (finalString sid ch cd)),
               (split_colon rest).
        rewrite (split_field _ _ Hsid), (split_field _ _ (hmac_hex_no_colon _ _)). auto. }
  assert (Hrej : forall socketId signature channelName channelData,
             no_colon socketId = true ->
             String.length signature = 64%nat ->
             signature <> createHmac_sha256_hex masterKey
                            (finalString socketId channelName channelData) ->
             verifyAuthString masterKey (socketId ++ ":" ++ signature)
               channelName channelData = false).
  { intros sid sig ch cd Hsid Hlen Hne.
    destruct (verifyAuthString masterKey (sid ++ ":" ++ sig) ch cd) eqn:E; [|reflexivity].
    apply (Hiff sid sig ch cd Hsid) in E as (_ & [->|[rest ->]]); [contradiction|].
    rewrite length_append, hmac_hex_length in Hlen. cbn in Hlen. lia. }
  split; [|split; [|split; [|split; [|split; [|split]]]]].
  - reflexivity.
  - intros sid ch cd Hcd. unfold generateAuthString, finalString.
    destruct (String.eqb_spec cd "") as [|_]; [contradiction|].
    rewrite append_assoc. reflexivity.
  - reflexivity.
  - intros sid ch cd Hne Hsid. apply verifyAuthString_spec.
    exists sid, (createHmac_sha256_hex masterKey (finalString sid ch cd)), [].
    unfold generateAuthString.
    rewrite (split_field _ _ Hsid), (split_no_colon _ (hmac_hex_no_colon _ _)). auto.
  - intros sid sig ch cd Hsid expected. exact (Hiff sid sig ch cd Hsid).
  - exact Hrej.
  - intros sid ch cd cd' Hsid Hne. unfold generateAuthString.
    apply Hrej; [exact Hsid | apply hmac_hex_length | exact Hne].
Qed.

Lemma auth_string_verification_witness :
  let key := "lsk_secret" in
  let sid := "1234.5678" in
  let user := json_text "{'user_id':'u1'}" in
  generateAuthString key sid "private-orders" None
  = "1234.5678:a7b5098ecb2db29e8ff7448fa87a8d1bf83b3d608fc03a18dad13d71af5cfbcc"
  /\ verifyAuthString key (generateAuthString key sid "presence-room" (Some user))
       "presence-room" (Some user) = true
  /\ verifyAuthString key
       (sid ++ ":" ++ "a7b5098ecb2db29e8ff7448fa87a8d1bf83b3d608fc03a18dad13d71af5cfbcc:x")
       "private-orders" None = true
  /\ verifyAuthString key
       (sid ++ ":" ++ "b7b5098ecb2db29e8ff7448fa87a8d1bf83b3d608fc03a18dad13d71af5cfbcc")
       "private-orders" None = false
  /\ verifyAuthString key
       (sid ++ ":" ++ "a7b5098ecb2db29e8ff7448fa87a8d1bf83b3d608fc03a18dad13d71af5cfb:c")
       "private-orders" None = false
  /\ verifyAuthString key (generateAuthString key sid "presence-room" (Some user))
       "presence-room" (Some (json_text "{'user_id':'u2'}")) = false.
Proof.
  intros key sid user.
  destruct (auth_string_verification key) as (H1 & _ & _ & H3 & H4 & H5 & H6).
  split; [|split; [|split; [|split; [|split]]]].
  - rewrite (H1 sid "private-orders"). vm_compute. reflexivity.
  - apply (H3 sid "presence-room" (Some user)); [discriminate | reflexivity].
  - apply (H4 sid _ "private-orders" None eq_refl). split; [discriminate|].
    right. exists "x". vm_compute. reflexivity.
  - apply (H5 sid); [reflexivity | reflexivity | vm_compute; discriminate].
  - apply (H5 sid); [reflexivity | reflexivity | vm_compute; discriminate].
  - apply (H6 sid "presence-room" (Some user)); [reflexivity | vm_compute; discriminate].
Defined.

(** C9, as stated, fails on two inputs: the auth string generated for a socket
    id that holds a colon is rejected, and an auth string with a further field
    after the signature is accepted although it is not the generated one. *)
Lemma auth_string_not_exact :
  let key := "lsk_secret" in
  verifyAuthString key (generateAuthString key "a:b" "private-orders" None)
    "private-orders" None = false
  /\ (let auth := generateAuthString key "1234.5678" "private-orders" None ++ ":junk" in
      verifyAuthString key auth "private-orders" None = true
      /\ auth <> generateAuthString key "1234.5678" "private-orders" None).
Proof.
  split; [vm_compute; reflexivity | split; [vm_compute; reflexivity | vm_compute; discriminate]].
Qed.

End EncryptionHelperFacts.

(* ------------------------------------------------------------------ *)
(** ** Rounding to doubles *)
(* ------------------------------------------------------------------ *)

Module DoubleFacts.
Import Double.
Local Open Scope Q_scope.

Lemma pow2_pos (z : Z) : 0 < pow2 z.
Proof. apply Qpower_0_lt. reflexivity. Qed.

Lemma pow2_le (a b : Z) : (a <= b)%Z -> pow2 a <= pow2 b.
Proof. intros H. apply Qpower_le_compat_l; [exact H | discriminate]. Qed.

Lemma pow2_lt (a b : Z) : (a < b)%Z -> pow2 a < pow2 b.
Proof. intros H. apply Qpower_lt_compat_l; [exact H | reflexivity]. Qed.

Lemma pow2_plus (a b : Z) : pow2 (a + b) == pow2 a * pow2 b.
Proof. apply Qpower_plus. discriminate. Qed.

Lemma pow2_Z (z : Z) : (0 <= z)%Z -> pow2 z == inject_Z (2 ^ z).
Proof. intros H. symmetry. apply (Zpower_Qpower 2 z H). Qed.

Lemma pow2_succ (z : Z) : pow2 (z + 1) == 2 * pow2 z.
Proof. rewrite pow2_plus. change (pow2 1) with 2. ring. Qed.

Lemma pow2_minus (a b : Z) : pow2 (a - b) == pow2 a / pow2 b.
Proof. apply Qpower_minus. discriminate. Qed.

(** [x] lies between [2^(a-b-1)] and [2^(a-b+1)] for the binary logarithms
    [a] and [b] of its numerator and denominator. *)
Lemma log2_bounds (x : Q) :
  0 < x ->
  let e := (Z.log2 (Qnum x) - Z.log2 (Zpos (Qden x)))%Z in
  pow2 (e - 1) <= x /\ x < pow2 (e + 1).
Proof.
  destruct x as [n d]. intros Hx e. cbn [Qnum Qden] in e.
  assert (Hn : (0 < n)%Z).
  { unfold Qlt in Hx. cbn in Hx. lia. }
  pose proof (Z.log2_spec n Hn) as [Ha1 Ha2].
  pose proof (Z.log2_spec (Zpos d) (Pos2Z.is_pos d)) as [Hb1 Hb2].
  pose proof (Z.log2_nonneg n) as Ha0.
  pose proof (Z.log2_nonneg (Zpos d)) as Hb0.
  set (a := Z.log2 n) in *. set (b := Z.log2 (Zpos d)) in *.
  assert (HA : pow2 a == inject_Z (2 ^ a)) by (apply pow2_Z; exact Ha0).
  assert (HB : pow2 b == inject_Z (2 ^ b)) by (apply pow2_Z; exact Hb0).
  assert (Hx' : n # d == inject_Z n / inject_Z (Zpos d)) by apply Qmake_Qdiv.
  assert (HD : 0 < inject_Z (Zpos d)) by reflexivity.
  assert (HBp : 0 < pow2 b) by apply pow2_pos.
  rewrite Z.pow_succ_r in Ha2, Hb2 by assumption.
  rewrite Zle_Qle in Ha1, Hb1. rewrite Zlt_Qlt in Ha2, Hb2.
  rewrite inject_Z_mult in Ha2, Hb2. rewrite <- HA in Ha1, Ha2. rewrite <- HB in Hb1, Hb2.
  change (inject_Z 2) with 2 in *.
  unfold e. split.
  - replace (a - b - 1)%Z with (a - (b + 1))%Z by ring.
    rewrite pow2_minus, pow2_succ, Hx'.
    apply Qle_shift_div_l; [exact HD|].
    assert (E : pow2 a / (2 * pow2 b) * inject_Z (Zpos d)
                == pow2 a * (inject_Z (Zpos d) / (2 * pow2 b))) by (field; lra).
    rewrite E. clear E.
    apply Qle_trans with (pow2 a * 1); [|lra].
    apply Qmult_le_l; [apply pow2_pos|].
    apply Qle_shift_div_r; lra.
  - replace (a - b + 1)%Z with (a + 1 - b)%Z by ring.
    rewrite pow2_minus, pow2_succ, Hx'.
    apply Qlt_shift_div_r; [exact HD|].
    assert (E : 2 * pow2 a / pow2 b * inject_Z (Zpos d)
                == 2 * pow2 a * (inject_Z (Zpos d) / pow2 b)) by (field; lra).
    rewrite E. clear E.
    apply Qlt_le_trans with (2 * pow2 a * 1); [lra|].
    apply Qmult_le_l; [pose proof (pow2_pos a); lra|].
    apply Qle_shift_div_l; lra.
Qed.

Lemma ilog2_spec (x : Q) :
  0 < x -> pow2 (ilog2 x) <= x /\ x < pow2 (ilog2 x + 1).
Proof.
  intros Hx. destruct (log2_bounds Hx) as [H1 H2]. unfold ilog2.
  set (e := (Z.log2 (Qnum x) - Z.log2 (Zpos (Qden x)))%Z) in *.
  destruct (Qle_bool (pow2 e) x) eqn:E.
  - apply Qle_bool_iff in E. split; assumption.
  - split; [exact H1|]. replace (e - 1 + 1)%Z with e by ring.
    apply Qnot_le_lt. intros H. apply Qle_bool_iff in H. congruence.
Qed.

Lemma ilog2_unique (x : Q) (e : Z) :
  pow2 e <= x -> x < pow2 (e + 1) -> ilog2 x = e.
Proof.
  intros H1 H2.
  assert (Hx : 0 < x) by (pose proof (pow2_pos e); lra).
  destruct (ilog2_spec Hx) as [H3 H4].
  destruct (Z.lt_trichotomy (ilog2 x) e) as [H|[H|H]]; [|exact H|].
  - assert (pow2 (ilog2 x + 1) <= pow2 e) by (apply pow2_le; lia). lra.
  - assert (pow2 (e + 1) <= pow2 (ilog2 x)) by (apply pow2_le; lia). lra.
Qed.

Lemma ilog2_le (x y : Q) : 0 < x -> x <= y -> (ilog2 x <= ilog2 y)%Z.
Proof.
  intros Hx Hxy.
  assert (Hy : 0 < y) by lra.
  destruct (ilog2_spec Hx) as [H1 H2]. destruct (ilog2_spec Hy) as [H3 H4].
  destruct (Z.le_gt_cases (ilog2 x) (ilog2 y)) as [H|H]; [exact H|].
  assert (pow2 (ilog2 y + 1) <= pow2 (ilog2 x)) by (apply pow2_le; lia). lra.
Qed.

Lemma rne_bounds (x : Q) : (Qfloor x <= rne x <= Qfloor x + 1)%Z.
Proof.
  unfold rne. destruct (Qcompare _ _); [destruct (Z.even _)| |]; lia.
Qed.

Lemma rne_le (x y : Q) : x <= y -> (rne x <= rne y)%Z.
Proof.
  intros H. pose proof (Qfloor_resp_le _ _ H) as Hf.
  pose proof (rne_bounds x) as Hx. pose proof (rne_bounds y) as Hy.
  destruct (Z.eq_dec (Qfloor x) (Qfloor y)) as [E|E]; [|lia].
  unfold rne. rewrite <- E.
  destruct (Qcompare (x - inject_Z (Qfloor x)) (1 # 2)) eqn:Cx;
    destruct (Qcompare (y - inject_Z (Qfloor x)) (1 # 2)) eqn:Cy;
    try destruct (Z.even (Qfloor x)); try lia; exfalso;
    repeat match goal with
           | C : Qcompare _ _ = Eq |- _ => apply Qeq_alt in C
           | C : Qcompare _ _ = Lt |- _ => apply Qlt_alt in C
           | C : Qcompare _ _ = Gt |- _ => apply Qgt_alt in C
           end; lra.
Qed.

Lemma rne_Z (z : Z) : rne (inject_Z z) = z.
Proof.
  unfold rne. rewrite Qfloor_Z.
  assert (E : Qcompare (inject_Z z - inject_Z z) (1 # 2) = Lt).
  { rewrite <- Qlt_alt. lra. }
  rewrite E. reflexivity.
Qed.

Lemma rne_eq (x y : Q) : x == y -> rne x = rne y.
Proof.
  intros H. apply Z.le_antisymm; apply rne_le; lra.
Qed.

Lemma ulp_exp_le (x y : Q) : 0 < x -> x <= y -> (ulp_exp x <= ulp_exp y)%Z.
Proof.
  intros Hx H. unfold ulp_exp. pose proof (ilog2_le Hx H). lia.
Qed.

Lemma scaled_Z (n : Z) (a b : Z) :
  (b <= a)%Z -> inject_Z n * pow2 a / pow2 b == inject_Z (n * 2 ^ (a - b)).
Proof.
  intros H. rewrite inject_Z_mult, <- pow2_Z by lia. rewrite pow2_minus.
  field. pose proof (pow2_pos b). lra.
Qed.

(** A positive number is rounded within its binade. *)
Lemma round_pos_bounds (x : Q) :
  0 < x ->
  pow2 (ulp_exp x + 52) <= x ->
  pow2 (ulp_exp x + 52) <= round_pos x.
Proof.
  intros Hx H. unfold round_pos. set (q := ulp_exp x) in *.
  assert (Hq : 0 < pow2 q) by apply pow2_pos.
  assert (E : pow2 (q + 52) == inject_Z (2 ^ 52) * pow2 q).
  { rewrite pow2_plus, (@pow2_Z 52) by lia. ring. }
  rewrite E. apply Qmult_le_compat_r; [|lra].
  rewrite <- Zle_Qle. rewrite <- (rne_Z (2 ^ 52)). apply rne_le.
  apply Qle_shift_div_l; [exact Hq|]. rewrite <- E. exact H.
Qed.

Lemma round_pos_upper (x : Q) (e : Z) :
  0 < x -> x <= pow2 e -> (ulp_exp x <= e)%Z -> round_pos x <= pow2 e.
Proof.
  intros Hx H He. unfold round_pos. set (q := ulp_exp x) in *.
  assert (Hq : 0 < pow2 q) by apply pow2_pos.
  assert (E : pow2 e == inject_Z (2 ^ (e - q)) * pow2 q).
  { rewrite <- pow2_Z by lia. rewrite <- pow2_plus. replace (e - q + q)%Z with e by ring.
    reflexivity. }
  rewrite E. apply Qmult_le_compat_r; [|lra].
  rewrite <- Zle_Qle. rewrite <- (rne_Z (2 ^ (e - q))). apply rne_le.
  apply Qle_shift_div_r; [exact Hq|]. rewrite <- E. exact H.
Qed.

Lemma round_pos_nonneg (x : Q) : 0 < x -> 0 <= round_pos x.
Proof.
  intros Hx. unfold round_pos.
  assert (Hq : 0 < pow2 (ulp_exp x)) by apply pow2_pos.
  assert (Hr : (0 <= rne (x / pow2 (ulp_exp x)))%Z).
  { rewrite <- (rne_Z 0) at 1. apply rne_le. change (inject_Z 0) with 0.
    apply Qle_shift_div_l; [exact Hq|]. lra. }
  rewrite Zle_Qle in Hr. change (inject_Z 0) with 0 in Hr.
  apply Qmult_le_0_compat; lra.
Qed.

Lemma round_pos_le (x y : Q) : 0 < x -> x <= y -> round_pos x <= round_pos y.
Proof.
  intros Hx H.
  assert (Hy : 0 < y) by lra.
  pose proof (ulp_exp_le Hx H) as Hq.
  destruct (Z.eq_dec (ulp_exp x) (ulp_exp y)) as [E|E].
  - unfold round_pos. rewrite <- E. set (q := ulp_exp x).
    assert (Hq0 : 0 < pow2 q) by apply pow2_pos.
    apply Qmult_le_compat_r; [|lra]. rewrite <- Zle_Qle. apply rne_le.
    apply Qmult_le_compat_r; [exact H|]. apply Qlt_le_weak, Qinv_lt_0_compat, Hq0.
  - assert (Hlt : (ulp_exp x < ulp_exp y)%Z) by lia.
    destruct (ilog2_spec Hx) as [_ Hx2]. destruct (ilog2_spec Hy) as [Hy1 _].
    assert (Hey : ulp_exp y = (ilog2 y - 52)%Z) by (unfold ulp_exp in *; lia).
    assert (Hex : (ilog2 x + 1 <= ilog2 y)%Z) by (unfold ulp_exp in *; lia).
    apply Qle_trans with (pow2 (ilog2 y)).
    + apply round_pos_upper; [exact Hx| |lia].
      apply Qle_trans with (pow2 (ilog2 x + 1)); [lra | apply pow2_le; exact Hex].
    + replace (ilog2 y) with (ulp_exp y + 52)%Z at 1 by lia.
      apply round_pos_bounds; [exact Hy|]. replace (ulp_exp y + 52)%Z with (ilog2 y) by lia.
      exact Hy1.
Qed.

Lemma round_pos_eq (x y : Q) : 0 < x -> x == y -> round_pos x == round_pos y.
Proof.
  intros Hx H. apply Qle_antisym; apply round_pos_le; lra.
Qed.

Lemma round_unfold (x : Q) :
  round x == match Qcompare 0 x with
             | Eq => 0
             | Lt => round_pos x
             | Gt => - round_pos (- x)
             end.
Proof. unfold round. apply Qred_correct. Qed.

Lemma round_of_pos (x : Q) : 0 < x -> round x == round_pos x.
Proof.
  intros H. rewrite round_unfold.
  assert (E : Qcompare 0 x = Lt) by (rewrite <- Qlt_alt; exact H).
  rewrite E. reflexivity.
Qed.

Lemma round_of_neg (x : Q) : x < 0 -> round x == - round_pos (- x).
Proof.
  intros H. rewrite round_unfold.
  assert (E : Qcompare 0 x = Gt) by (rewrite <- Qgt_alt; exact H).
  rewrite E. reflexivity.
Qed.

Lemma round_of_zero (x : Q) : x == 0 -> round x == 0.
Proof.
  intros H. rewrite round_unfold.
  assert (E : Qcompare 0 x = Eq) by (rewrite <- Qeq_alt; symmetry; exact H).
  rewrite E. reflexivity.
Qed.

(** Rounding is monotone. *)
Lemma round_le (x y : Q) : x <= y -> round x <= round y.
Proof.
  intros H.
  destruct (Q_dec 0 x) as [[Hx|Hx]|Hx]; destruct (Q_dec 0 y) as [[Hy|Hy]|Hy];
    try (exfalso; lra).
  - rewrite (round_of_pos Hx), (round_of_pos Hy). apply round_pos_le; assumption.
  - rewrite (round_of_neg Hx), (round_of_pos Hy).
    assert (0 < - x) by lra.
    pose proof (round_pos_nonneg H0). pose proof (round_pos_nonneg Hy). lra.
  - rewrite (round_of_neg Hx), (round_of_neg Hy).
    assert (H1 : 0 < - y) by lra. assert (H2 : - y <= - x) by lra.
    pose proof (round_pos_le H1 H2). lra.
  - rewrite (round_of_neg Hx), (@round_of_zero y) by lra.
    assert (0 < - x) by lra. pose proof (round_pos_nonneg H0). lra.
  - rewrite (@round_of_zero x), (round_of_pos Hy) by lra.
    apply round_pos_nonneg. exact Hy.
  - rewrite (@round_of_zero x), (@round_of_zero y) by lra. lra.
Qed.

Lemma round_eq (x y : Q) : x == y -> round x = round y.
Proof.
  intros H. unfold round. apply Qred_complete. rewrite <- !round_unfold.
  apply Qle_antisym; apply round_le; lra.
Qed.

(** A positive number with at most 53 significant bits and no bit below
    [2^-1074] is a double: rounding leaves it as it is. *)
Lemma round_pos_fix (x : Q) (n q : Z) :
  (0 < n < 2 ^ 53)%Z -> (-1074 <= q)%Z -> x == inject_Z n * pow2 q ->
  round_pos x == x.
Proof.
  intros Hn Hq Hx.
  assert (Hq0 : 0 < pow2 q) by apply pow2_pos.
  assert (Hn0 : 0 < inject_Z n) by (change 0 with (inject_Z 0); rewrite <- Zlt_Qlt; lia).
  assert (Hn1 : inject_Z n < pow2 53).
  { rewrite (@pow2_Z 53) by lia. rewrite <- Zlt_Qlt. lia. }
  assert (Hpos : 0 < x) by (rewrite Hx; apply Qmult_lt_0_compat; assumption).
  assert (Hup : x < pow2 (q + 53)).
  { rewrite Hx, pow2_plus, (Qmult_comm (pow2 q)). apply Qmult_lt_compat_r; assumption. }
  destruct (ilog2_spec Hpos) as [Hl _].
  assert (He : (ilog2 x < q + 53)%Z).
  { apply Qpower_lt_compat_l_inv with (q := 2); [|reflexivity].
    fold (pow2 (ilog2 x)) (pow2 (q + 53)). lra. }
  assert (Hu : (ulp_exp x <= q)%Z) by (unfold ulp_exp; lia).
  unfold round_pos. set (q' := ulp_exp x) in *.
  assert (E : x / pow2 q' == inject_Z (n * 2 ^ (q - q'))).
  { rewrite <- (@scaled_Z n q q') by exact Hu. rewrite Hx. reflexivity. }
  rewrite (rne_eq E), rne_Z, inject_Z_mult, <- pow2_Z by lia.
  rewrite Hx, <- Qmult_assoc, <- pow2_plus. replace (q - q' + q')%Z with q by ring.
  reflexivity.
Qed.

(** What rounding returns is zero or a double. *)
Lemma round_pos_repr (x : Q) :
  0 < x ->
  round_pos x == 0
  \/ exists n q, (0 < n < 2 ^ 53)%Z /\ (-1074 <= q)%Z /\ round_pos x == inject_Z n * pow2 q.
Proof.
  intros Hx. pose proof (round_pos_nonneg Hx) as H0.
  destruct (ilog2_spec Hx) as [_ Hu].
  set (q := ulp_exp x).
  assert (Hq : (ilog2 x - 52 <= q)%Z /\ (-1074 <= q)%Z) by (unfold q, ulp_exp; lia).
  assert (Hq0 : 0 < pow2 q) by apply pow2_pos.
  assert (Hm : x / pow2 q <= inject_Z (2 ^ 53)).
  { apply Qle_shift_div_r; [exact Hq0|].
    rewrite <- (@pow2_Z 53), <- pow2_plus by lia.
    apply Qle_trans with (pow2 (ilog2 x + 1)); [lra | apply pow2_le; lia]. }
  pose proof (rne_le Hm) as Hr. rewrite rne_Z in Hr.
  assert (Hr0 : (0 <= rne (x / pow2 q))%Z).
  { rewrite <- (rne_Z 0) at 1. apply rne_le. change (inject_Z 0) with 0.
    apply Qle_shift_div_l; [exact Hq0|]. lra. }
  fold q in Hr, Hr0. unfold round_pos. fold q.
  destruct (Z.eq_dec (rne (x / pow2 q)) 0) as [E|E].
  - left. rewrite E. change (inject_Z 0) with 0. ring.
  - right. destruct (Z.eq_dec (rne (x / pow2 q)) (2 ^ 53)) as [E2|E2].
    + exists (2 ^ 52)%Z, (q + 1)%Z. split; [lia | split; [lia|]].
      rewrite E2, pow2_succ. change (inject_Z (2 ^ 53)) with (2 * inject_Z (2 ^ 52)). ring.
    + exists (rne (x / pow2 q)), q. split; [lia | split; [lia | reflexivity]].
Qed.

Lemma round_pos_idem (x : Q) : 0 < x -> 0 < round_pos x -> round_pos (round_pos x) == round_pos x.
Proof.
  intros Hx Hy. destruct (round_pos_repr Hx) as [E|(n & q & Hn & Hq & E)]; [lra|].
  exact (round_pos_fix Hn Hq E).
Qed.

(** Rounding a rounded number changes nothing. *)
Lemma round_idem (x : Q) : round (round x) == round x.
Proof.
  destruct (Q_dec 0 x) as [[Hx|Hx]|Hx].
  - pose proof (round_pos_nonneg Hx) as H0.
    rewrite (round_eq (round_of_pos Hx)).
    rewrite (round_of_pos Hx).
    destruct (Qle_lt_or_eq _ _ H0) as [Hy|Hy].
    + rewrite (round_of_pos Hy). apply round_pos_idem; assumption.
    + assert (E : round_pos x == 0) by lra.
      rewrite (round_eq E), E. apply round_of_zero. reflexivity.
  - assert (Hx' : 0 < - x) by lra.
    pose proof (round_pos_nonneg Hx') as H0.
    rewrite (round_eq (round_of_neg Hx)). rewrite (round_of_neg Hx).
    destruct (Qle_lt_or_eq _ _ H0) as [Hy|Hy].
    + assert (Hn : - round_pos (- x) < 0) by lra.
      rewrite (round_of_neg Hn).
      assert (E : - - round_pos (- x) == round_pos (- x)) by ring.
      assert (Hp : 0 < - - round_pos (- x)) by lra.
      rewrite (round_pos_eq Hp E). rewrite (round_pos_idem Hx' Hy). reflexivity.
    + assert (E : - round_pos (- x) == 0) by lra.
      rewrite (round_eq E), E. apply round_of_zero. reflexivity.
  - assert (E : x == 0) by lra.
    rewrite (round_eq (round_of_zero E)). rewrite (round_of_zero E).
    apply round_of_zero. reflexivity.
Qed.

Lemma round_nonneg (x : Q) : 0 <= x -> 0 <= round x.
Proof.
  intros H. assert (E : round 0 == 0) by (apply round_of_zero; reflexivity).
  rewrite <- E. apply round_le. exact H.
Qed.

End DoubleFacts.

(* ------------------------------------------------------------------ *)
(** ** Reconnection delays *)
(* ------------------------------------------------------------------ *)

Module ReconnectFacts.
Import Connection DoubleFacts.

Section WithPlatform.
Context {P : Platform}.

Lemma budget_not_exhausted (o : LatteStreamOptions) (a : nat) :
  (inject_Z (Z.of_nat a) < maxAttempts o)%Q <-> budgetExhausted o a = false.
Proof.
  unfold budgetExhausted. split.
  - intros H. destruct (Qle_bool (maxAttempts o) (inject_Z (Z.of_nat a))) eqn:E;
      [|reflexivity].
    apply Qle_bool_iff in E. exfalso. exact (Qlt_not_le _ _ H E).
  - intros H. apply Qnot_le_lt. intros E. apply Qle_bool_iff in E. congruence.
Qed.

(** What [attemptReconnect] does while the budget lasts: the counter goes up
    by one and one timer is set, with the computed delay. *)
Lemma attemptReconnect_schedules (w : World) (env : Env) :
  budgetExhausted (options w) (reconnectAttempts (conn w)) = false ->
  let w' := exec (LatteStream.attemptReconnect env) w in
  timers (rt w')
  = timers (rt w)
    ++ [mkTimer (nextHandle (rt w)) ReconnectTimer
          (reconnectDelay (options w) (reconnectAttempts (conn w)) (random env))]
  /\ reconnectAttempts (conn w') = S (reconnectAttempts (conn w))
  /\ reconnectTimer (conn w') = Some (nextHandle (rt w))
  /\ state (conn w') = match state (conn w) with
                       | connecting => connecting
                       | _ => unavailable
                       end.
Proof.
  intros H. unfold exec, LatteStream.attemptReconnect, attemptReconnect, bind, get.
  cbn beta iota. rewrite H.
  destruct w as [k o c r cl0]. destruct c as [w0 st n rtm atm ptm sid dt dd db q ft].
  destruct st; cbn; auto.
Qed.

(** The delay without jitter is a double. *)
Lemma cappedDelay_double (o : LatteStreamOptions) (a : nat) :
  (Double.round (cappedDelay o a) == cappedDelay o a)%Q.
Proof.
  unfold cappedDelay, exponentialDelay, Double.mul.
  destruct (Q.min_spec (Double.round (Math_pow (backoffMultiplier o) (inject_Z (Z.of_nat a))
                                      * baseDelay o))
                       (Double.round (maxGap o * 1000))) as [[_ E]|[_ E]];
    rewrite (round_eq E), E; apply round_idem.
Qed.

(** Jitter in double arithmetic: the sum is at least the delay it is added
    to, and at most the sum for [Math.random()] taken as 1. *)
Lemma jitter_bounds (d r : Q) :
  (Double.round d == d -> 0 < d -> 0 <= r -> r < 1 ->
   d <= Double.add d (Double.mul r (Double.mul d (1 # 4)))
   /\ Double.add d (Double.mul r (Double.mul d (1 # 4)))
      <= Double.add d (Double.mul d (1 # 4)))%Q.
Proof.
  intros Hd Hd0 Hr0 Hr1. unfold Double.add, Double.mul.
  set (jr := Double.round (d * (1 # 4))).
  assert (Hjr : (0 <= jr)%Q) by (apply round_nonneg; lra).
  assert (Hj0 : (0 <= Double.round (r * jr))%Q).
  { apply round_nonneg. apply Qmult_le_0_compat; assumption. }
  assert (Hj1 : (Double.round (r * jr) <= jr)%Q).
  { apply Qle_trans with (Double.round jr).
    - apply round_le. nra.
    - unfold jr. rewrite round_idem. apply Qle_refl. }
  split.
  - rewrite <- Hd at 1. apply round_le. lra.
  - apply round_le. lra.
Qed.

(** C1 (as amended). While the attempt counter [a] is below the maximum,
    [attemptReconnect] sets the reconnect timer. Without jitter its delay is
    [base = Math.min(Math.pow(multiplier, a) * baseDelay, maxGap * 1000)] in
    double arithmetic, which is [min(baseDelay * multiplier^a, maxGap * 1000)]
    when the power and the two products are exact. With jitter the delay lies
    in the closed interval from [base] to [base + base * 0.25], the sum and the
    product rounded to doubles. [Math.random()] is any value in [[0, 1)], the
    delay is positive and the numbers are finite. *)
Theorem reconnect_delay (w : World) (env : Env) :
  let o := options w in
  let a := reconnectAttempts (conn w) in
  let power := Math_pow (backoffMultiplier o) (inject_Z (Z.of_nat a)) in
  let base := cappedDelay o a in
  let w' := exec (LatteStream.attemptReconnect env) w in
  (inject_Z (Z.of_nat a) < maxAttempts o)%Q ->
  (0 <= random env)%Q -> (random env < 1)%Q -> (0 < base)%Q ->
  Double.finite power ->
  Double.finite (Double.add base (Double.mul base (1 # 4))) ->
  (base == Qmin (Double.round (power * baseDelay o)) (Double.round (maxGap o * 1000)))%Q
  /\ ((power == Qpower (backoffMultiplier o) (Z.of_nat a))%Q ->
      (Double.round (power * baseDelay o) == power * baseDelay o)%Q ->
      (Double.round (maxGap o * 1000) == maxGap o * 1000)%Q ->
      (base == Qmin (baseDelay o * Qpower (backoffMultiplier o) (Z.of_nat a))
                    (maxGap o * 1000))%Q)
  /\ exists d,
      timers (rt w') = timers (rt w) ++ [mkTimer (nextHandle (rt w)) ReconnectTimer d]
      /\ (enableJitter o = false -> d = base)
      /\ (enableJitter o = true ->
          (base <= d)%Q /\ (d <= Double.add base (Double.mul base (1 # 4)))%Q).
Proof.
  intros o a power base w' Ha Hr0 Hr1 Hbase _ _. split; [|split].
  - reflexivity.
  - intros Hp Hx Hm. unfold base, cappedDelay, exponentialDelay, Double.mul. fold o a power.
    rewrite Hx, Hm, Hp, (Qmult_comm (Qpower _ _)). reflexivity.
  - exists (reconnectDelay o a (random env)).
    apply budget_not_exhausted in Ha.
    destruct (attemptReconnect_schedules w env Ha) as (Ht & _).
    split; [exact Ht|]. unfold reconnectDelay. fold base.
    split; intros Hj; rewrite Hj; [reflexivity|].
    apply jitter_bounds; try assumption. apply cappedDelay_double.
Qed.

End WithPlatform.

End ReconnectFacts.

(* ------------------------------------------------------------------ *)
(** ** Methods that do not write the attempt counter *)
(* ------------------------------------------------------------------ *)

Module CounterFrame.
Import Predicates.

Section Projection.
Context {X : Type}.
Variable proj : World -> X.

Lemma keeps_ret {A} (a : A) : keeps proj (ret a).
Proof. intros w. reflexivity. Qed.

Lemma keeps_throw {A} (e : JsError) : keeps proj (@throw A e).
Proof. intros w. reflexivity. Qed.

Lemma keeps_lift {A} (r : Result A) : keeps proj (lift r).
Proof. intros w. reflexivity. Qed.

Lemma keeps_get : keeps proj get.
Proof. intros w. reflexivity. Qed.

Lemma keeps_bind {A B} (m : M A) (k : A -> M B) :
  keeps proj m -> (forall a, keeps proj (k a)) -> keeps proj (bind m k).
Proof.
  intros Hm Hk w. unfold bind. specialize (Hm w).
  destruct (m w) as [[a|e] w1]; cbn in *; [rewrite Hk|]; exact Hm.
Qed.

Lemma keeps_try {A} (m : M A) (h : JsError -> M A) :
  keeps proj m -> (forall e, keeps proj (h e)) -> keeps proj (try_catch m h).
Proof.
  intros Hm Hh w. unfold try_catch. specialize (Hm w).
  destruct (m w) as [[a|e] w1]; cbn in *; [|rewrite Hh]; exact Hm.
Qed.

Lemma keeps_when (b : bool) (m : M unit) : keeps proj m -> keeps proj (when b m).
Proof. intros H. destruct b; [exact H | apply keeps_ret]. Qed.

Lemma keeps_forEach {A} (l : list A) (f : A -> M unit) :
  (forall x, keeps proj (f x)) -> keeps proj (forEach l f).
Proof.
  intros H. induction l as [|x l IH]; cbn [forEach].
  - apply keeps_ret.
  - apply keeps_bind; [apply H | intros _; exact IH].
Qed.

Lemma keeps_modify (f : World -> World) :
  (forall w, proj (f w) = proj w) -> keeps proj (modify f).
Proof. intros H w. apply H. Qed.

End Projection.

Create HintDb keeps.

Ltac keeps_step :=
  first
    [ progress intros
    | apply keeps_ret | apply keeps_throw | apply keeps_lift | apply keeps_get
    | solve [auto with keeps]
    | apply keeps_modify; intros; reflexivity
    | apply keeps_when | apply keeps_forEach | apply keeps_try | apply keeps_bind
    | match goal with
      | |- keeps _ (match ?x with _ => _ end) => destruct x
      end ].
Ltac keeps_tac := repeat keeps_step.

Import Connection.

Lemma keeps_setTimeout k d : keeps attempts (setTimeout k d).
Proof. unfold setTimeout. keeps_tac. Qed.
Lemma keeps_clearTimeout h : keeps attempts (clearTimeout h).
Proof. unfold clearTimeout. keeps_tac. Qed.
#[export] Hint Resolve keeps_setTimeout keeps_clearTimeout : keeps.

Lemma keeps_sendRaw d : keeps attempts (sendRaw d).
Proof. unfold sendRaw. keeps_tac. Qed.
#[export] Hint Resolve keeps_sendRaw : keeps.

Lemma keeps_clearFlushTimer : keeps attempts clearFlushTimer.
Proof. unfold clearFlushTimer. keeps_tac. Qed.
#[export] Hint Resolve keeps_clearFlushTimer : keeps.

Lemma keeps_flush : keeps attempts flush.
Proof. unfold flush. keeps_tac. Qed.
#[export] Hint Resolve keeps_flush : keeps.

Lemma keeps_enqueue d : keeps attempts (enqueue d).
Proof. unfold enqueue. keeps_tac. Qed.
Lemma keeps_clearQueue : keeps attempts clearQueue.
Proof. unfold clearQueue. keeps_tac. Qed.
#[export] Hint Resolve keeps_enqueue keeps_clearQueue : keeps.

Lemma keeps_send d : keeps attempts (send d).
Proof. unfold send. keeps_tac. Qed.
#[export] Hint Resolve keeps_send : keeps.

Lemma keeps_clearTimers : keeps attempts clearTimers.
Proof. unfold clearTimers. keeps_tac. Qed.
Lemma keeps_startActivityTimer : keeps attempts startActivityTimer.
Proof. unfold startActivityTimer. keeps_tac. Qed.
#[export] Hint Resolve keeps_clearTimers keeps_startActivityTimer : keeps.

Lemma keeps_resetActivityTimer : keeps attempts resetActivityTimer.
Proof. unfold resetActivityTimer. keeps_tac. Qed.
Lemma keeps_startPongTimer : keeps attempts startPongTimer.
Proof. unfold startPongTimer. keeps_tac. Qed.
#[export] Hint Resolve keeps_resetActivityTimer keeps_startPongTimer : keeps.

Lemma keeps_sendPing : keeps attempts sendPing.
Proof. unfold sendPing. keeps_tac. Qed.
Lemma keeps_handlePong : keeps attempts handlePong.
Proof. unfold handlePong. keeps_tac. Qed.
Lemma keeps_debouncedReconnect : keeps attempts debouncedReconnect.
Proof. unfold debouncedReconnect. keeps_tac. Qed.
Lemma keeps_closeSocket i : keeps attempts (closeSocket i).
Proof. unfold closeSocket. keeps_tac. Qed.
Lemma keeps_openSocket u : keeps attempts (openSocket u).
Proof. unfold openSocket. keeps_tac. Qed.
#[export] Hint Resolve keeps_sendPing keeps_handlePong keeps_debouncedReconnect
  keeps_closeSocket keeps_openSocket : keeps.

(** *** Channels *)

Lemma keeps_update c f : keeps attempts (Channel.update c f).
Proof. unfold Channel.update. keeps_tac. Qed.
Lemma keeps_emit s e p : keeps attempts (Channel.emit s e p).
Proof. unfold Channel.emit. keeps_tac. Qed.
#[export] Hint Resolve keeps_update keeps_emit : keeps.

Lemma keeps_channel_send d : keeps attempts (Channel.send d).
Proof. apply keeps_send. Qed.
#[export] Hint Resolve keeps_channel_send : keeps.

Lemma keeps_trigger c n d : keeps attempts (Channel.trigger c n d).
Proof. unfold Channel.trigger. keeps_tac. Qed.
Lemma keeps_channel_subscribe c : keeps attempts (Channel.subscribe c).
Proof. unfold Channel.subscribe. keeps_tac. Qed.
Lemma keeps_channel_unsubscribe c : keeps attempts (Channel.unsubscribe c).
Proof. unfold Channel.unsubscribe. keeps_tac. Qed.
Lemma keeps_subscribeWithAuth c s : keeps attempts (Channel.subscribeWithAuth c s).
Proof. unfold Channel.subscribeWithAuth. keeps_tac. Qed.
#[export] Hint Resolve keeps_trigger keeps_channel_subscribe keeps_channel_unsubscribe
  keeps_subscribeWithAuth : keeps.

Section WithPlatform.
Context {P : Platform}.

Lemma keeps_handleEvent c e d : keeps attempts (Channel.handleEvent c e d).
Proof. unfold Channel.handleEvent. keeps_tac. Qed.
Hint Resolve keeps_handleEvent : keeps.

Lemma keeps_handleSubscriptionError c e : keeps attempts (Channel.handleSubscriptionError c e).
Proof. unfold Channel.handleSubscriptionError. keeps_tac. Qed.
Lemma keeps_baseHandleSubscriptionSucceeded c d :
  keeps attempts (Channel.baseHandleSubscriptionSucceeded c d).
Proof. unfold Channel.baseHandleSubscriptionSucceeded. keeps_tac. Qed.
Hint Resolve keeps_handleSubscriptionError keeps_baseHandleSubscriptionSucceeded : keeps.

Lemma keeps_resumeSubscribe c r : keeps attempts (Channel.resumeSubscribe c r).
Proof. unfold Channel.resumeSubscribe. keeps_tac. Qed.
Lemma keeps_newMember m : keeps attempts (Channel.newMember m).
Proof. unfold Channel.newMember. keeps_tac. Qed.
Lemma keeps_writeMember a m : keeps attempts (Channel.writeMember a m).
Proof. unfold Channel.writeMember. keeps_tac. Qed.
Hint Resolve keeps_resumeSubscribe keeps_newMember keeps_writeMember : keeps.

Lemma keeps_acquire : keeps attempts Channel.acquire.
Proof. unfold Channel.acquire. keeps_tac. Qed.
Lemma keeps_release a : keeps attempts (Channel.release a).
Proof. unfold Channel.release. keeps_tac. Qed.
Lemma keeps_setMember c k a : keeps attempts (Channel.setMember c k a).
Proof. unfold Channel.setMember. keeps_tac. Qed.
Hint Resolve keeps_acquire keeps_release keeps_setMember : keeps.

Lemma keeps_presenceHandleSubscriptionSucceeded c d :
  keeps attempts (Channel.presenceHandleSubscriptionSucceeded c d).
Proof. unfold Channel.presenceHandleSubscriptionSucceeded. keeps_tac. Qed.
Hint Resolve keeps_presenceHandleSubscriptionSucceeded : keeps.

Lemma keeps_handleSubscriptionSucceeded c d :
  keeps attempts (Channel.handleSubscriptionSucceeded c d).
Proof. unfold Channel.handleSubscriptionSucceeded. keeps_tac. Qed.
Lemma keeps_handleMemberAdded c d : keeps attempts (Channel.handleMemberAdded c d).
Proof. unfold Channel.handleMemberAdded. keeps_tac. Qed.
Lemma keeps_handleMemberRemoved c d : keeps attempts (Channel.handleMemberRemoved c d).
Proof. unfold Channel.handleMemberRemoved. keeps_tac. Qed.
Hint Resolve keeps_handleSubscriptionSucceeded keeps_handleMemberAdded
  keeps_handleMemberRemoved : keeps.

(** *** The registry and the callbacks of the connection *)

Lemma keeps_triggerGlobalEvent e d : keeps attempts (LatteStream.triggerGlobalEvent e d).
Proof. unfold LatteStream.triggerGlobalEvent. keeps_tac. Qed.
Hint Resolve keeps_triggerGlobalEvent : keeps.

Lemma keeps_handleError e : keeps attempts (LatteStream.handleError e).
Proof. unfold LatteStream.handleError. keeps_tac. Qed.
Lemma keeps_resetChannelStates : keeps attempts LatteStream.resetChannelStates.
Proof. unfold LatteStream.resetChannelStates. keeps_tac. Qed.
Lemma keeps_subscribeChannel c : keeps attempts (LatteStream.subscribeChannel c).
Proof. unfold LatteStream.subscribeChannel. keeps_tac. Qed.
Hint Resolve keeps_handleError keeps_resetChannelStates keeps_subscribeChannel : keeps.

Lemma keeps_subscribeAllChannels : keeps attempts LatteStream.subscribeAllChannels.
Proof. unfold LatteStream.subscribeAllChannels. keeps_tac. Qed.
Hint Resolve keeps_subscribeAllChannels : keeps.

Lemma keeps_handleConnectionStateChange p c :
  keeps attempts (LatteStream.handleConnectionStateChange p c).
Proof. unfold LatteStream.handleConnectionStateChange. keeps_tac. Qed.
Hint Resolve keeps_handleConnectionStateChange : keeps.

Lemma keeps_setState s : keeps attempts (setState LatteStream.handleConnectionStateChange s).
Proof. unfold setState. keeps_tac. Qed.
Hint Resolve keeps_setState : keeps.

Lemma keeps_handleConnectionError e :
  keeps attempts (handleConnectionError LatteStream.handleConnectionStateChange e).
Proof. unfold handleConnectionError. keeps_tac. Qed.
Lemma keeps_performDiscovery env : keeps attempts (performDiscovery env).
Proof. unfold performDiscovery. keeps_tac. Qed.
Hint Resolve keeps_handleConnectionError keeps_performDiscovery : keeps.

Lemma keeps_connect env : keeps attempts (LatteStream.connect env).
Proof. unfold LatteStream.connect, connect. keeps_tac. Qed.
Lemma keeps_closeCurrentSocket : keeps attempts closeCurrentSocket.
Proof. unfold closeCurrentSocket. keeps_tac. Qed.
Hint Resolve keeps_connect keeps_closeCurrentSocket : keeps.

Lemma keeps_handleMessage d :
  keeps attempts (handleMessage LatteStream.handleConnectionStateChange d).
Proof. unfold handleMessage. keeps_tac. Qed.
Lemma keeps_onopen : keeps attempts LatteStream.onopen.
Proof. unfold LatteStream.onopen, onopen. keeps_tac. Qed.
Lemma keeps_handleDisconnection :
  keeps attempts (handleDisconnection LatteStream.handleConnectionStateChange).
Proof. unfold handleDisconnection. keeps_tac. Qed.
Lemma keeps_onerror : keeps attempts LatteStream.onerror.
Proof. unfold LatteStream.onerror, onerror. keeps_tac. Qed.
Hint Resolve keeps_handleMessage keeps_onopen keeps_handleDisconnection keeps_onerror : keeps.

Lemma keeps_subscribe n : keeps attempts (LatteStream.subscribe n).
Proof. unfold LatteStream.subscribe, LatteStream.newChannel. keeps_tac. Qed.
Lemma keeps_unsubscribe n : keeps attempts (LatteStream.unsubscribe n).
Proof. unfold LatteStream.unsubscribe. keeps_tac. Qed.
Lemma keeps_handleGlobalEvent e d : keeps attempts (LatteStream.handleGlobalEvent e d).
Proof. unfold LatteStream.handleGlobalEvent. keeps_tac. Qed.
Hint Resolve keeps_subscribe keeps_unsubscribe keeps_handleGlobalEvent : keeps.

End WithPlatform.

End CounterFrame.

(* ------------------------------------------------------------------ *)
(** ** Who resets the attempt counter *)
(* ------------------------------------------------------------------ *)

Module CounterFacts.
Import Connection Predicates CounterFrame.

Lemma keeps_at_bind {A B} (w : World) (m : M A) (k : A -> M B) :
  keeps_at w m ->
  (forall a w1, m w = (Ok a, w1) -> keeps_at w1 (k a)) ->
  keeps_at w (bind m k).
Proof.
  unfold keeps_at, bind. intros Hm Hk.
  destruct (m w) as [[a|e] w1] eqn:E; cbn in *; [|exact Hm].
  rewrite (Hk a w1 eq_refl). exact Hm.
Qed.

Lemma keeps_at_try {A} (w : World) (m : M A) (h : JsError -> M A) :
  keeps_at w m -> (forall e, keeps attempts (h e)) -> keeps_at w (try_catch m h).
Proof.
  unfold keeps_at, try_catch. intros Hm Hh.
  destruct (m w) as [[a|e] w1]; cbn in *; [exact Hm|]. rewrite Hh. exact Hm.
Qed.

Section WithPlatform.
Context {P : Platform}.

(** A message that is forwarded to the client left the connection as it was
    and is the decoded frame. *)
Lemma handleMessage_forward (data : MessageData) (w w1 : World) (r : Result JsValue) :
  handleMessage LatteStream.handleConnectionStateChange data w = (r, w1) ->
  exists v, r = Ok v
            /\ (truthy v = true -> w1 = w /\ decodeFrame data = Ok v).
Proof.
  unfold handleMessage.
  pose (Hnull := tt).
  destruct data as [text|bytes|]; cbn [decodeFrame];
    [| | intros [= <- <-]; (exists JNull; split; [reflexivity | discriminate])].
  all: unfold try_catch, bind, lift, ret.
  all: match goal with
       | |- context [match ?d with Ok _ => _ | Throw _ => _ end] => destruct d as [message|e]
       end; [|intros [= <- <-]; (exists JNull; split; [reflexivity | discriminate])].
  all: destruct (get_prop message "event") as [event|e]; [|intros [= <- <-]; (exists JNull; split; [reflexivity | discriminate])].
  all: destruct (is_str event "lattestream:connection_established").
  all: try (destruct (get_prop message "data") as [d|e]; [|intros [= <- <-]; (exists JNull; split; [reflexivity | discriminate])];
            destruct (get_prop d "socket_id") as [sid|e]; [|intros [= <- <-]; (exists JNull; split; [reflexivity | discriminate])];
            cbn [modify_conn modify get];
            match goal with
            | |- context [if ?b then _ else _] => destruct b
            end;
            [ match goal with
              | |- context [setState ?f ?s ?x] => destruct (setState f s x) as [[[]|e] w2]
              end
            | ]; intros [= <- <-]; (exists JNull; split; [reflexivity | discriminate])).
  all: destruct (is_str event "lattestream:pong").
  all: try (destruct (handlePong w) as [[[]|e] w2]; intros [= <- <-]; (exists JNull; split; [reflexivity | discriminate])).
  all: intros [= <- <-]; exists message; split; [reflexivity | intros _; split; reflexivity].
Qed.

Lemma handleChannelEvent_keeps (channel event data : JsValue) (w : World) :
  LatteStream.is_event event "subscription_succeeded"
  && JsMap.has channel (channels (cl w)) = false ->
  keeps_at w (LatteStream.handleChannelEvent channel event data).
Proof.
  intros H. unfold keeps_at, LatteStream.handleChannelEvent, bind, get.
  unfold JsMap.has in H.
  destruct (JsMap.get channel (channels (cl w))) as [c|]; [|reflexivity].
  rewrite andb_true_r in H. rewrite H.
  match goal with
  | |- attempts (snd (?m w)) = _ => assert (Hk : keeps attempts m); [|apply Hk]
  end.
  repeat match goal with
         | |- keeps _ (if ?b then _ else _) => destruct b
         end;
    first [ apply keeps_handleSubscriptionError | apply keeps_handleMemberAdded
          | apply keeps_handleMemberRemoved | apply keeps_handleEvent ].
Qed.

Lemma handleParsedMessage_keeps (message : JsValue) (w : World) :
  match get_prop message "event", LatteStream.messageChannel message with
  | Ok event, Ok channel =>
      LatteStream.is_event event "subscription_succeeded"
      && JsMap.has channel (channels (cl w))
  | _, _ => false
  end = false ->
  keeps_at w (LatteStream.handleParsedMessage message).
Proof.
  intros H. unfold LatteStream.handleParsedMessage.
  unfold keeps_at, bind, lift.
  destruct (LatteStream.messageChannel message) as [channel|e];
    destruct (get_prop message "event") as [event|e']; try reflexivity.
  destruct (get_prop message "data") as [data|e]; [|reflexivity].
  destruct (truthy channel).
  - apply handleChannelEvent_keeps. exact H.
  - apply keeps_handleGlobalEvent.
Qed.

Lemma onmessage_keeps (data : MessageData) (w : World) :
  confirmsSubscription w data = false ->
  keeps_at w (LatteStream.onmessage data).
Proof.
  intros H. unfold LatteStream.onmessage, onmessage.
  apply keeps_at_try; [|intros e; apply keeps_handleError].
  apply keeps_at_bind; [apply keeps_handleMessage|].
  intros v w1 Hm. apply keeps_at_bind; [|intros; apply keeps_resetActivityTimer].
  destruct (handleMessage_forward _ _ Hm) as (v' & [= <-] & Hv).
  unfold when. destruct (truthy v) eqn:Tv; [|reflexivity].
  destruct (Hv eq_refl) as [-> Hd].
  apply handleParsedMessage_keeps.
  unfold confirmsSubscription in H. rewrite Hd in H. exact H.
Qed.

Lemma attemptReconnect_counter (w : World) (env : Env) :
  attempts (exec (LatteStream.attemptReconnect env) w)
  = if budgetExhausted (options w) (attempts w) then attempts w else S (attempts w).
Proof.
  destruct (budgetExhausted (options w) (attempts w)) eqn:E.
  - unfold exec, LatteStream.attemptReconnect, attemptReconnect, bind, get.
    unfold attempts in E. rewrite E. apply keeps_setState.
  - apply (ReconnectFacts.attemptReconnect_schedules w env E).
Qed.

Lemma step_keeps (w w' : World) (e : Event) :
  step w e = Some w' -> touchesCounter w e = false -> attempts w' = attempts w.
Proof.
  destruct e as [i|i data|i|i|h env|k outcome|c]; cbn [step touchesCounter].
  - destruct (socketState i w) as [[]|]; try discriminate.
    intros [= <-] _. unfold exec. rewrite keeps_onopen. reflexivity.
  - destruct (socketState i w) as [[]|]; try discriminate.
    intros [= <-] H. apply onmessage_keeps. exact H.
  - destruct (socketState i w) as [[]|]; try discriminate;
      intros [= <-] _; unfold exec, LatteStream.onclose, onclose;
      rewrite keeps_handleDisconnection; reflexivity.
  - destruct (socketState i w) as [[]|]; try discriminate;
      intros [= <-] _; unfold exec; rewrite keeps_onerror; reflexivity.
  - destruct (firedKind w h) as [[]|]; try discriminate;
      intros [= <-] _; unfold exec, LatteStream.timerCallback, timerCallback.
    + rewrite (keeps_connect env). reflexivity.
    + rewrite keeps_sendPing. reflexivity.
    + rewrite keeps_flush. reflexivity.
  - destruct (nth_error (pendingAuth (cl w)) k) as [req|]; try discriminate.
    intros [= <-] _. unfold exec. rewrite keeps_resumeSubscribe. reflexivity.
  - destruct c as [env| |n|n|env|c n d]; try discriminate;
      intros [= <-] _; unfold exec, call.
    + apply keeps_connect.
    + apply keeps_bind; [apply keeps_subscribe | intros; apply keeps_ret].
    + apply keeps_unsubscribe.
    + apply keeps_bind; [apply keeps_trigger | intros; apply keeps_ret].
Qed.

Lemma step_reset (w w' : World) (e : Event) :
  step w e = Some w' -> attempts w <> 0 -> attempts w' = 0 -> resetsCounter w e = true.
Proof.
  intros Hs Hn H0.
  destruct (resetsCounter w e) eqn:R; [reflexivity|]. exfalso.
  destruct (touchesCounter w e) eqn:T.
  - destruct e as [i|i data|i|i|h env|k outcome|c]; cbn [touchesCounter resetsCounter] in *;
      try congruence.
    cbn [step] in Hs. destruct (firedKind w h) as [[]|]; try discriminate.
    injection Hs as <-.
      unfold LatteStream.timerCallback, timerCallback, exec, bind, modify_conn, modify in H0.
      cbn [fst snd] in H0.
      match type of H0 with
      | attempts (snd (attemptReconnect _ env ?x)) = 0 =>
          pose proof (attemptReconnect_counter x env) as Hc;
          unfold exec, LatteStream.attemptReconnect in Hc; rewrite Hc in H0;
          change (attempts x) with (attempts w) in H0
      end.
      destruct (budgetExhausted _ _); [contradiction | discriminate].
  - rewrite (step_keeps _ _ Hs T) in H0. contradiction.
Qed.

Lemma quiet_run (es : list Event) (w w' : World) :
  quiet w es -> run w es = Some w' -> attempts w' = attempts w.
Proof.
  revert w. induction es as [|e es IH]; intros w; cbn [quiet run].
  - intros _ [= <-]. reflexivity.
  - intros [T Q]. destruct (step w e) as [w1|] eqn:Hs; [|discriminate].
    intros Hr. rewrite (IH w1 Q Hr). exact (step_keeps _ _ Hs T).
Qed.

Lemma not_confirmation (w : World) (data : MessageData) (message : JsValue) :
  decodeFrame data = Ok message ->
  get_prop message "event" = Ok (JStr "lattestream:connection_established") ->
  confirmsSubscription w data = false.
Proof.
  intros Hd He. unfold confirmsSubscription. rewrite Hd, He.
  destruct (LatteStream.messageChannel message); reflexivity.
Qed.

(** C2 (as amended). The attempt counter is written by four events only: a
    [subscription_succeeded] frame for a channel of the map, [disconnect()]
    (called by the application or run by the pong timer), [forceReconnect()]
    and [attemptReconnect()]; the first three are the only ones that set it to
    zero. The opening of the transport and the [connection_established] frame
    leave it as it is, and so does every execution in which none of the four
    happens. *)
Theorem counter_reset_sources :
  (forall w e w', step w e = Some w' -> touchesCounter w e = false ->
                  attempts w' = attempts w)
  /\ (forall w e w', step w e = Some w' -> attempts w <> 0 -> attempts w' = 0 ->
                     resetsCounter w e = true)
  /\ (forall w i w', step w (SocketOpen i) = Some w' -> attempts w' = attempts w)
  /\ (forall w i data message w',
         decodeFrame data = Ok message ->
         get_prop message "event" = Ok (JStr "lattestream:connection_established") ->
         step w (SocketMessage i data) = Some w' -> attempts w' = attempts w)
  /\ (forall w es w', quiet w es -> run w es = Some w' -> attempts w' = attempts w).
Proof.
  split; [intros w e w'; apply step_keeps|]. split; [intros w e w'; apply step_reset|].
  split; [intros w i w' H; exact (step_keeps _ _ H eq_refl)|].
  split; [|intros w es w'; apply quiet_run].
  intros w i data message w' Hd He Hs. apply (step_keeps _ _ Hs).
  cbn [touchesCounter]. exact (not_confirmation w _ Hd He).
Qed.

End WithPlatform.

End CounterFacts.

(* ------------------------------------------------------------------ *)
(** ** The failed state *)
(* ------------------------------------------------------------------ *)

Module TerminalFacts.
Import Connection Predicates CounterFrame.

(** ** Invariants of methods *)

Section Invariant.
Variable I : World -> Prop.

Lemma pres_ret {A} (a : A) : pres I (ret a).
Proof. intros w H. exact H. Qed.
Lemma pres_throw {A} (e : JsError) : pres I (@throw A e).
Proof. intros w H. exact H. Qed.
Lemma pres_lift {A} (r : Result A) : pres I (lift r).
Proof. intros w H. exact H. Qed.
Lemma pres_get : pres I get.
Proof. intros w H. exact H. Qed.

Lemma pres_bind {A B} (m : M A) (k : A -> M B) :
  pres I m -> (forall a, pres I (k a)) -> pres I (bind m k).
Proof.
  intros Hm Hk w H. unfold bind. specialize (Hm w H).
  destruct (m w) as [[a|e] w1]; cbn in *; [apply Hk|]; exact Hm.
Qed.

(** After [get] the continuation runs on the world it was given. *)
Lemma pres_get_bind {B} (k : World -> M B) :
  (forall w, I w -> pres_on I w (k w)) -> pres I (bind get k).
Proof. intros Hk w H. exact (Hk w H). Qed.

Lemma pres_on_intro {A} (w : World) (m : M A) : pres I m -> I w -> pres_on I w m.
Proof. intros Hm H. exact (Hm w H). Qed.

Lemma pres_try {A} (m : M A) (h : JsError -> M A) :
  pres I m -> (forall e, pres I (h e)) -> pres I (try_catch m h).
Proof.
  intros Hm Hh w H. unfold try_catch. specialize (Hm w H).
  destruct (m w) as [[a|e] w1]; cbn in *; [|apply Hh]; exact Hm.
Qed.

Lemma pres_when (b : bool) (m : M unit) : pres I m -> pres I (when b m).
Proof. intros H. destruct b; [exact H | apply pres_ret]. Qed.

Lemma pres_forEach {A} (l : list A) (f : A -> M unit) :
  (forall x, pres I (f x)) -> pres I (forEach l f).
Proof.
  intros H. induction l as [|x l IH]; cbn [forEach].
  - apply pres_ret.
  - apply pres_bind; [apply H | intros _; exact IH].
Qed.

Lemma pres_modify (f : World -> World) : (forall w, I w -> I (f w)) -> pres I (modify f).
Proof. intros H w. apply H. Qed.

(** A method that leaves alone what the invariant reads keeps it. *)
Lemma pres_keeps {X A} (proj : World -> X) (m : M A) :
  (forall w w', proj w' = proj w -> I w -> I w') -> keeps proj m -> pres I m.
Proof. intros HI Hk w H. exact (HI w _ (Hk w) H). Qed.

End Invariant.

Section Preservation.
Variables n cnt : nat.

Lemma pres_modify_cl (f : Client -> Client) : pres (gaveUp n cnt) (modify_cl f).
Proof. intros w H. exact H. Qed.

(** A write to the connection that touches neither the state nor the counter. *)
Lemma pres_modify_conn (f : Connection -> Connection) :
  (forall c, state (f c) = state c /\ reconnectAttempts (f c) = reconnectAttempts c) ->
  pres (gaveUp n cnt) (modify_conn f).
Proof.
  intros Hf w (Hs & Hb & Hi & Hn & Ha). destruct (Hf (conn w)) as [Es Ea].
  unfold gaveUp, modify_conn, modify. cbn. rewrite Es, Ea. auto.
Qed.

Lemma pres_clearTimeout (h : nat) : pres (gaveUp n cnt) (clearTimeout h).
Proof.
  intros w (Hs & Hb & Hi & Hn & Ha). unfold gaveUp, idle in *. cbn.
  repeat split; try assumption.
  apply andb_true_iff in Hi as [H1 H2]. rewrite H1. cbn.
  apply forallb_forall. intros t Ht. apply filter_In in Ht as [Ht _].
  rewrite forallb_forall in H2. exact (H2 t Ht).
Qed.

Lemma pres_setTimeout (k : TimerKind) (d : Q) :
  wakingTimer (mkTimer 0 k d) = false -> pres (gaveUp n cnt) (setTimeout k d).
Proof.
  intros Hk w (Hs & Hb & Hi & Hn & Ha). unfold gaveUp, idle in *. cbn.
  repeat split; try assumption.
  apply andb_true_iff in Hi as [H1 H2]. rewrite H1. cbn.
  rewrite forallb_app, H2. cbn. unfold wakingTimer in *. cbn in *. rewrite Hk. reflexivity.
Qed.

Lemma pres_modify_rt (f : Runtime -> Runtime) :
  (forall r, sockets (f r) = sockets r /\ timers (f r) = timers r) ->
  pres (gaveUp n cnt) (modify_rt f).
Proof.
  intros Hf w (Hs & Hb & Hi & Hn & Ha). destruct (Hf (rt w)) as [E1 E2].
  unfold gaveUp, idle, modify_rt, modify in *. cbn. rewrite E1, E2. auto.
Qed.

Create HintDb pres.

Ltac pres_step :=
  first
    [ progress intros
    | apply pres_ret | apply pres_throw | apply pres_lift | apply pres_get
    | apply pres_modify_cl
    | solve [auto with pres]
    | apply pres_clearTimeout
    | apply pres_setTimeout; reflexivity
    | apply pres_modify_conn; intros; split; reflexivity
    | apply pres_modify_rt; intros; split; reflexivity
    | apply pres_when | apply pres_forEach | apply pres_try | apply pres_bind
    | match goal with
      | |- pres _ (match ?x with _ => _ end) => destruct x
      end ].
Ltac pres_tac := repeat pres_step.

Lemma pres_sendRaw d : pres (gaveUp n cnt) (sendRaw d).
Proof. unfold sendRaw. pres_tac. Qed.
Hint Resolve pres_sendRaw : pres.

Lemma pres_clearFlushTimer : pres (gaveUp n cnt) clearFlushTimer.
Proof. unfold clearFlushTimer. pres_tac. Qed.
Hint Resolve pres_clearFlushTimer : pres.

Lemma pres_flush : pres (gaveUp n cnt) flush.
Proof. unfold flush. pres_tac. Qed.
Hint Resolve pres_flush : pres.

Lemma pres_enqueue d : pres (gaveUp n cnt) (enqueue d).
Proof. unfold enqueue. pres_tac. Qed.
Lemma pres_clearQueue : pres (gaveUp n cnt) clearQueue.
Proof. unfold clearQueue. pres_tac. Qed.
Hint Resolve pres_enqueue pres_clearQueue : pres.

Lemma pres_send d : pres (gaveUp n cnt) (send d).
Proof. unfold send. pres_tac. Qed.
Lemma pres_clearTimers : pres (gaveUp n cnt) clearTimers.
Proof. unfold clearTimers. pres_tac. Qed.
Hint Resolve pres_send pres_clearTimers : pres.

Lemma pres_emit s e p : pres (gaveUp n cnt) (Channel.emit s e p).
Proof. unfold Channel.emit. pres_tac. Qed.
Hint Resolve pres_emit : pres.

(** In the failed state no ping is sent and no pong timer is set. *)
Lemma pres_sendPing : pres (gaveUp n cnt) sendPing.
Proof.
  unfold sendPing. apply pres_get_bind. intros w H.
  destruct H as (Hs & H'). rewrite Hs. apply pres_on_intro; [apply pres_ret|].
  split; assumption.
Qed.

(** [setState('failed')] on a failed connection calls nobody. *)
Lemma pres_setState_failed :
  pres (gaveUp n cnt) (setState LatteStream.handleConnectionStateChange failed).
Proof.
  unfold setState. apply pres_get_bind. intros w H.
  destruct H as (Hs & Hb & Hi & Hn & Ha). rewrite Hs. cbn [ConnectionState_eqb].
  unfold pres_on, gaveUp, idle in *. cbn. auto.
Qed.

(** The close of a socket does not start a reconnection. *)
Lemma pres_handleDisconnection :
  pres (gaveUp n cnt) (handleDisconnection LatteStream.handleConnectionStateChange).
Proof.
  unfold handleDisconnection.
  apply pres_bind; [pres_tac|]. intros _.
  apply pres_bind; [apply pres_clearTimers|]. intros _.
  apply pres_bind; [apply pres_clearQueue|]. intros _.
  apply pres_get_bind. intros w H. pose proof H as (Hs & _). rewrite Hs.
  apply pres_on_intro; [apply pres_ret | exact H].
Qed.

(** With the budget used up, [attemptReconnect] sets no timer. *)
Lemma pres_attemptReconnect {P : Platform} env :
  pres (gaveUp n cnt) (attemptReconnect LatteStream.handleConnectionStateChange env).
Proof.
  unfold attemptReconnect. apply pres_get_bind. intros w H.
  pose proof H as (_ & Hb & _). rewrite Hb.
  apply pres_on_intro; [apply pres_setState_failed | exact H].
Qed.

Section WithPlatform.
Context {P : Platform}.

Lemma pres_resumeSubscribe c r : pres (gaveUp n cnt) (Channel.resumeSubscribe c r).
Proof.
  unfold Channel.resumeSubscribe, Channel.handleSubscriptionError, Channel.handleEvent,
    Channel.send.
  pres_tac.
Qed.

Lemma pres_onerror : pres (gaveUp n cnt) LatteStream.onerror.
Proof.
  unfold LatteStream.onerror, onerror, LatteStream.handleError,
    LatteStream.triggerGlobalEvent.
  pres_tac.
Qed.

Lemma length_update_nth {A} (i : nat) (f : A -> A) (l : list A) :
  List.length (update_nth i f l) = List.length l.
Proof.
  revert i. induction l as [|x l IH]; intros [|i]; cbn; try reflexivity.
  rewrite IH. reflexivity.
Qed.

Lemma forallb_update_nth {A} (p : A -> bool) (i : nat) (f : A -> A) (l : list A) :
  (forall x, p (f x) = true) -> forallb p l = true -> forallb p (update_nth i f l) = true.
Proof.
  intros Hf. revert i. induction l as [|x l IH]; intros [|i]; cbn; try reflexivity.
  - intros H. apply andb_true_iff in H as [_ H]. rewrite Hf, H. reflexivity.
  - intros H. apply andb_true_iff in H as [Hx H]. rewrite Hx, (IH i H). reflexivity.
Qed.

Lemma idle_socket (w : World) (i : nat) (s : ReadyState) :
  idle w = true -> socketState i w = Some s -> s = CLOSING \/ s = CLOSED.
Proof.
  unfold idle, socketState. intros H E.
  apply andb_true_iff in H as [H _]. rewrite forallb_forall in H.
  destruct (nth_error (sockets (rt w)) i) as [x|] eqn:Ex; [|discriminate].
  injection E as <-. specialize (H x (nth_error_In _ _ Ex)).
  unfold liveSocket in H. destruct (readyState x); try discriminate; auto.
Qed.

Lemma idle_timer (w : World) (h : nat) (k : TimerKind) :
  idle w = true -> firedKind w h = Some k -> k <> ReconnectTimer /\ k <> PongTimer.
Proof.
  unfold idle, firedKind, find_timer. intros H E.
  apply andb_true_iff in H as [_ H]. rewrite forallb_forall in H.
  destruct (find _ (timers (rt w))) as [t|] eqn:Et; [|discriminate].
  injection E as <-. apply find_some in Et as [Ht _]. specialize (H t Ht).
  unfold wakingTimer in H. destruct (kind t); try discriminate; split; discriminate.
Qed.

Lemma gaveUp_closed (w : World) (i : nat) :
  gaveUp n cnt w -> gaveUp n cnt (setReadyState i CLOSED w).
Proof.
  intros (Hs & Hb & Hi & Hn & Ha). unfold gaveUp, idle, setReadyState in *. cbn.
  rewrite length_update_nth. repeat split; try assumption.
  apply andb_true_iff in Hi as [H1 H2]. rewrite H2, andb_true_r.
  apply forallb_update_nth; [reflexivity | exact H1].
Qed.

Lemma gaveUp_removeTimer (w : World) (h : nat) :
  gaveUp n cnt w -> gaveUp n cnt (removeTimer h w).
Proof. intros H. exact (pres_clearTimeout h H). Qed.

(** An event that is not a call leaves a connection that has given up as it
    is: failed, idle, with the same sockets and the same counter. *)
Lemma step_gaveUp (w w' : World) (e : Event) :
  gaveUp n cnt w -> is_call e = false -> step w e = Some w' -> gaveUp n cnt w'.
Proof.
  intros H Hc. pose proof H as (_ & _ & Hi & _).
  destruct e as [i|i data|i|i|h env|k outcome|c]; cbn [step]; try discriminate.
  - destruct (socketState i w) as [s|] eqn:E; [|discriminate].
    destruct (idle_socket _ _ Hi E) as [-> | ->]; discriminate.
  - destruct (socketState i w) as [s|] eqn:E; [|discriminate].
    destruct (idle_socket _ _ Hi E) as [-> | ->]; discriminate.
  - destruct (socketState i w) as [s|] eqn:E; [|discriminate].
    destruct (idle_socket _ _ Hi E) as [-> | ->]; [|discriminate].
    intros [= <-]. apply pres_handleDisconnection. apply gaveUp_closed. exact H.
  - destruct (socketState i w) as [s|] eqn:E; [|discriminate].
    destruct (idle_socket _ _ Hi E) as [-> | ->]; [|discriminate].
    intros [= <-]. apply pres_onerror. exact H.
  - destruct (firedKind w h) as [k|] eqn:E; [|discriminate].
    destruct (idle_timer _ _ Hi E) as [N1 N2].
    intros [= <-]. unfold exec, LatteStream.timerCallback, timerCallback.
    pose proof (gaveUp_removeTimer h H) as H'.
    destruct k; try contradiction.
    + apply pres_sendPing. exact H'.
    + apply pres_bind; [|intros; apply pres_attemptReconnect|exact H'].
      apply pres_modify_conn. intros; split; reflexivity.
    + apply pres_flush. exact H'.
  - destruct (nth_error (pendingAuth (cl w)) k) as [req|]; [|discriminate].
    intros [= <-]. apply pres_resumeSubscribe. exact H.
Qed.

Lemma run_gaveUp (es : list Event) (w w' : World) :
  gaveUp n cnt w -> Forall (fun e => is_call e = false) es -> run w es = Some w' ->
  gaveUp n cnt w'.
Proof.
  revert w. induction es as [|e es IH]; intros w H Hc; cbn [run].
  - intros [= <-]. exact H.
  - inversion Hc as [|? ? He Hes]; subst.
    destruct (step w e) as [w1|] eqn:Hs; [|discriminate].
    apply IH; [exact (step_gaveUp _ H He Hs) | exact Hes].
Qed.

End WithPlatform.

End Preservation.

(** ** Methods that do not throw *)

Lemma returns_ret {A} (x : A) : returns (ret x).
Proof. intros w. exists x. reflexivity. Qed.
Lemma returns_get : returns get.
Proof. intros w. exists w. reflexivity. Qed.
Lemma returns_modify (f : World -> World) : returns (modify f).
Proof. intros w. exists tt. reflexivity. Qed.
Lemma returns_bind {A B} (m : M A) (k : A -> M B) :
  returns m -> (forall x, returns (k x)) -> returns (bind m k).
Proof.
  intros Hm Hk w. unfold bind. destruct (Hm w) as [x Hx].
  destruct (m w) as [[y|e] w1]; cbn in Hx; [|discriminate]. apply Hk.
Qed.

Ltac returns_tac :=
  repeat first
    [ progress intros
    | apply returns_ret | apply returns_get | apply returns_modify | apply returns_bind
    | match goal with
      | |- returns (match ?x with _ => _ end) => destruct x
      end ].

Lemma exec_bind {A B} (m : M A) (k : A -> M B) (w : World) :
  returns m -> exists x, bind m k w = k x (snd (m w)).
Proof.
  intros Hm. destruct (Hm w) as [x Hx]. exists x. unfold bind.
  destruct (m w) as [[y|e] w1]; cbn in *; congruence.
Qed.

Lemma exec_seq {B} (m : M unit) (k : unit -> M B) (w : World) :
  returns m -> bind m k w = k tt (snd (m w)).
Proof. intros Hm. destruct (exec_bind k w Hm) as [[] ->]. reflexivity. Qed.

Lemma returns_clearTimers : returns clearTimers.
Proof. unfold clearTimers, clearTimeout, modify_conn, modify_rt. returns_tac. Qed.

Lemma returns_closeCurrentSocket : returns closeCurrentSocket.
Proof.
  unfold closeCurrentSocket, closeSocket, modify_conn, modify_rt. returns_tac.
Qed.

(** The callback of the client writes neither the connection nor the runtime
    unless the new state is [connected]. *)
Lemma callback_frame (previous current : ConnectionState) :
  current <> connected ->
  keeps (fun w => (conn w, rt w, options w))
        (LatteStream.handleConnectionStateChange previous current).
Proof.
  intros H. unfold LatteStream.handleConnectionStateChange,
    LatteStream.triggerGlobalEvent, LatteStream.resetChannelStates,
    Channel.emit, Channel.update, modify_cl.
  destruct current; try contradiction; keeps_tac.
Qed.

Lemma setState_frame (s : ConnectionState) (w : World) :
  s <> connected ->
  let w' := snd (setState LatteStream.handleConnectionStateChange s w) in
  conn w' = set_state s (conn w) /\ rt w' = rt w /\ options w' = options w.
Proof.
  intros Hs. unfold setState, bind, get, modify_conn, modify. cbn [fst snd].
  destruct (ConnectionState_eqb (state (conn w)) s); [cbn; auto|].
  pose proof (callback_frame (state (conn w)) Hs
                (set_conn (set_state s (conn w)) w)) as Hk.
  cbn in Hk. injection Hk as -> -> ->. auto.
Qed.

(** Entering [failed]: with the budget used up, [attemptReconnect] sets the
    state and nothing else. *)
Lemma attemptReconnect_exhausted {P : Platform} (w : World) (env : Env) :
  budgetExhausted (options w) (reconnectAttempts (conn w)) = true ->
  let w' := exec (LatteStream.attemptReconnect env) w in
  conn w' = set_state failed (conn w) /\ rt w' = rt w /\ options w' = options w.
Proof.
  intros Hb. unfold exec, LatteStream.attemptReconnect, attemptReconnect, bind, get.
  rewrite Hb. apply setState_frame. discriminate.
Qed.

Lemma forceReconnect_spec (w : World) (env : Env) :
  let w' := exec (LatteStream.forceReconnect env) w in
  reconnectAttempts (conn w') = 0 /\ state (conn w') = connecting.
Proof.
  unfold exec, LatteStream.forceReconnect, forceReconnect.
  rewrite exec_seq by apply returns_clearTimers.
  rewrite exec_seq by apply returns_modify.
  rewrite exec_seq by apply returns_closeCurrentSocket.
  match goal with
  | |- context [bind _ _ ?x] => set (w3 := x)
  end.
  assert (H3 : reconnectAttempts (conn w3) = 0).
  { unfold w3. exact (keeps_closeCurrentSocket _). }
  destruct (setState_frame (s := connecting) w3 ltac:(discriminate)) as (Hc & _).
  unfold bind.
  destruct (setState LatteStream.handleConnectionStateChange connecting w3)
    as [[[]|e] w4]; cbn [snd] in *.
  - unfold connect. unfold bind at 1. unfold get. rewrite Hc. cbn.
    rewrite ?Hc. cbn. split; [exact H3 | rewrite ?Hc; reflexivity].
  - rewrite ?Hc. cbn. split; [exact H3 | rewrite ?Hc; reflexivity].
Qed.

Lemma idle_no_reconnect (w : World) : idle w = true -> reconnectPending w = false.
Proof.
  unfold idle, reconnectPending. intros H. apply andb_true_iff in H as [_ H].
  rewrite forallb_forall in H.
  destruct (existsb _ (timers (rt w))) eqn:E; [|reflexivity].
  apply existsb_exists in E as (t & Ht & Hk). specialize (H t Ht).
  unfold wakingTimer in H. destruct (kind t); discriminate.
Qed.

Section WithPlatform.
Context {P : Platform}.


End WithPlatform.

End TerminalFacts.

(* ------------------------------------------------------------------ *)
(** ** The channel registry *)
(* ------------------------------------------------------------------ *)

Module RegistryFacts.
Import Connection Predicates CounterFrame TerminalFacts.

Lemma returns_throw_free {A} (m : M A) (w : World) :
  returns m -> exists x, m w = (Ok x, snd (m w)).
Proof.
  intros H. destruct (H w) as [x Hx]. exists x.
  destruct (m w) as [r w1]. cbn in *. rewrite Hx. reflexivity.
Qed.

Lemma returns_send (d : JsValue) : returns (send d).
Proof.
  unfold send, enqueue, flush, clearFlushTimer, sendRaw, setTimeout, clearTimeout,
    modify_conn, modify_rt.
  returns_tac.
Qed.

Lemma returns_subscribeChannel (c : nat) : returns (LatteStream.subscribeChannel c).
Proof.
  unfold LatteStream.subscribeChannel, Channel.subscribe, Channel.subscribeWithAuth,
    modify_cl.
  returns_tac; try (apply returns_bind; [apply returns_send | returns_tac]).
Qed.

(** [subscribeChannel] writes neither the channel map nor a channel object. *)
Lemma subscribeChannel_frame (c : nat) :
  keeps (fun w => (channels (cl w), channelStore (cl w), authorizer (cl w)))
        (LatteStream.subscribeChannel c).
Proof.
  unfold LatteStream.subscribeChannel, Channel.subscribe, Channel.subscribeWithAuth,
    Channel.send, send, enqueue, flush, clearFlushTimer, sendRaw, setTimeout,
    clearTimeout, modify_cl, modify_conn, modify_rt.
  keeps_tac.
Qed.

Lemma get_set_same {V} (k : string) (v : V) (m : list (JsValue * V)) :
  JsMap.get (JStr k) (JsMap.set (JStr k) v m) = Some v.
Proof.
  induction m as [|[k' v'] m IH]; cbn [JsMap.set].
  - cbn. rewrite String.eqb_refl. reflexivity.
  - destruct (JsMap.same_value_zero (JStr k) k') eqn:E; cbn [JsMap.get];
      rewrite E; auto.
Qed.

Lemma nth_error_snoc {A} (l : list A) (x : A) :
  nth_error (l ++ [x]) (List.length l) = Some x.
Proof. rewrite nth_error_app2, Nat.sub_diag by lia. reflexivity. Qed.

(** A name that is in the map: [subscribe] returns its channel object and
    writes nothing. *)
Lemma subscribe_registered (w : World) (channelName : string) (c : nat) :
  JsMap.get (JStr channelName) (channels (cl w)) = Some c ->
  LatteStream.subscribe channelName w = (Ok c, w).
Proof.
  intros H. unfold LatteStream.subscribe, bind, get. rewrite H. reflexivity.
Qed.

(** A name that is not in the map, with an authorizer where one is needed: a
    new channel object of the type of the name is put in the map. *)
Lemma subscribe_new (w : World) (channelName : string) :
  JsMap.get (JStr channelName) (channels (cl w)) = None ->
  getChannelType channelName = public \/ authorizer (cl w) <> None ->
  exists w',
    LatteStream.subscribe channelName w = (Ok (List.length (channelStore (cl w))), w')
    /\ channels (cl w')
       = JsMap.set (JStr channelName) (List.length (channelStore (cl w))) (channels (cl w))
    /\ channelStore (cl w')
       = channelStore (cl w)
         ++ [mkChannel channelName (getChannelType channelName) false [] JNull]
    /\ authorizer (cl w') = authorizer (cl w).
Proof.
  intros Hget Hauth.
  unfold LatteStream.subscribe, bind at 1, get. rewrite Hget.
  assert (Hcheck :
    (match getChannelType channelName with
     | public => ret tt
     | private =>
         match authorizer (cl w) with
         | Some _ => ret tt
         | None => throw PrivateRequiresAuthEndpoint
         end
     | presence =>
         match authorizer (cl w) with
         | Some _ => ret tt
         | None => throw PresenceRequiresAuthEndpoint
         end
     end) w = (Ok tt, w)).
  { destruct Hauth as [-> | Hauth]; [reflexivity|].
    destruct (getChannelType channelName); destruct (authorizer (cl w));
      try reflexivity; contradiction. }
  unfold bind at 1. rewrite Hcheck.
  unfold LatteStream.newChannel, bind, get, modify_cl, modify, ret. cbn [fst snd].
  match goal with
  | |- context [LatteStream.subscribeChannel ?c ?x] =>
      set (w1 := x);
      destruct (returns_throw_free w1 (returns_subscribeChannel c)) as [[] Hr];
      pose proof (subscribeChannel_frame c w1) as Hf;
      rewrite Hr
  end.
  eexists. split; [reflexivity|]. injection Hf as H1 H2 H3.
  rewrite H1, H2, H3. repeat split; reflexivity.
Qed.

Lemma subscribe_unauthorized (w : World) (channelName : string) :
  JsMap.get (JStr channelName) (channels (cl w)) = None ->
  authorizer (cl w) = None ->
  LatteStream.subscribe channelName w
  = match getChannelType channelName with
    | public => LatteStream.subscribe channelName w
    | private => (Throw PrivateRequiresAuthEndpoint, w)
    | presence => (Throw PresenceRequiresAuthEndpoint, w)
    end.
Proof.
  intros Hget Hauth. destruct (getChannelType channelName) eqn:E; [reflexivity| |];
    unfold LatteStream.subscribe, bind, get; rewrite Hget, E, Hauth; reflexivity.
Qed.

(** *** A client without an authorizer holds public channels only *)

Lemma publicOnly_registry (w w' : World) :
  registry w' = registry w -> publicOnly w -> publicOnly w'.
Proof. unfold registry, publicOnly. intros [= -> ->] H. exact H. Qed.

Lemma Forall_set (k : JsValue) (c : nat) (m : list (JsValue * nat)) :
  publicKey k -> Forall (fun e => publicKey (fst e)) m ->
  Forall (fun e => publicKey (fst e)) (JsMap.set k c m).
Proof.
  intros Hk. induction m as [|[k' v'] m IH]; cbn [JsMap.set]; intros H.
  - constructor; [exact Hk | constructor].
  - inversion H as [|? ? H1 H2]; subst.
    destruct (JsMap.same_value_zero k k'); constructor; auto.
Qed.

Lemma Forall_delete (k : JsValue) (m : list (JsValue * nat)) :
  Forall (fun e => publicKey (fst e)) m ->
  Forall (fun e => publicKey (fst e)) (JsMap.delete k m).
Proof.
  induction m as [|[k' v'] m IH]; cbn [JsMap.delete]; intros H; [constructor|].
  inversion H as [|? ? H1 H2]; subst.
  destruct (JsMap.same_value_zero k k'); [exact H2 | constructor; auto].
Qed.

Lemma svz_str (n : string) (k : JsValue) :
  JsMap.same_value_zero (JStr n) k = true -> k = JStr n.
Proof.
  destruct k; cbn; try discriminate. intros H. apply String.eqb_eq in H. congruence.
Qed.

Lemma get_In {V} (k : JsValue) (v : V) (m : list (JsValue * V)) :
  JsMap.get k m = Some v -> exists k', In (k', v) m /\ JsMap.same_value_zero k k' = true.
Proof.
  induction m as [|[k' v'] m IH]; cbn [JsMap.get]; [discriminate|].
  destruct (JsMap.same_value_zero k k') eqn:E.
  - intros [= ->]. exists k'. split; [left; reflexivity | exact E].
  - intros H. destruct (IH H) as (k2 & Hin & Hk). exists k2. split; [right|]; assumption.
Qed.

Lemma publicOnly_not_registered (w : World) (channelName : string) :
  publicOnly w -> getChannelType channelName <> public ->
  JsMap.get (JStr channelName) (channels (cl w)) = None.
Proof.
  intros [_ H] Hn. destruct (JsMap.get _ _) as [c|] eqn:E; [|reflexivity].
  apply get_In in E as (k & Hin & Hk). apply svz_str in Hk. subst k.
  rewrite Forall_forall in H. destruct (H _ Hin) as (n & [= <-] & Hp). contradiction.
Qed.

Ltac unfold_methods :=
  unfold LatteStream.onopen, LatteStream.onmessage, LatteStream.onclose,
    LatteStream.onerror, LatteStream.timerCallback, LatteStream.connect,
    LatteStream.forceReconnect, LatteStream.handleParsedMessage,
    LatteStream.handleChannelEvent, LatteStream.handleGlobalEvent,
    LatteStream.handleError, LatteStream.triggerGlobalEvent,
    LatteStream.handleConnectionStateChange, LatteStream.subscribeAllChannels,
    LatteStream.resetChannelStates, LatteStream.subscribeChannel,
    onopen, onmessage, onclose, onerror, timerCallback, handleDisconnection,
    handleMessage, attemptReconnect, connect, disconnect, forceReconnect,
    closeCurrentSocket, performDiscovery, handleConnectionError, setState, openSocket,
    closeSocket, resetBackoffOnSuccess, resetReconnectionState, debouncedReconnect,
    handlePong, sendPing, startPongTimer, resetActivityTimer, startActivityTimer,
    clearTimers, Channel.resumeSubscribe, Channel.handleMemberRemoved,
    Channel.handleMemberAdded, Channel.handleSubscriptionSucceeded,
    Channel.presenceHandleSubscriptionSucceeded, Channel.baseHandleSubscriptionSucceeded,
    Channel.handleSubscriptionError, Channel.handleEvent, Channel.setMember,
    Channel.release, Channel.acquire, Channel.writeMember, Channel.newMember,
    Channel.subscribeWithAuth, Channel.unsubscribe, Channel.subscribe, Channel.trigger,
    Channel.emit, Channel.update, Channel.send, send, clearQueue, enqueue, flush,
    clearFlushTimer, sendRaw, setTimeout, clearTimeout, modify_cl, modify_conn, modify_rt.

Section WithPlatform.
Context {P : Platform}.

Lemma registry_onopen : keeps registry LatteStream.onopen.
Proof. unfold_methods. keeps_tac. Qed.
Lemma registry_onmessage d : keeps registry (LatteStream.onmessage d).
Proof. unfold_methods. keeps_tac. Qed.
Lemma registry_onclose : keeps registry LatteStream.onclose.
Proof. unfold_methods. keeps_tac. Qed.
Lemma registry_onerror : keeps registry LatteStream.onerror.
Proof. unfold_methods. keeps_tac. Qed.
Lemma registry_timerCallback k env : keeps registry (LatteStream.timerCallback k env).
Proof. unfold_methods. keeps_tac. Qed.
Lemma registry_resumeSubscribe c r : keeps registry (Channel.resumeSubscribe c r).
Proof. unfold_methods. keeps_tac. Qed.
Lemma registry_connect env : keeps registry (LatteStream.connect env).
Proof. unfold_methods. keeps_tac. Qed.
Lemma registry_forceReconnect env : keeps registry (LatteStream.forceReconnect env).
Proof. do 2 unfold_methods. keeps_tac. Qed.
Lemma registry_trigger c n d : keeps registry (Channel.trigger c n d).
Proof. unfold_methods. keeps_tac. Qed.
Lemma registry_channel_unsubscribe c : keeps registry (Channel.unsubscribe c).
Proof. unfold_methods. keeps_tac. Qed.
Lemma registry_disconnect :
  keeps registry (disconnect LatteStream.handleConnectionStateChange).
Proof. unfold_methods. keeps_tac. Qed.

Lemma publicOnly_subscribe (channelName : string) :
  pres publicOnly (LatteStream.subscribe channelName).
Proof.
  intros w H. destruct (JsMap.get (JStr channelName) (channels (cl w))) as [c|] eqn:E.
  - rewrite (subscribe_registered _ _ E). exact H.
  - destruct (getChannelType channelName) eqn:T.
    + destruct (subscribe_new w channelName E (or_introl T)) as (w' & -> & Hc & _ & Ha).
      destruct H as [Hn Hf]. cbn [snd]. split; [congruence|].
      rewrite Hc. apply Forall_set; [|exact Hf]. exists channelName. auto.
    + rewrite (subscribe_unauthorized w channelName E (proj1 H)), T. exact H.
    + rewrite (subscribe_unauthorized w channelName E (proj1 H)), T. exact H.
Qed.

Lemma publicOnly_unsubscribe (channelName : string) :
  pres publicOnly (LatteStream.unsubscribe channelName).
Proof.
  unfold LatteStream.unsubscribe. apply pres_bind; [apply pres_get|]. intros w0.
  destruct (JsMap.get _ _); [|apply pres_ret].
  apply pres_bind.
  - eapply pres_keeps;
      [apply publicOnly_registry | apply registry_channel_unsubscribe].
  - intros _. apply pres_modify. intros w [Ha Hf]. split; [exact Ha|].
    cbn. apply Forall_delete. exact Hf.
Qed.

Lemma publicOnly_disconnect : pres publicOnly LatteStream.disconnect.
Proof.
  unfold LatteStream.disconnect. apply pres_bind; [apply pres_get|]. intros w0.
  apply pres_bind.
  - apply pres_forEach. intros c. eapply pres_keeps;
      [apply publicOnly_registry | apply registry_channel_unsubscribe].
  - intros _. apply pres_bind.
    + apply pres_modify. intros w [Ha _]. split; [exact Ha | constructor].
    + intros _. eapply pres_keeps;
        [apply publicOnly_registry | apply registry_disconnect].
Qed.

Lemma publicOnly_step (w w' : World) (e : Event) :
  publicOnly w -> step w e = Some w' -> publicOnly w'.
Proof.
  intros H.
  assert (Hk : forall A (m : M A) w0,
             registry w0 = registry w -> keeps registry m -> publicOnly (exec m w0)).
  { intros A m w0 E Hm. apply (publicOnly_registry (w := w)); [|exact H].
    unfold exec. rewrite (Hm w0). exact E. }
  destruct e as [i|i data|i|i|h env|k outcome|c]; cbn [step].
  - destruct (socketState i w) as [[]|]; try discriminate. intros [= <-].
    apply Hk; [reflexivity | apply registry_onopen].
  - destruct (socketState i w) as [[]|]; try discriminate. intros [= <-].
    apply Hk; [reflexivity | apply registry_onmessage].
  - destruct (socketState i w) as [[]|]; try discriminate; intros [= <-];
      (apply Hk; [reflexivity | apply registry_onclose]).
  - destruct (socketState i w) as [[]|]; try discriminate; intros [= <-];
      (apply Hk; [reflexivity | apply registry_onerror]).
  - destruct (firedKind w h) as [k|]; try discriminate. intros [= <-].
    apply Hk; [reflexivity | apply registry_timerCallback].
  - destruct (nth_error (pendingAuth (cl w)) k) as [req|]; try discriminate.
    intros [= <-]. apply Hk; [reflexivity | apply registry_resumeSubscribe].
  - intros [= <-]. destruct c as [env| |n|n|env|c n d]; unfold call.
    + apply Hk; [reflexivity | apply registry_connect].
    + apply publicOnly_disconnect. exact H.
    + unfold exec.
      assert (Hp : pres publicOnly (bind (LatteStream.subscribe n) (fun _ => ret tt)))
        by (apply pres_bind; [apply publicOnly_subscribe | intros; apply pres_ret]).
      exact (Hp w H).
    + apply publicOnly_unsubscribe. exact H.
    + apply Hk; [reflexivity | apply registry_forceReconnect].
    + apply Hk; [reflexivity|]. apply keeps_bind; [apply registry_trigger|].
      intros; apply keeps_ret.
Qed.

Lemma publicOnly_run (es : list Event) (w w' : World) :
  publicOnly w -> run w es = Some w' -> publicOnly w'.
Proof.
  revert w. induction es as [|e es IH]; intros w H; cbn [run].
  - intros [= <-]. exact H.
  - destruct (step w e) as [w1|] eqn:Hs; [|discriminate].
    apply IH. exact (publicOnly_step _ H Hs).
Qed.

Lemma publicOnly_create (key : string) (o : LatteStreamOptions) :
  authEndpoint o = None \/ authEndpoint o = Some ""%string ->
  publicOnly (LatteStream.create key o).
Proof.
  intros [H|H]; unfold publicOnly, LatteStream.create; cbn; rewrite H; cbn;
    split; constructor.
Qed.

(** C7. [subscribe(name)] is idempotent: once a call has returned a channel
    object, the next call with the same name returns the same object and
    writes nothing, so that no object is constructed. A first call constructs
    an object whose type is [presence] for a name that starts with
    ["presence-"], [private] for one that starts with ["private-"] and
    [public] otherwise; it returns when the type is public or an authorizer
    exists. *)
Theorem subscribe_idempotent :
  (forall w channelName c w',
      LatteStream.subscribe channelName w = (Ok c, w') ->
      LatteStream.subscribe channelName w' = (Ok c, w')
      /\ (JsMap.get (JStr channelName) (channels (cl w)) = None ->
          c = List.length (channelStore (cl w))
          /\ Channel.lookup c w'
             = Some (mkChannel channelName (getChannelType channelName) false [] JNull)))
  /\
  (forall w channelName,
      JsMap.get (JStr channelName) (channels (cl w)) = None ->
      getChannelType channelName = public \/ authorizer (cl w) <> None ->
      exists c w', LatteStream.subscribe channelName w = (Ok c, w'))
  /\
  (forall channelName,
      getChannelType channelName
      = if startsWith channelName "presence-" then presence
        else if startsWith channelName "private-" then private
        else public).
Proof.
  split; [|split].
  - intros w channelName c w' Hs.
    destruct (JsMap.get (JStr channelName) (channels (cl w))) as [c0|] eqn:E.
    + rewrite (subscribe_registered _ _ E) in Hs. injection Hs as <- <-.
      split; [apply subscribe_registered; exact E | discriminate].
    + assert (Hauth : getChannelType channelName = public \/ authorizer (cl w) <> None).
      { destruct (authorizer (cl w)) eqn:A; [right; discriminate|].
        rewrite (subscribe_unauthorized w channelName E A) in Hs.
        destruct (getChannelType channelName); [left; reflexivity | discriminate..]. }
      destruct (subscribe_new w channelName E Hauth) as (w1 & H1 & Hc & Hst & _).
      rewrite H1 in Hs. injection Hs as <- <-. split.
      * apply subscribe_registered. rewrite Hc. apply get_set_same.
      * intros _. split; [reflexivity|]. unfold Channel.lookup. rewrite Hst.
        apply nth_error_snoc.
  - intros w channelName E Hauth.
    destruct (subscribe_new w channelName E Hauth) as (w1 & H1 & _). eauto.
  - reflexivity.
Qed.

(** C10. On a client created without [authEndpoint], in every execution, a
    call of [subscribe] for a private or presence name throws the error of its
    type and writes nothing: the name is not in the channel map before the
    call nor after it, and a later call does the same. *)
Theorem subscribe_without_authorizer :
  forall key o es w channelName,
    authEndpoint o = None \/ authEndpoint o = Some ""%string ->
    run (LatteStream.create key o) es = Some w ->
    getChannelType channelName <> public ->
    exists e,
      LatteStream.subscribe channelName w = (Throw e, w)
      /\ (e = PrivateRequiresAuthEndpoint \/ e = PresenceRequiresAuthEndpoint)
      /\ JsMap.has (JStr channelName) (channels (cl w)) = false
      /\ step w (Called (CallSubscribe channelName)) = Some w.
Proof.
  intros key o es w channelName Ho Hr Ht.
  pose proof (publicOnly_create key o Ho) as H.
  eapply publicOnly_run in H; [|exact Hr].
  pose proof (publicOnly_not_registered channelName H Ht) as E.
  pose proof (subscribe_unauthorized w channelName E (proj1 H)) as Hs.
  assert (Hhas : JsMap.has (JStr channelName) (channels (cl w)) = false)
    by (unfold JsMap.has; rewrite E; reflexivity).
  destruct (getChannelType channelName); [contradiction| |].
  - exists PrivateRequiresAuthEndpoint. repeat split; auto.
    cbn [step call]. unfold exec, bind. rewrite Hs. reflexivity.
  - exists PresenceRequiresAuthEndpoint. repeat split; auto.
    cbn [step call]. unfold exec, bind. rewrite Hs. reflexivity.
Qed.

(** *** [trigger] *)

(** On a channel that is not subscribed [trigger] returns [false] and writes
    nothing. *)
Lemma trigger_not_subscribed (w : World) (c : nat) (eventName : string) (data : JsValue) :
  Channel.isSubscribed c w = false ->
  Channel.trigger c eventName data w = (Ok false, w).
Proof.
  unfold Channel.isSubscribed, Channel.trigger, bind, get.
  destruct (Channel.lookup c w) as [ch|]; [|reflexivity]. intros ->. reflexivity.
Qed.

(** On a subscribed channel, whatever its type, [trigger] hands the frame to
    [send] and returns what [send] returns. *)
Lemma trigger_subscribed (w : World) (c : nat) (ch : Channel)
      (eventName : string) (data : JsValue) :
  Channel.lookup c w = Some ch -> subscribed ch = true ->
  Channel.trigger c eventName data w
  = send (JObj [("event"%string, JStr eventName); ("data"%string, data);
                ("channel"%string, JStr (name ch))]) w.
Proof.
  unfold Channel.trigger, bind, get. intros -> ->. reflexivity.
Qed.

Lemma trigger_never_throws (c : nat) (eventName : string) (data : JsValue) :
  returns (Channel.trigger c eventName data).
Proof.
  unfold Channel.trigger. returns_tac.
Qed.

End WithPlatform.

End RegistryFacts.

(* ------------------------------------------------------------------ *)
(** ** Presence members *)
(* ------------------------------------------------------------------ *)

Module PresenceFacts.
Import Predicates CounterFrame TerminalFacts RegistryFacts.

Lemma count_set (k : string) (a : nat) (m : list (JsValue * nat)) :
  JsMap.count (JStr k) (JsMap.set (JStr k) a m) = Nat.max 1 (JsMap.count (JStr k) m).
Proof.
  unfold JsMap.count. induction m as [|[k' v'] m IH]; cbn [JsMap.set].
  - cbn. rewrite String.eqb_refl. reflexivity.
  - destruct (JsMap.same_value_zero (JStr k) k') eqn:E; cbn [filter fst]; rewrite E.
    + cbn [List.length]. lia.
    + exact IH.
Qed.

Lemma size_set (k : string) (a : nat) (m : list (JsValue * nat)) :
  JsMap.size (JsMap.set (JStr k) a m)
  = if JsMap.has (JStr k) m then JsMap.size m else S (JsMap.size m).
Proof.
  unfold JsMap.size, JsMap.has. induction m as [|[k' v'] m IH]; cbn [JsMap.set JsMap.get].
  - reflexivity.
  - destruct (JsMap.same_value_zero (JStr k) k') eqn:E; [reflexivity|].
    cbn [List.length]. rewrite IH. destruct (JsMap.get (JStr k) m); reflexivity.
Qed.

Lemma update_nth_twice {A} (i : nat) (f g : A -> A) (l : list A) :
  update_nth i g (update_nth i f l) = update_nth i (fun x => g (f x)) l.
Proof.
  revert i. induction l as [|x l IH]; intros [|i]; cbn; try reflexivity.
  rewrite IH. reflexivity.
Qed.

Lemma nth_update_nth {A} (i : nat) (f : A -> A) (l : list A) (d : A) :
  i < List.length l -> nth i (update_nth i f l) d = f (nth i l d).
Proof.
  revert i. induction l as [|x l IH]; intros [|i]; cbn; try lia; [reflexivity|].
  intros H. apply IH. lia.
Qed.

Lemma nth_error_update_nth {A} (i : nat) (f : A -> A) (l : list A) (x : A) :
  nth_error l i = Some x -> nth_error (update_nth i f l) i = Some (f x).
Proof.
  revert i. induction l as [|y l IH]; intros [|i]; cbn; try discriminate.
  - intros [= ->]. reflexivity.
  - apply IH.
Qed.

Lemma acquired_valid (w : World) :
  Channel.poolValid w ->
  let '(a, store, pool) := acquired w in
  a < List.length store /\ Forall (fun b => b < List.length store) pool.
Proof.
  unfold Channel.poolValid, acquired. destruct (memberPool (cl w)) as [|a rest].
  - intros _. rewrite length_app. cbn. split; [lia | constructor].
  - intros H. inversion H; subst. auto.
Qed.

Section WithPlatform.
Context {P : Platform}.

Lemma handleMemberAdded_effect (w : World) (c : nat) (member i x : JsValue) :
  get_prop member "id" = Ok i -> get_prop member "info" = Ok x ->
  let '(a, store, pool) := acquired w in
  let w' := exec (Channel.handleMemberAdded c member) w in
  channelStore (cl w')
  = update_nth c (fun ch => set_members (JsMap.set i a (members ch)) ch)
               (channelStore (cl w))
  /\ memberStore (cl w') = update_nth a (fun _ => mkMember i x) store
  /\ memberPool (cl w') = pool
  /\ emitted (cl w')
     = emitted (cl w) ++ [mkEmitted (Some c) (JStr "lattestream:member_added")
                                    (PMember a (mkMember i x))].
Proof.
  intros Hi Hx.
  unfold acquired, exec, Channel.handleMemberAdded, Channel.acquire, Channel.newMember,
    Channel.writeMember, Channel.setMember, Channel.handleEvent, Channel.emit,
    Channel.update, bind, get, lift, modify_cl, modify, ret.
  destruct (memberPool (cl w)) as [|a rest] eqn:Ep; cbn [fst snd]; rewrite Hi;
    cbn [fst snd]; rewrite Hx; cbn; rewrite update_nth_twice; repeat split; auto.
Qed.

Lemma handleMemberRemoved_absent (w : World) (c : nat) (ch : Channel) (member i : JsValue) :
  Channel.lookup c w = Some ch ->
  get_prop member "id" = Ok i ->
  JsMap.get i (members ch) = None ->
  Channel.handleMemberRemoved c member w = (Ok tt, w).
Proof.
  intros Hc Hi Hg. unfold Channel.handleMemberRemoved, bind, get, lift.
  rewrite Hi, Hc, Hg. reflexivity.
Qed.

Lemma handleMemberAdded_lookup (w : World) (c : nat) (ch : Channel)
      (member i x : JsValue) :
  Channel.poolValid w ->
  Channel.lookup c w = Some ch ->
  get_prop member "id" = Ok i -> get_prop member "info" = Ok x ->
  let w' := exec (Channel.handleMemberAdded c member) w in
  exists a,
    Channel.lookup c w' = Some (set_members (JsMap.set i a (members ch)) ch)
    /\ Channel.readMember a w' = mkMember i x
    /\ Channel.poolValid w'.
Proof.
  intros Hv Hc Hi Hx.
  pose proof (handleMemberAdded_effect w c member Hi Hx) as E.
  pose proof (acquired_valid Hv) as V.
  destruct (acquired w) as [[a store] pool]. destruct V as [Va Vp].
  destruct E as (Hcs & Hms & Hp & _). exists a. cbv zeta. split; [|split].
  - unfold Channel.lookup in *. rewrite Hcs.
    exact (nth_error_update_nth _ _ _ Hc).
  - unfold Channel.readMember. rewrite Hms. apply nth_update_nth. exact Va.
  - unfold Channel.poolValid. rewrite Hms, Hp, length_update_nth. exact Vp.
Qed.

(** C8. Adding the same member id twice leaves one entry under that id in the
    member map, and the entry holds the info of the second add; removing an id
    that is not in the map returns without writing anything, so that no event
    is emitted. The id occurs at most once in the map before, as in every
    [Map], and the objects of the pool are in the store. *)
Theorem presence_membership_idempotent :
  (forall w c ch s x1 x2 member1 member2,
      Channel.lookup c w = Some ch ->
      Channel.poolValid w ->
      JsMap.count (JStr s) (members ch) <= 1 ->
      get_prop member1 "id" = Ok (JStr s) -> get_prop member1 "info" = Ok x1 ->
      get_prop member2 "id" = Ok (JStr s) -> get_prop member2 "info" = Ok x2 ->
      let w2 := exec (Channel.handleMemberAdded c member2)
                     (exec (Channel.handleMemberAdded c member1) w) in
      exists ch2 a,
        Channel.lookup c w2 = Some ch2
        /\ JsMap.count (JStr s) (members ch2) = 1
        /\ JsMap.get (JStr s) (members ch2) = Some a
        /\ Channel.readMember a w2 = mkMember (JStr s) x2
        /\ Channel.getMember c (JStr s) w2 = Some (mkMember (JStr s) x2)
        /\ Channel.getMemberCount c w2
           = if JsMap.has (JStr s) (members ch) then JsMap.size (members ch)
             else S (JsMap.size (members ch)))
  /\
  (forall w c ch member i,
      Channel.lookup c w = Some ch ->
      get_prop member "id" = Ok i ->
      JsMap.get i (members ch) = None ->
      Channel.handleMemberRemoved c member w = (Ok tt, w)).
Proof.
  split; [|intros; eapply handleMemberRemoved_absent; eassumption].
  intros w c ch s x1 x2 member1 member2 Hc Hv Hn Hi1 Hx1 Hi2 Hx2 w2.
  destruct (handleMemberAdded_lookup c member1 Hv Hc Hi1 Hx1) as (a1 & Hc1 & _ & Hv1).
  destruct (handleMemberAdded_lookup c member2 Hv1 Hc1 Hi2 Hx2) as (a2 & Hc2 & Hr2 & _).
  fold w2 in Hc2, Hr2. cbn [members set_members] in Hc2.
  eexists. exists a2. split; [exact Hc2|]. cbn [members set_members].
  assert (Hg : JsMap.get (JStr s) (JsMap.set (JStr s) a2
                 (JsMap.set (JStr s) a1 (members ch))) = Some a2) by apply get_set_same.
  split; [rewrite !count_set; lia|]. split; [exact Hg|]. split; [exact Hr2|]. split.
  - unfold Channel.getMember. rewrite Hc2. cbn [members set_members].
    rewrite Hg. cbn. rewrite Hr2. reflexivity.
  - unfold Channel.getMemberCount. rewrite Hc2. cbn [members set_members].
    rewrite !size_set. unfold JsMap.has at 1. rewrite get_set_same.
    reflexivity.
Qed.

End WithPlatform.

End PresenceFacts.
(* ------------------------------------------------------------------ *)
(** ** The theorems on the example clients *)
(* ------------------------------------------------------------------ *)

Module Instances.
Import Connection Predicates ClientExamples.
#[local] Existing Instance RefPlatform.platform.
Local Open Scope string_scope.
Local Open Scope list_scope.

(** Scenario C: the reconnect timers are set with 1000, 2000 and 4000 ms, then
    the state is [failed]. *)
Example scenarioC_delays :
  map delay (timers (rt (after clientC (firstn 3 scenarioC)))) = [1000%Q]
  /\ map delay (timers (rt (after clientC (firstn 6 scenarioC)))) = [2000%Q]
  /\ map delay (timers (rt (after clientC (firstn 9 scenarioC)))) = [4000%Q]
  /\ state (conn (after clientC (scenarioC ++ [TimerFired 11 env0]))) = failed
  /\ timers (rt (after clientC (scenarioC ++ [TimerFired 11 env0]))) = [].
Proof. vm_compute. repeat split; reflexivity. Qed.

Lemma reconnect_delay_witness :
  let w := after clientB [Called (CallConnect env0); SocketClose 0] in
  let base := cappedDelay (options w) (reconnectAttempts (conn w)) in
  ((inject_Z (Z.of_nat (reconnectAttempts (conn w))) < maxAttempts (options w))%Q
   /\ (0 <= random env0)%Q /\ (random env0 < 1)%Q /\ (0 < base)%Q)
  /\ (base == 1000)%Q
  /\ exists d,
      timers (rt (exec (LatteStream.attemptReconnect env0) w))
      = timers (rt w) ++ [mkTimer (nextHandle (rt w)) ReconnectTimer d]
      /\ (base <= d)%Q /\ (d <= 1250)%Q.
Proof.
  intros w base.
  assert (H1 : (inject_Z (Z.of_nat (reconnectAttempts (conn w))) < maxAttempts (options w))%Q)
    by (vm_compute; reflexivity).
  assert (H2 : (0 <= random env0)%Q) by discriminate.
  assert (H3 : (random env0 < 1)%Q) by (vm_compute; reflexivity).
  assert (H4 : (0 < base)%Q) by (vm_compute; reflexivity).
  assert (H5 : Double.finite (Math_pow (backoffMultiplier (options w))
                                (inject_Z (Z.of_nat (reconnectAttempts (conn w))))))
    by (vm_compute; reflexivity).
  assert (H6 : Double.finite (Double.add base (Double.mul base (1 # 4))))
    by (vm_compute; reflexivity).
  assert (H7 : (Double.add base (Double.mul base (1 # 4)) == 1250)%Q)
    by (vm_compute; reflexivity).
  split; [auto|]. split; [vm_compute; reflexivity|].
  destruct (ReconnectFacts.reconnect_delay w env0 H1 H2 H3 H4 H5 H6)
    as (_ & _ & d & Ht & _ & Hj).
  exists d. split; [exact Ht|]. destruct (Hj eq_refl) as [Hlo Hhi].
  split; [exact Hlo|]. rewrite <- H7. exact Hhi.
Defined.

(** C1, as stated, fails at the upper end: with the default options the first
    delay without jitter is 1000, and for [Math.random() = 1 - 2^-52] the
    jitter [r * 250] rounds so that the sum is the double 1250, which is not
    below [1000 * 1.25]. *)
Lemma reconnect_delay_upper_end_reached :
  let r := (1 - (1 # 4503599627370496))%Q in
  let env := mkEnv (Throw DiscoveryFailed) false r in
  let w := after clientB [Called (CallConnect env0); SocketClose 0] in
  let base := cappedDelay (options w) (reconnectAttempts (conn w)) in
  (inject_Z (Z.of_nat (reconnectAttempts (conn w))) < maxAttempts (options w))%Q
  /\ (0 <= r)%Q /\ (r < 1)%Q
  /\ enableJitter (options w) = true
  /\ base = 1000%Q
  /\ timers (rt (exec (LatteStream.attemptReconnect env) w))
     = timers (rt w) ++ [mkTimer (nextHandle (rt w)) ReconnectTimer 1250%Q]
  /\ ~ (1250 < base * (5 # 4))%Q.
Proof.
  vm_compute. repeat split; try reflexivity; discriminate.
Qed.

Lemma counter_reset_sources_witness :
  let w := after clientC [Called (CallConnect env0)] in
  let w1 := after w [SocketOpen 0] in
  let w2 := after w [SocketOpen 0; SocketMessage 0 established] in
  (step w (SocketOpen 0) = Some w1 /\ attempts w1 = attempts w)
  /\ (quiet w [SocketOpen 0; SocketMessage 0 established]
      /\ run w [SocketOpen 0; SocketMessage 0 established] = Some w2
      /\ attempts w2 = attempts w).
Proof.
  intros w w1 w2.
  destruct (CounterFacts.counter_reset_sources (P := RefPlatform.platform))
    as (_ & _ & Hopen & _ & Hquiet).
  assert (Hs : step w (SocketOpen 0) = Some w1) by (vm_compute; reflexivity).
  assert (Hq : quiet w [SocketOpen 0; SocketMessage 0 established])
    by (vm_compute; repeat split; reflexivity).
  assert (Hr : run w [SocketOpen 0; SocketMessage 0 established] = Some w2) by (vm_compute; reflexivity).
  split; [split; [exact Hs | exact (Hopen w 0 w1 Hs)]|].
  split; [exact Hq|]. split; [exact Hr | exact (Hquiet w _ w2 Hq Hr)].
Defined.

(** C2, as stated, fails: after two failed attempts the transport opens with
    the counter at 2; [disconnect()] then sets it to 0, and so does the pong
    timer: no [subscription_succeeded] frame has arrived. *)
Lemma counter_reset_without_subscription :
  let w := after clientC (firstn 6 scenarioC ++ [TimerFired 6 env0; SocketOpen 2]) in
  socketState 2 w = Some OPEN
  /\ attempts w = 2
  /\ option_map attempts (step w (Called CallDisconnect)) = Some 0
  /\ option_map attempts (step w (Called (CallForceReconnect env0))) = Some 0.
Proof. vm_compute. repeat split; reflexivity. Qed.



(** C6 on a failing input: ["news"] is a public channel, subscribed, on a
    connected client; [trigger] returns [true] and the frame goes out with the
    next batch. *)
Theorem trigger_on_public_channel_sends :
  let w := after clientB scenarioB in
  let frame := JObj [("event", JStr "client-typing"); ("data", typing);
                     ("channel", JStr "news")] in
  Channel.getType 0 w = Some public
  /\ Channel.isSubscribed 0 w = true
  /\ fst (Channel.trigger 0 "client-typing" typing w) = Ok true
  /\ queue (conn (snd (Channel.trigger 0 "client-typing" typing w))) = [frame]
  /\ option_map (fun w' => wire (rt w'))
       (run w [Called (CallTrigger 0 "client-typing" typing); TimerFired 5 env0])
     = Some (wire (rt w) ++ [(0, frame)]).
Proof. vm_compute. repeat split; reflexivity. Qed.

Lemma subscribe_idempotent_witness :
  let w' := snd (LatteStream.subscribe "news" clientB) in
  LatteStream.subscribe "news" clientB = (Ok 0, w')
  /\ LatteStream.subscribe "news" w' = (Ok 0, w')
  /\ Channel.lookup 0 w' = Some (mkChannel "news" public false [] JNull)
  /\ (exists c w1, LatteStream.subscribe "private-orders" clientA = (Ok c, w1)).
Proof.
  intros w'.
  destruct (RegistryFacts.subscribe_idempotent) as (Hidem & Hnew & _).
  assert (H1 : LatteStream.subscribe "news" clientB = (Ok 0, w')) by (vm_compute; reflexivity).
  destruct (Hidem clientB "news" 0 w' H1) as [H2 H3].
  split; [exact H1|]. split; [exact H2|].
  split; [exact (proj2 (H3 eq_refl))|].
  apply (Hnew clientA "private-orders"); [reflexivity | right; discriminate].
Defined.

Lemma presence_membership_witness :
  let w := after clientA [Called (CallSubscribe "presence-room")] in
  let w2 := exec (Channel.handleMemberAdded 0 (member "u1" (JStr "second")))
                 (exec (Channel.handleMemberAdded 0 (member "u1" (JStr "first"))) w) in
  (Channel.lookup 0 w = Some room /\ Channel.poolValid w
   /\ JsMap.count (JStr "u1") (members room) <= 1)
  /\ Channel.getMember 0 (JStr "u1") w2 = Some (mkMember (JStr "u1") (JStr "second"))
  /\ Channel.getMemberCount 0 w2 = 1
  /\ Channel.handleMemberRemoved 0 (member "u2" JNull) w2 = (Ok tt, w2).
Proof.
  intros w w2.
  destruct (PresenceFacts.presence_membership_idempotent (P := RefPlatform.platform))
    as [Hadd Hrem].
  assert (H1 : Channel.lookup 0 w = Some room) by (vm_compute; reflexivity).
  assert (H2 : Channel.poolValid w) by (unfold Channel.poolValid; cbn; repeat constructor).
  assert (H3 : JsMap.count (JStr "u1") (members room) <= 1) by (cbn; lia).
  split; [auto|].
  destruct (Hadd w 0 room "u1" (JStr "first") (JStr "second")
              (member "u1" (JStr "first")) (member "u1" (JStr "second"))
              H1 H2 H3 eq_refl eq_refl eq_refl eq_refl)
    as (ch2 & a & Hc & _ & Hg & _ & Hm & Hn).
  split; [exact Hm|]. split; [exact Hn|].
  apply (Hrem w2 0 ch2 (member "u2" JNull) (JStr "u2") Hc eq_refl).
  fold w2 in Hc. vm_compute in Hc. injection Hc as <-. reflexivity.
Defined.

Lemma subscribe_without_authorizer_witness :
  let w := after clientB [Called (CallConnect env0)] in
  (authEndpoint defaultOptions = None
   /\ run clientB [Called (CallConnect env0)] = Some w
   /\ getChannelType "private-orders" <> public)
  /\ LatteStream.subscribe "private-orders" w = (Throw PrivateRequiresAuthEndpoint, w)
  /\ JsMap.has (JStr "private-orders") (channels (cl w)) = false.
Proof.
  intros w.
  assert (H1 : authEndpoint defaultOptions = None) by (vm_compute; reflexivity).
  assert (H2 : run clientB [Called (CallConnect env0)] = Some w) by (vm_compute; reflexivity).
  assert (H3 : getChannelType "private-orders" <> public) by discriminate.
  split; [auto|].
  destruct (RegistryFacts.subscribe_without_authorizer (P := RefPlatform.platform)
              "lspc_demo" defaultOptions [Called (CallConnect env0)] "private-orders"
              (or_introl H1) H2 H3) as (e & Hs & He & Hh & _).
  split; [|exact Hh]. rewrite Hs. f_equal.
  assert (Hv : LatteStream.subscribe "private-orders" w
               = (Throw PrivateRequiresAuthEndpoint, w)) by (vm_compute; reflexivity).
  congruence.
Defined.

End Instances.
(* ================================================================== *)
(** * Further properties *)
(* ================================================================== *)

(* ------------------------------------------------------------------ *)
(** ** binary-protocol.ts *)
(* ------------------------------------------------------------------ *)

Module BinaryEntryFacts.
Import BinaryProtocol BinaryInspect BinaryProtocolFacts.
Local Open Scope Z_scope.

Lemma other_type {A} (t : Z) (a b c d : A) :
  t <> 1 -> t <> 2 -> t <> 3 ->
  match t with 1 => a | 2 => b | 3 => c | _ => d end = d.
Proof.
  intros H1 H2 H3. destruct t as [|p|p]; try reflexivity.
  destruct p as [[q|q|]|[q|q|]|]; try reflexivity; congruence.
Qed.

Lemma getUint32_range (bs : list byte) (off : nat) (v : Z) :
  getUint32 bs off = Ok v -> 0 <= v < 4294967296.
Proof.
  unfold getUint32. destruct (skipn off bs) as [|b0 [|b1 [|b2 [|b3 r]]]]; try discriminate.
  intros E. apply (f_equal (fun r => match r with Ok x => x | Throw _ => 0 end)) in E.
  cbv beta iota in E. subst v.
  pose proof (byte_to_Z_range b0). pose proof (byte_to_Z_range b1).
  pose proof (byte_to_Z_range b2). pose proof (byte_to_Z_range b3). lia.
Qed.

Section WithPlatform.
Context {P : Platform}.

(** What [parseLatteStreamBinaryProtocol] has checked when it returns. *)
Lemma parse_ok_header (bytes : list byte) (v : JsValue) :
  parseLatteStreamBinaryProtocol bytes = Ok v ->
  8 <= len bytes
  /\ exists t n, getUint32 bytes 0 = Ok t /\ getUint32 bytes 4 = Ok n
                 /\ 0 < n <= len bytes - 8.
Proof.
  unfold parseLatteStreamBinaryProtocol.
  destruct (Z.ltb_spec (len bytes) 8) as [|H8]; [discriminate|].
  destruct (getUint32 bytes 0) as [t|] eqn:Et; [|discriminate].
  destruct (getUint32 bytes 4) as [n|] eqn:En; [|discriminate]. cbn [rbind].
  destruct (Z.ltb_spec (len bytes) (8 + n)) as [|Hn]; [discriminate|].
  destruct (Z.eqb_spec n 0) as [|Hz]; [discriminate|]. intros _.
  pose proof (getUint32_range _ _ En). split; [exact H8|]. exists t, n. repeat split; auto; lia.
Qed.

(** X1. When [parseBinaryMessage] throws, the error is the one of its last
    [catch], "Unable to parse binary message", and the protocol decoder has
    refused the bytes too; the error it wraps is the decoder's own, or the one
    of the JSON attempt, or the one for an empty text. *)
Theorem parseBinaryMessage_error (bytes : list byte) (e : JsError) :
  parseBinaryMessage bytes = Throw e ->
  exists inner e',
    e = UnableToParseBinaryMessage inner
    /\ parseLatteStreamBinaryProtocol bytes = Throw e'
    /\ (inner = e' \/ inner = UnableToParseAsJsonOrBinary \/ inner = EmptyOrInvalidUtf8).
Proof.
  unfold parseBinaryMessage.
  set (text := trim (TextDecoder_decode bytes)).
  destruct (if startsWith text "{" || startsWith text "[" then JSON_parse text else None)
    as [parsed|]; [discriminate|].
  set (header := if 8 <=? len bytes then _ else false).
  destruct header.
  - destruct (parseLatteStreamBinaryProtocol bytes) as [v|e'] eqn:E; [discriminate|].
    intros [= <-]. exists e', e'. auto.
  - destruct (0 <? Z.of_nat (String.length text)).
    + destruct (JSON_parse text); [discriminate|].
      destruct (parseLatteStreamBinaryProtocol bytes) as [v|e']; [discriminate|].
      intros [= <-]. exists UnableToParseAsJsonOrBinary, e'. auto.
    + destruct (parseLatteStreamBinaryProtocol bytes) as [v|e']; [discriminate|].
      intros [= <-]. exists EmptyOrInvalidUtf8, e'. auto.
Qed.

(** X2. On bytes that the protocol decoder accepts as a frame of type 1, 2 or
    3, [parseBinaryMessage] returns what the decoder returns, unless the whole
    frame read as text is itself JSON, which is tried first. *)
Theorem parseBinaryMessage_frame (bytes : list byte) (t : Z) (v : JsValue) :
  getUint32 bytes 0 = Ok t -> 1 <= t <= 3 ->
  parseLatteStreamBinaryProtocol bytes = Ok v ->
  (let text := trim (TextDecoder_decode bytes) in
   startsWith text "{" || startsWith text "[" = false \/ JSON_parse text = None) ->
  parseBinaryMessage bytes = Ok v.
Proof.
  intros Ht Hr Hv Hjson. destruct (parse_ok_header _ Hv) as (H8 & t' & n & Et & En & Hn).
  rewrite Ht in Et. injection Et as <-.
  unfold parseBinaryMessage. cbv zeta in Hjson.
  set (text := trim (TextDecoder_decode bytes)) in *.
  assert (Hfirst : (if startsWith text "{" || startsWith text "[" then JSON_parse text else None)
                   = None).
  { destruct Hjson as [-> | ->]; [reflexivity|].
    destruct (startsWith text "{" || startsWith text "["); reflexivity. }
  rewrite Hfirst, Ht, En.
  destruct (Z.leb_spec 8 (len bytes)) as [_|]; [|lia].
  destruct (Z.leb_spec 1 t) as [_|]; [|lia]. destruct (Z.leb_spec t 3) as [_|]; [|lia].
  destruct (Z.leb_spec n (len bytes - 8)) as [_|]; [|lia].
  destruct (Z.ltb_spec 0 n) as [_|]; [|lia].
  cbn [andb]. rewrite Hv. reflexivity.
Qed.

(** X3. Bytes that hold no more than a header are never a message: the
    decoder throws for every input of at most eight bytes. *)
Theorem header_only_rejected (bytes : list byte) :
  len bytes <= 8 ->
  exists e,
    parseLatteStreamBinaryProtocol bytes = Throw e
    /\ (e = BinaryMessageTooShort (len bytes) \/ e = ZeroPayloadLength
        \/ exists expected, e = PayloadTruncated expected (len bytes)).
Proof.
  intros H. unfold parseLatteStreamBinaryProtocol.
  destruct (Z.ltb_spec (len bytes) 8) as [|H8]; [eauto|].
  destruct (getUint32_total bytes 0) as (t & Et & _); [cbn; lia|].
  destruct (getUint32_total bytes 4) as (n & En & Hn); [cbn; lia|].
  rewrite Et, En. cbn [rbind].
  destruct (Z.ltb_spec (len bytes) (8 + n)) as [|Hlen]; [eauto 6|].
  destruct (Z.eqb_spec n 0) as [|Hz]; [eauto|]. lia.
Qed.

(** X4. A message built by [createBinaryMessage] has type 1 or 2, starts with
    its type, which [getBinaryMessageType] reads back, and then holds the
    length of what follows the eight header bytes. *)
Theorem createBinaryMessage_layout (messageType : Z) (payload : JsValue) (message : list byte) :
  createBinaryMessage messageType payload = Ok message ->
  len message - 8 < 4294967296 ->
  (messageType = 1 \/ messageType = 2)
  /\ getBinaryMessageType message = Some messageType
  /\ getUint32 message 4 = Ok (len message - 8).
Proof.
  unfold createBinaryMessage.
  set (body := match messageType with 1 => _ | 2 => _ | _ => _ end).
  destruct body as [payloadBytes|] eqn:Eb; [|discriminate]. cbn [rbind].
  intros E Hlen.
  assert (Em : message = setUint32 messageType ++ setUint32 (len payloadBytes) ++ payloadBytes)
    by congruence.
  subst message. clear E.
  assert (Ht : messageType = 1 \/ messageType = 2).
  { destruct (Z.eq_dec messageType 1) as [|N1]; [auto|].
    destruct (Z.eq_dec messageType 2) as [|N2]; [auto|].
    subst body. exfalso. revert Eb.
    destruct messageType as [|p|p]; try discriminate.
    destruct p as [[q|q|]|[q|q|]|]; try discriminate; congruence. }
  rewrite !len_app, !len_setUint32 in Hlen.
  assert (0 <= len payloadBytes) by apply len_nonneg.
  split; [exact Ht|]. split.
  - unfold getBinaryMessageType. rewrite !len_app, !len_setUint32.
    destruct (Z.ltb_spec (4 + (4 + len payloadBytes)) 4) as [|_]; [lia|].
    rewrite getUint32_setUint32. rewrite Z.mod_small by (destruct Ht; subst; lia). reflexivity.
  - rewrite (getUint32_skip (setUint32 messageType) _ (length_setUint32 _)).
    rewrite getUint32_setUint32, !len_app, !len_setUint32.
    rewrite Z.mod_small by lia. f_equal. lia.
Qed.

(** X5. Every message type but 0x02 is decoded as the JSON text of the
    payload: type 0x03, named compressed, and the types the protocol does not
    know are read as type 0x01 is (an unknown type needs a payload that is not
    white space only). *)
Theorem other_types_read_as_json (messageType : Z) (payloadBytes : list byte) (v : JsValue) :
  0 <= messageType < 4294967296 -> messageType <> 2 ->
  0 < len payloadBytes < 4294967296 ->
  trim (TextDecoder_decode payloadBytes) <> ""%string ->
  parseLatteStreamBinaryProtocol
    (setUint32 messageType ++ setUint32 (len payloadBytes) ++ payloadBytes) = Ok v
  <-> JSON_parse (TextDecoder_decode payloadBytes) = Some v.
Proof.
  intros Ht H2 Hlen Htrim. rewrite parse_frame by assumption.
  assert (Hbody : match messageType with
                  | 3 => parseCompressedPayload payloadBytes
                  | 2 => parseBinaryPayloadWithMetadata payloadBytes
                  | 1 => parse_json (TextDecoder_decode payloadBytes)
                  | _ => if Z.of_nat (String.length (trim (TextDecoder_decode payloadBytes))) =? 0
                         then Throw (UnknownTypeEmptyPayload messageType)
                         else parse_json (TextDecoder_decode payloadBytes)
                  end = parse_json (TextDecoder_decode payloadBytes)).
  { destruct (Z.eq_dec messageType 1) as [->|N1]; [reflexivity|].
    destruct (Z.eq_dec messageType 3) as [->|N3]; [reflexivity|].
    rewrite other_type by assumption.
    destruct (trim (TextDecoder_decode payloadBytes)); [congruence|reflexivity]. }
  rewrite Hbody. unfold parse_json.
  destruct (JSON_parse (TextDecoder_decode payloadBytes)); cbn; split; congruence.
Qed.

Lemma ToUint8_primitive (v : JsValue) :
  primitive v = true -> exists b, ToUint8 v = Ok b.
Proof.
  destruct v; try discriminate; intros _; unfold ToUint8, ToInteger; cbn [rbind]; eauto.
Qed.

Lemma elementBytes_primitive (source : JsValue) (n k : nat) :
  (forall i, primitive (element source i) = true) ->
  exists bs, elementBytes source k n = Ok bs /\ List.length bs = n.
Proof.
  intros H. revert k. induction n as [|n IH]; intros k; cbn [elementBytes].
  - exists []. split; reflexivity.
  - destruct (ToUint8_primitive _ (H k)) as [b ->]. cbn [rbind].
    destruct (IH (S k)) as (bs & -> & Hl). cbn [rbind].
    exists (b :: bs). split; [reflexivity | cbn; rewrite Hl; reflexivity].
Qed.

Lemma element_primitive (source : JsValue) (n : Z) (i : nat) :
  byteSource source = Some n -> primitive (element source i) = true.
Proof.
  destruct source; try discriminate; cbn [byteSource element].
  - intros _. destruct (String.get i s); reflexivity.
  - destruct (forallb primitive items) eqn:E; [|discriminate]. intros _.
    rewrite forallb_forall in E.
    destruct (nth_in_or_default i items JUndefined) as [Hin| ->]; [exact (E _ Hin) | reflexivity].
  - intros _. reflexivity.
Qed.

(** A byte source is copied as the bytes of its elements are. *)
Lemma byteSource_set (source : JsValue) (n : Z) :
  byteSource source = Some n -> n <= 9007199254740991 ->
  length_of source = JNum n
  /\ exists bs, len bs = n
       /\ forall t off, Uint8Array_set t source off = Uint8Array_set t (JBytes bs) off.
Proof.
  intros Hs Hn.
  assert (Hlen : length_of source = JNum n /\ 0 <= n).
  { destruct source; try discriminate; cbn [byteSource length_of] in *.
    - injection Hs as <-. split; [reflexivity | lia].
    - destruct (forallb primitive items); [|discriminate]. injection Hs as <-.
      split; [reflexivity | apply len_nonneg].
    - injection Hs as <-. split; [reflexivity | apply len_nonneg]. }
  destruct Hlen as [Hlen H0]. split; [exact Hlen|].
  destruct source as [| | | |s|items|fs|bs]; try discriminate.
  - destruct (elementBytes_primitive (JStr s) (Z.to_nat n) 0
                (fun i => element_primitive (JStr s) i Hs)) as (bs & Hb & Hl).
    exists bs. split; [unfold len; lia|]. intros t off.
    unfold Uint8Array_set. rewrite Hlen. unfold ToLength, ToInteger.
    cbn [integerOfPrimitive rbind].
    assert (E : (if n <=? 0 then 0 else Z.min n 9007199254740991) = n).
    { destruct (Z.leb_spec n 0); lia. }
    rewrite E, Hb. cbn [rbind]. replace (len bs) with n by (unfold len; lia). reflexivity.
  - destruct (elementBytes_primitive (JArr items) (Z.to_nat n) 0
                (fun i => element_primitive (JArr items) i Hs)) as (bs & Hb & Hl).
    exists bs. split; [unfold len; lia|]. intros t off.
    unfold Uint8Array_set. rewrite Hlen. unfold ToLength, ToInteger.
    cbn [integerOfPrimitive rbind].
    assert (E : (if n <=? 0 then 0 else Z.min n 9007199254740991) = n).
    { destruct (Z.leb_spec n 0); lia. }
    rewrite E, Hb. cbn [rbind]. replace (len bs) with n by (unfold len; lia). reflexivity.
  - cbn in Hs. injection Hs as <-. exists bs. split; reflexivity.
Qed.

(** X6. When [createBinaryMessage] returns. A type other than 1 and 2 is
    refused, and type 1 returns for every payload. For type 2: falsy
    [binaryData] or [metadata] is refused ([0], [""] and [null] too, though
    they are JSON); with truthy metadata, [binaryData] that is [true] or a
    number other than 0 has no length and ends in a [RangeError]; truthy
    [binaryData] that is a [Uint8Array], a string or an array of primitive
    values is copied behind the metadata, one byte for each element, and the
    message is returned (its payload within [2^53 - 1] bytes). *)
Theorem createBinaryMessage_returns (messageType : Z) (payload : JsValue) :
  (messageType <> 1 -> messageType <> 2 ->
   createBinaryMessage messageType payload = Throw (UnsupportedMessageType messageType))
  /\ (exists message, createBinaryMessage 1 payload = Ok message)
  /\ forall binaryData metadata,
       get_prop payload "binaryData" = Ok binaryData ->
       get_prop payload "metadata" = Ok metadata ->
       (truthy binaryData && truthy metadata = false ->
        createBinaryMessage 2 payload = Throw RequiresMetadataAndBinaryData)
       /\ (truthy metadata = true ->
           binaryData = JBool true \/ (exists n, binaryData = JNum n /\ n <> 0) ->
           createBinaryMessage 2 payload = Throw RangeError)
       /\ (forall n,
             truthy binaryData = true -> truthy metadata = true ->
             byteSource binaryData = Some n ->
             4 + len (encode_json metadata) + n <= 9007199254740991 ->
             exists bytes,
               len bytes = n
               /\ createBinaryMessage 2 payload
                  = Ok (setUint32 2
                        ++ setUint32 (4 + len (encode_json metadata) + n)
                        ++ setUint32 (len (encode_json metadata))
                        ++ encode_json metadata ++ bytes)).
Proof.
  split; [|split].
  - intros N1 N2. unfold createBinaryMessage.
    destruct messageType as [|p|p]; try reflexivity.
    destruct p as [[q|q|]|[q|q|]|]; try reflexivity; congruence.
  - cbn. eauto.
  - intros binaryData metadata Eb Em. unfold createBinaryMessage. rewrite Eb, Em.
    cbn [rbind]. split; [|split].
    + intros H. apply andb_false_iff in H as [->| ->]; cbn [negb orb];
        [|rewrite orb_true_r]; reflexivity.
    + intros Hm Hb. rewrite Hm.
      assert (Ht : truthy binaryData = true).
      { destruct Hb as [->|(n & -> & Hn)]; cbn; [reflexivity|].
        destruct (Z.eqb_spec n 0); [contradiction | reflexivity]. }
      rewrite Ht. cbn [negb orb].
      assert (El : length_of binaryData = JUndefined).
      { destruct Hb as [->|(n & -> & _)]; reflexivity. }
      rewrite El. reflexivity.
    + intros n Hb Hm Hs Hn. rewrite Hb, Hm. cbn [negb orb].
      pose proof (len_nonneg (encode_json metadata)) as H0.
      destruct (byteSource_set binaryData Hs ltac:(lia)) as (Hlen & bs & Hl & Hset).
      rewrite (@payload_bytes _ (encode_json metadata) bs binaryData).
      * cbn [rbind]. exists bs. split; [exact Hl|].
        rewrite !len_app, len_setUint32, Hl. rewrite Z.add_assoc. reflexivity.
      * rewrite Hl. exact Hn.
      * rewrite Hlen, Hl. reflexivity.
      * exact Hset.
Qed.

End WithPlatform.

End BinaryEntryFacts.

(* ------------------------------------------------------------------ *)
(** ** server/encryption.ts and server/auth.ts *)
(* ------------------------------------------------------------------ *)

Module ServerAuthFacts.
Import Crypto EncryptionHelper EncryptionHelperFacts ServerAuthorizer.
Local Open Scope string_scope.

(** X7. [verifyWebhookSignature] accepts one signature for a payload, the
    one [generateWebhookSignature] computes, and no other string. *)
Theorem webhook_signature_exact (masterKey payload signature : string) :
  EncryptionHelper.verifyWebhookSignature masterKey payload signature = true
  <-> signature = EncryptionHelper.generateWebhookSignature masterKey payload.
Proof.
  unfold EncryptionHelper.verifyWebhookSignature. apply constantTimeCompare_eq.
Qed.

Lemma split_leading_colon (s : string) :
  exists fs, split_colon (":" ++ s) = "" :: fs.
Proof. cbn. eauto. Qed.

Lemma split_trailing_colon (s : string) :
  no_colon s = true -> split_colon (s ++ ":") = [s; ""].
Proof.
  intros H. change (s ++ ":") with (s ++ ":" ++ ""). rewrite (split_field _ _ H). reflexivity.
Qed.

(** X8. [verifyAuthString] refuses an auth string that has no colon, an
    empty socket id or an empty signature, whatever the channel. *)
Theorem verifyAuthString_malformed (masterKey channelName : string)
        (channelData : option string) (s : string) :
  (no_colon s = true -> verifyAuthString masterKey s channelName channelData = false)
  /\ verifyAuthString masterKey (":" ++ s) channelName channelData = false
  /\ (no_colon s = true ->
      verifyAuthString masterKey (s ++ ":") channelName channelData = false).
Proof.
  split; [|split].
  - intros H. unfold verifyAuthString. rewrite (split_no_colon _ H). reflexivity.
  - unfold verifyAuthString. destruct (split_leading_colon s) as [fs ->].
    destruct fs; reflexivity.
  - intros H. unfold verifyAuthString. rewrite (split_trailing_colon _ H).
    cbn [String.eqb]. rewrite orb_true_r. reflexivity.
Qed.

Lemma span_class (p : ascii -> bool) (s a r : string) :
  span p s = (a, r) ->
  s = a ++ r /\ forallb p (list_ascii_of_string a) = true.
Proof.
  revert a r. induction s as [|c s IH]; cbn; intros a r.
  - intros [= <- <-]. auto.
  - destruct (p c) eqn:Ec.
    + destruct (span p s) as [a' r'] eqn:E. intros [= <- <-].
      destruct (IH _ _ eq_refl) as [-> H]. cbn. rewrite Ec, H. auto.
    + intros [= <- <-]. auto.
Qed.

Lemma hex_char_no_colon (c : ascii) : is_hex_char c = true -> Ascii.eqb c ":" = false.
Proof.
  destruct (Ascii.eqb_spec c ":") as [->|]; [|reflexivity]. vm_compute. discriminate.
Qed.

Lemma hex_chars_no_colon (a : string) :
  forallb is_hex_char (list_ascii_of_string a) = true -> no_colon a = true.
Proof.
  unfold no_colon. induction a as [|c a IH]; cbn; [reflexivity|].
  intros H. apply andb_true_iff in H as [Hc Ha].
  rewrite (hex_char_no_colon _ Hc), (IH Ha). reflexivity.
Qed.

Lemma no_colon_app (a b : string) :
  no_colon a = true -> no_colon b = true -> no_colon (a ++ b) = true.
Proof.
  unfold no_colon. induction a as [|c a IH]; cbn; [auto|].
  intros H Hb. apply andb_true_iff in H as [Hc Ha]. rewrite Hc, (IH Ha Hb). reflexivity.
Qed.

(** A socket id that [isValidSocketId] accepts is a string that is not empty
    and holds no colon. *)
Lemma valid_socket_id (socketId : JsValue) :
  isValidSocketId socketId = true ->
  exists s, socketId = JStr s /\ s <> "" /\ no_colon s = true.
Proof.
  destruct socketId as [| |b|n|s|l|f|bs]; try discriminate. cbn.
  destruct (String.eqb_spec s "") as [|Hne]; [discriminate|].
  intros H. exists s. split; [reflexivity|]. split; [exact Hne|].
  unfold socketIdPattern in H.
  destruct (span is_hex_char s) as [a r] eqn:E1. destruct (span_class _ _ E1) as [-> Ha].
  destruct a as [|c a]; [discriminate|]. destruct r as [|d r]; [discriminate|].
  destruct (Ascii.eqb_spec d ".") as [->|Hd].
  2:{ exfalso. revert H. clear -Hd.
      destruct d as [[] [] [] [] [] [] [] []]; try discriminate. congruence. }
  destruct (span is_hex_char r) as [b r'] eqn:E2. destruct (span_class _ _ E2) as [-> Hb].
  destruct b as [|c' b]; [discriminate|]. destruct r' as [|]; [|discriminate].
  apply no_colon_app; [apply hex_chars_no_colon; exact Ha|].
  change (String "." (String c' b ++ "")) with ("." ++ (String c' b ++ "")).
  apply no_colon_app; [reflexivity|]. apply no_colon_app; [|reflexivity].
  apply hex_chars_no_colon. exact Hb.
Qed.

Lemma generated_verifies (masterKey s channelName : string) (channelData : option string) :
  s <> "" -> no_colon s = true ->
  verifyAuthString masterKey (generateAuthString masterKey s channelName channelData)
    channelName channelData = true.
Proof.
  intros Hne Hs. apply verifyAuthString_spec.
  exists s, (createHmac_sha256_hex masterKey (finalString s channelName channelData)), [].
  unfold generateAuthString.
  rewrite (split_field _ _ Hs), (split_no_colon _ (hmac_hex_no_colon _ _)). auto.
Qed.

Section WithPlatform.
Context {P : Platform}.

(** X9. When [authorizeChannel] returns, its two arguments are strings that
    pass the two validators, the result carries no channel data, and
    [verifyChannelAuth] accepts its [auth] for that channel: the socket ids the
    validator lets through hold no colon. *)
Theorem authorizeChannel_verifies (masterKey : string) (socketId channelName : JsValue)
        (r : AuthenticationResult) :
  authorizeChannel masterKey socketId channelName = Done r ->
  exists s c,
    socketId = JStr s /\ channelName = JStr c
    /\ isValidSocketId socketId = true /\ isValidChannelName channelName = true
    /\ r = mkAuth (generateAuthString masterKey s c None) None
    /\ verifyChannelAuth masterKey (auth r) c None = true.
Proof.
  unfold authorizeChannel.
  destruct (isValidChannelName channelName) eqn:Ec; [|discriminate].
  destruct (isValidSocketId socketId) eqn:Es; [|discriminate]. cbn [negb].
  destruct (valid_socket_id _ Es) as (s & -> & Hne & Hs).
  destruct channelName as [| |b|n|c|l|f|bs]; try discriminate.
  intros [= <-]. exists s, c. repeat split. cbn [auth].
  apply generated_verifies; assumption.
Qed.

(** X10. [authorizePresenceChannel] returns for every channel name that
    starts with ["presence-"], whatever else the name holds (the name is not
    passed to [isValidChannelName]), when the socket id is valid and the user
    data is an object with a truthy [user_id]; the channel data it returns is
    the JSON text of the user data, and [verifyChannelAuth] accepts the pair. *)
Theorem authorizePresenceChannel_verifies (masterKey : string) (socketId : JsValue)
        (channelName : string) (userData user_id : JsValue) :
  startsWith channelName "presence-" = true ->
  isValidSocketId socketId = true ->
  truthy userData = true -> is_object userData = true ->
  get_prop userData "user_id" = Ok user_id -> truthy user_id = true ->
  exists r,
    authorizePresenceChannel masterKey socketId channelName userData = Done r
    /\ channelData r = JSON_stringify userData
    /\ verifyChannelAuth masterKey (auth r) channelName (channelData r) = true.
Proof.
  intros Hp Hs Ht Ho Hu Hi. unfold authorizePresenceChannel.
  rewrite Hp, Hs, Ht, Ho, Hu, Hi. cbn [negb orb].
  destruct (valid_socket_id _ Hs) as (s & -> & Hne & Hc).
  eexists. split; [reflexivity|]. cbn [auth channelData]. split; [reflexivity|].
  apply generated_verifies; assumption.
Qed.

End WithPlatform.

End ServerAuthFacts.

(* ------------------------------------------------------------------ *)
(** ** client/performance.ts: [MessageQueue], [ObjectPool], [debounce] *)
(* ------------------------------------------------------------------ *)

Module QueueFacts.
Import Connection Predicates.

Lemma sendRaw_open (w : World) (i : nat) (data : JsValue) :
  ws (conn w) = Some i -> socketState i w = Some OPEN ->
  sendRaw data w = (Ok true, set_rt (set_wire (wire (rt w) ++ [(i, data)]) (rt w)) w).
Proof.
  unfold socketState, sendRaw, bind, get, modify_rt, modify, ret. intros -> H.
  destruct (nth_error (sockets (rt w)) i) as [[u s]|]; [|discriminate].
  cbn in H. injection H as ->. reflexivity.
Qed.

Lemma sendRaw_not_open (w : World) (data : JsValue) :
  (forall i, ws (conn w) = Some i -> socketState i w <> Some OPEN) ->
  sendRaw data w = (Ok false, w).
Proof.
  unfold socketState, sendRaw, bind, get, ret. intros H.
  destruct (ws (conn w)) as [i|]; [|reflexivity]. specialize (H i eq_refl).
  destruct (nth_error (sockets (rt w)) i) as [[u s]|]; [|reflexivity].
  destruct s; try reflexivity. exfalso. apply H. reflexivity.
Qed.

Lemma find_timer_filter (h : nat) (ts : list Timer) :
  find_timer h (filter (fun t => negb (Nat.eqb (handle t) h)) ts) = None.
Proof.
  unfold find_timer. induction ts as [|t ts IH]; cbn; [reflexivity|].
  destruct (Nat.eqb (handle t) h) eqn:E; cbn; [exact IH|]. rewrite E. exact IH.
Qed.

(** [clearFlushTimer], as [flush] and [clear] start: the field is emptied,
    the timer is cancelled, nothing else moves. *)
Lemma clearFlushTimer_effect (w : World) :
  let w1 := exec clearFlushTimer w in
  fst (clearFlushTimer w) = Ok tt
  /\ conn w1 = set_flushTimer None (conn w)
  /\ sockets (rt w1) = sockets (rt w) /\ wire (rt w1) = wire (rt w)
  /\ nextHandle (rt w1) = nextHandle (rt w)
  /\ cl w1 = cl w /\ options w1 = options w
  /\ timers (rt w1) = match flushTimer (conn w) with
                      | Some h => filter (fun t => negb (Nat.eqb (handle t) h)) (timers (rt w))
                      | None => timers (rt w)
                      end.
Proof.
  unfold exec, clearFlushTimer, clearTimeout, bind, get, modify_conn, modify_rt, modify, ret.
  destruct w as [k o c r cl0]. destruct c as [w0 st n rtm atm ptm sid dt dd db q ft].
  destruct ft; cbn; repeat split; reflexivity.
Qed.

(** X11. [MessageQueue.flush] with the socket open: the queue is emptied and
    its timer cancelled; one queued message is sent as it is, several are sent
    as one [lattestream:batch] frame that holds them in the order they were
    queued. *)
Theorem flush_sends (w : World) (i : nat) :
  ws (conn w) = Some i -> socketState i w = Some OPEN ->
  let w' := exec flush w in
  queue (conn w') = []
  /\ flushTimer (conn w') = None
  /\ wire (rt w')
     = wire (rt w) ++ match queue (conn w) with
                      | [] => []
                      | [message] => [(i, message)]
                      | messages => [(i, batchMessage messages)]
                      end
  /\ forall h, flushTimer (conn w) = Some h -> find_timer h (timers (rt w')) = None.
Proof.
  intros Hws Hopen w'. pose proof (clearFlushTimer_effect w) as E. cbv zeta in E.
  destruct E as (Hr & Hc & Hs & Hw & _ & _ & _ & Ht).
  assert (Ew : w' = snd (flush w)) by reflexivity. clearbody w'. revert Ew.
  unfold exec in *. unfold flush. unfold bind at 1.
  destruct (clearFlushTimer w) as [r w1]. cbn [fst snd] in *. subst r.
  assert (Hws1 : ws (conn w1) = Some i) by (rewrite Hc; exact Hws).
  assert (Hopen1 : forall w2, sockets (rt w2) = sockets (rt w1) -> socketState i w2 = Some OPEN).
  { intros w2 H2. unfold socketState in *. rewrite H2, Hs. exact Hopen. }
  assert (Hq : queue (conn w1) = queue (conn w)) by (rewrite Hc; reflexivity).
  assert (Hgone : forall h, flushTimer (conn w) = Some h -> find_timer h (timers (rt w1)) = None).
  { intros h Hh. rewrite Ht, Hh. apply find_timer_filter. }
  unfold bind, get. rewrite Hq.
  destruct (queue (conn w)) as [|m [|m' q]] eqn:Eq.
  - unfold ret. cbn [fst snd]. intros ->. rewrite Hc, Hw, app_nil_r. cbn. rewrite Eq.
    repeat split; auto.
  - unfold modify_conn, modify. cbn [fst snd].
    rewrite sendRaw_open with (i := i); [|exact Hws1|apply Hopen1; reflexivity].
    cbn. intros ->. cbn. rewrite Hc, Hw. repeat split; auto.
  - unfold modify_conn, modify. cbn [fst snd].
    rewrite sendRaw_open with (i := i); [|exact Hws1|apply Hopen1; reflexivity].
    cbn. intros ->. cbn. rewrite Hc, Hw. repeat split; auto.
Qed.

(** X12. [MessageQueue.flush] while the socket is not open (none, or one
    that is connecting, closing or closed): the queue is emptied all the same
    and nothing is sent, so the queued messages are lost. *)
Theorem flush_drops_when_not_open (w : World) :
  (forall i, ws (conn w) = Some i -> socketState i w <> Some OPEN) ->
  let w' := exec flush w in
  queue (conn w') = [] /\ flushTimer (conn w') = None /\ wire (rt w') = wire (rt w).
Proof.
  intros Hno w'. pose proof (clearFlushTimer_effect w) as E. cbv zeta in E.
  destruct E as (Hr & Hc & Hs & Hw & _ & _ & _ & Ht).
  assert (Ew : w' = snd (flush w)) by reflexivity. clearbody w'. revert Ew.
  unfold exec in *. unfold flush. unfold bind at 1.
  destruct (clearFlushTimer w) as [r w1]. cbn [fst snd] in *. subst r.
  assert (Hno1 : forall w2, ws (conn w2) = ws (conn w1) -> sockets (rt w2) = sockets (rt w1) ->
                            forall i, ws (conn w2) = Some i -> socketState i w2 <> Some OPEN).
  { intros w2 H1 H2 i Hi. unfold socketState in *. rewrite H2, Hs. apply Hno.
    rewrite <- Hi, H1, Hc. reflexivity. }
  assert (Hq : queue (conn w1) = queue (conn w)) by (rewrite Hc; reflexivity).
  unfold bind, get. rewrite Hq.
  destruct (queue (conn w)) as [|m [|m' q]] eqn:Eq.
  - unfold ret. cbn [fst snd]. intros ->. rewrite Hc, Hw. cbn. rewrite Eq. repeat split; auto.
  - unfold modify_conn, modify. cbn [fst snd].
    rewrite sendRaw_not_open by (apply Hno1; reflexivity).
    cbn. intros ->. cbn. rewrite Hc, Hw. auto.
  - unfold modify_conn, modify. cbn [fst snd].
    rewrite sendRaw_not_open by (apply Hno1; reflexivity).
    cbn. intros ->. cbn. rewrite Hc, Hw. auto.
Qed.

Lemma sendRaw_frame (w : World) (data : JsValue) :
  conn (snd (sendRaw data w)) = conn w
  /\ cl (snd (sendRaw data w)) = cl w
  /\ timers (rt (snd (sendRaw data w))) = timers (rt w)
  /\ (wire (rt (snd (sendRaw data w))) = wire (rt w)
      \/ exists i, wire (rt (snd (sendRaw data w))) = wire (rt w) ++ [(i, data)]).
Proof.
  unfold sendRaw, bind, get, modify_rt, modify, ret.
  destruct (ws (conn w)) as [i|]; [|cbn; auto].
  destruct (nth_error (sockets (rt w)) i) as [[u s]|]; [|cbn; auto].
  destruct s; cbn; eauto 6.
Qed.

(** After [flush] the queue is empty and no flush timer is recorded. *)
Lemma flush_empties (w : World) :
  queue (conn (exec flush w)) = [] /\ flushTimer (conn (exec flush w)) = None.
Proof.
  pose proof (clearFlushTimer_effect w) as E. cbv zeta in E.
  destruct E as (Hr & Hc & _).
  remember (exec flush w) as w' eqn:Ew. revert Ew.
  unfold exec in *. unfold flush. unfold bind at 1.
  destruct (clearFlushTimer w) as [r w1]. cbn [fst snd] in *. subst r.
  unfold bind, get.
  destruct (queue (conn w1)) as [|m [|m' q]] eqn:Eq.
  - unfold ret. cbn [snd]. intros ->. rewrite Eq, Hc. auto.
  - unfold modify_conn, modify. cbn [fst snd].
    destruct (sendRaw_frame (set_conn (set_queue [] (conn w1)) w1) m) as (H & _).
    destruct (sendRaw m _) as [[b|e] w2]; unfold ret; cbn [snd] in *; intros ->;
      rewrite H, Hc; auto.
  - unfold modify_conn, modify. cbn [fst snd].
    destruct (sendRaw_frame (set_conn (set_queue [] (conn w1)) w1)
                            (batchMessage (m :: m' :: q))) as (H & _).
    destruct (sendRaw _ _) as [[b|e] w2]; unfold ret; cbn [snd] in *; intros ->;
      rewrite H, Hc; auto.
Qed.

(** X13. After [MessageQueue.enqueue] the queue holds fewer messages than
    the batch size ([options.batchSize || 10]), whatever it held before: either
    it was flushed and is empty, or the message was added at its end, nothing
    was sent and a flush timer is recorded. *)
Theorem enqueue_bounded (w : World) (message : JsValue) :
  let size := num_or (batchSize (options w)) 10 in
  let w' := exec (enqueue message) w in
  (0 < size)%Q ->
  (inject_Z (Z.of_nat (List.length (queue (conn w')))) < size)%Q
  /\ (queue (conn w') = []
      \/ queue (conn w') = queue (conn w) ++ [message]
         /\ flushTimer (conn w') <> None /\ wire (rt w') = wire (rt w)).
Proof.
  intros size w' Hsize.
  assert (Ew : w' = snd (enqueue message w)) by reflexivity. clearbody w'. revert Ew.
  unfold enqueue, bind, get, modify_conn, modify. cbn [fst snd].
  change (options (set_conn _ w)) with (options w). fold size.
  change (queue (conn (set_conn (set_queue (queue (conn w) ++ [message]) (conn w)) w)))
    with (queue (conn w) ++ [message]).
  destruct (Qle_bool size (inject_Z (Z.of_nat (List.length (queue (conn w) ++ [message])))))
    eqn:Efull.
  - intros ->. destruct (flush_empties (set_conn (set_queue (queue (conn w) ++ [message]) (conn w)) w))
      as [Hq _]. unfold exec in Hq. rewrite Hq. split; [exact Hsize | auto].
  - assert (Hlt : (inject_Z (Z.of_nat (List.length (queue (conn w) ++ [message]))) < size)%Q).
    { apply Qnot_le_lt. intros H. apply Qle_bool_iff in H. congruence. }
    destruct w as [k o c r cl0]. destruct c as [w0 st n rtm atm ptm sid dt dd db q ft].
    destruct r as [ss ts nh wr].
    destruct ft as [h|]; cbn; intros ->; cbn; (split; [exact Hlt|]); right;
      repeat split; auto; discriminate.
Qed.

End QueueFacts.

Module PoolFacts.
Import Predicates TerminalFacts PresenceFacts.

Section WithPlatform.
Context {P : Platform}.

(** X14. [ObjectPool.release] then [acquire]: the pool hands out the object
    that was released last, and [release] has reset it, so it comes back with
    an empty id and no info. *)
Theorem pool_release_acquire (w : World) (a : nat) :
  a < List.length (memberStore (cl w)) ->
  List.length (memberPool (cl w)) < 50 ->
  let w1 := exec (Channel.release a) w in
  fst (Channel.acquire w1) = Ok a
  /\ memberPool (cl (exec Channel.acquire w1)) = memberPool (cl w)
  /\ Channel.readMember a w1 = mkMember (JStr "") JUndefined.
Proof.
  intros Ha Hp. unfold exec, Channel.release, Channel.acquire, Channel.writeMember,
    Channel.readMember, bind, get, modify_cl, modify, ret.
  destruct w as [k o c r cl0]. destruct cl0 as [au chs cs ms mp em pa].
  cbn -[Nat.ltb nth update_nth] in *.
  apply Nat.ltb_lt in Hp. rewrite Hp. cbn -[nth update_nth]. repeat split.
  apply nth_update_nth. exact Ha.
Qed.

(** X15. The static member pool holds at most 50 objects: adding and
    removing presence members never takes it above that. *)
Theorem member_pool_capped (w : World) (c : nat) (member : JsValue) :
  List.length (memberPool (cl w)) <= 50 ->
  List.length (memberPool (cl (exec (Channel.handleMemberAdded c member) w))) <= 50
  /\ List.length (memberPool (cl (exec (Channel.handleMemberRemoved c member) w))) <= 50.
Proof.
  intros H. destruct w as [k o cn r cl0]. destruct cl0 as [au chs cs ms mp em pa].
  cbn in H. split.
  - unfold exec, Channel.handleMemberAdded, Channel.acquire, Channel.newMember,
      Channel.writeMember, Channel.setMember, Channel.handleEvent, Channel.emit,
      Channel.update, bind, get, lift, modify_cl, modify, ret.
    destruct mp as [|a rest]; cbn [fst snd memberPool cl];
      destruct (get_prop member "id") as [i|]; cbn in *; try lia;
      destruct (get_prop member "info") as [x|]; cbn in *; lia.
  - unfold exec, Channel.handleMemberRemoved, Channel.release, Channel.writeMember,
      Channel.handleEvent, Channel.emit, Channel.update, Channel.lookup, bind, get, lift,
      modify_cl, modify, ret.
    destruct (get_prop member "id") as [i|]; cbn -[Nat.ltb]; [|exact H].
    destruct (nth_error cs c) as [ch|]; cbn -[Nat.ltb]; [|exact H].
    destruct (JsMap.get i (members ch)) as [a|]; cbn -[Nat.ltb]; [|exact H].
    destruct (Nat.ltb_spec (List.length mp) 50); cbn; lia.
Qed.

End WithPlatform.

End PoolFacts.

Module DebounceFacts.
Import Connection.

Lemma filter_fresh (h : nat) (ts : list Timer) :
  Forall (fun t => handle t < h) ts ->
  filter (fun t => negb (Nat.eqb (handle t) h)) ts = ts.
Proof.
  induction 1 as [|t ts Ht _ IH]; cbn; [reflexivity|].
  destruct (Nat.eqb_spec (handle t) h); [lia|]. cbn. rewrite IH. reflexivity.
Qed.

Lemma Forall_filter {A} (p : A -> Prop) (f : A -> bool) (l : list A) :
  Forall p l -> Forall p (filter f l).
Proof.
  induction 1 as [|x l Hx _ IH]; cbn; [constructor|]. destruct (f x); auto.
Qed.

(** X16. Two calls of the debounced reconnect before the wait is over: the
    timer of the first call is cancelled and one timer of 100 ms, the one of
    the second call, is left pending, so that [attemptReconnect] runs once. *)
Theorem debounce_keeps_last (w : World) :
  Forall (fun t => handle t < nextHandle (rt w)) (timers (rt w)) ->
  let w2 := exec debouncedReconnect (exec debouncedReconnect w) in
  debounceTimeout (conn w2) = Some (S (nextHandle (rt w)))
  /\ timers (rt w2)
     = match debounceTimeout (conn w) with
       | Some h => filter (fun t => negb (Nat.eqb (handle t) h)) (timers (rt w))
       | None => timers (rt w)
       end ++ [mkTimer (S (nextHandle (rt w))) DebounceTimer 100].
Proof.
  intros Hfresh.
  destruct w as [k o c r cl0]. destruct c as [w0 st n rtm atm ptm sid dt dd db q ft].
  destruct r as [ss ts nh wr]. cbn in Hfresh.
  destruct db as [h|]; cbn; rewrite filter_app; cbn; rewrite Nat.eqb_refl; cbn;
    rewrite app_nil_r; (split; [reflexivity|]); f_equal; apply filter_fresh; auto.
  apply Forall_filter. exact Hfresh.
Qed.

End DebounceFacts.
(* ------------------------------------------------------------------ *)
(** ** client/performance.ts: [FastEventEmitter], [PerformanceMonitor] *)
(* ------------------------------------------------------------------ *)

Module MapFacts.

Section Maps.
Context {V : Type}.
Implicit Types (m : list (JsValue * V)) (k : string) (v : V).

Lemma svz_refl k : JsMap.same_value_zero (JStr k) (JStr k) = true.
Proof. cbn. apply String.eqb_refl. Qed.

Lemma svz_neq k k' : k <> k' -> JsMap.same_value_zero (JStr k') (JStr k) = false.
Proof. intros H. cbn. apply String.eqb_neq. congruence. Qed.

Lemma get_set_eq k v m : JsMap.get (JStr k) (JsMap.set (JStr k) v m) = Some v.
Proof.
  induction m as [|[k' v'] m IH]; cbn -[JsMap.same_value_zero].
  - rewrite svz_refl. reflexivity.
  - destruct (JsMap.same_value_zero (JStr k) k') eqn:E; cbn -[JsMap.same_value_zero];
      rewrite E; auto.
Qed.

Lemma get_set_other k k' v m :
  k <> k' -> JsMap.get (JStr k') (JsMap.set (JStr k) v m) = JsMap.get (JStr k') m.
Proof.
  intros H. induction m as [|[k0 v0] m IH]; cbn -[JsMap.same_value_zero].
  - rewrite (svz_neq H). reflexivity.
  - destruct (JsMap.same_value_zero (JStr k) k0) eqn:E; cbn -[JsMap.same_value_zero].
    + destruct k0; try discriminate. cbn in E. apply String.eqb_eq in E. subst s.
      rewrite (svz_neq H). reflexivity.
    + rewrite IH. reflexivity.
Qed.

Lemma set_same_value (key : JsValue) v m : JsMap.get key m = Some v -> JsMap.set key v m = m.
Proof.
  induction m as [|[k0 v0] m IH]; cbn -[JsMap.same_value_zero]; [discriminate|].
  destruct (JsMap.same_value_zero key k0).
  - intros [= ->]. reflexivity.
  - intros H. rewrite (IH H). reflexivity.
Qed.

Lemma get_delete (key : JsValue) m :
  JsMap.count key m <= 1 -> JsMap.get key (JsMap.delete key m) = None.
Proof.
  unfold JsMap.count. induction m as [|[k0 v0] m IH]; cbn -[JsMap.same_value_zero];
    [reflexivity|].
  destruct (JsMap.same_value_zero key k0) eqn:E; cbn -[JsMap.same_value_zero].
  - intros H. assert (H0 : List.length (filter (fun e => JsMap.same_value_zero key (fst e)) m) = 0)
      by lia.
    clear -H0. induction m as [|[k1 v1] m IH]; cbn -[JsMap.same_value_zero] in *; [reflexivity|].
    destruct (JsMap.same_value_zero key k1); [discriminate|]. auto.
  - rewrite E. exact IH.
Qed.

Lemma get_delete_other k k' m :
  k <> k' -> JsMap.get (JStr k') (JsMap.delete (JStr k) m) = JsMap.get (JStr k') m.
Proof.
  intros H. induction m as [|[k0 v0] m IH]; cbn -[JsMap.same_value_zero]; [reflexivity|].
  destruct (JsMap.same_value_zero (JStr k) k0) eqn:E; cbn -[JsMap.same_value_zero].
  - destruct k0; try discriminate. cbn in E. apply String.eqb_eq in E. subst s.
    rewrite (svz_neq H). reflexivity.
  - rewrite IH. reflexivity.
Qed.

Lemma count_set_present (key key' : JsValue) v m :
  JsMap.get key m <> None ->
  JsMap.count key' (JsMap.set key v m) = JsMap.count key' m.
Proof.
  unfold JsMap.count. induction m as [|[k0 v0] m IH]; cbn -[JsMap.same_value_zero];
    [congruence|].
  destruct (JsMap.same_value_zero key k0); cbn -[JsMap.same_value_zero].
  - destruct (JsMap.same_value_zero key' k0); reflexivity.
  - destruct (JsMap.same_value_zero key' k0); cbn -[JsMap.same_value_zero]; intros H;
      rewrite (IH H); reflexivity.
Qed.

Lemma count_set_absent k (v : V) m :
  JsMap.get (JStr k) m = None -> JsMap.count (JStr k) (JsMap.set (JStr k) v m) = 1.
Proof.
  unfold JsMap.count. induction m as [|[k0 v0] m IH]; cbn -[JsMap.same_value_zero].
  - rewrite svz_refl. reflexivity.
  - destruct (JsMap.same_value_zero (JStr k) k0) eqn:E; [discriminate|].
    cbn -[JsMap.same_value_zero]. rewrite E. exact IH.
Qed.

End Maps.

End MapFacts.

Module EmitterFacts.
Import FastEventEmitter MapFacts.

Lemma set_add_In (l : nat) (s : list nat) : In l (set_add l s).
Proof.
  unfold set_add, set_has. destruct (existsb (Nat.eqb l) s) eqn:E.
  - apply existsb_exists in E as (x & Hx & Hl). apply Nat.eqb_eq in Hl. subst. exact Hx.
  - apply in_or_app. right. left. reflexivity.
Qed.

Lemma set_add_same (l : nat) (s : list nat) : set_add l (set_add l s) = set_add l s.
Proof.
  unfold set_add at 1. unfold set_has.
  assert (H : existsb (Nat.eqb l) (set_add l s) = true).
  { apply existsb_exists. exists l. split; [apply set_add_In | apply Nat.eqb_refl]. }
  rewrite H. reflexivity.
Qed.

Lemma set_delete_not_In (l : nat) (s : list nat) : ~ In l (set_delete l s).
Proof.
  unfold set_delete. intros H. apply filter_In in H as [_ H].
  rewrite Nat.eqb_refl in H. discriminate.
Qed.

(** After [register] the listener is in the set of the event. *)
Lemma register_get (event : string) (l : nat) (m : list (JsValue * list nat)) :
  exists s, JsMap.get (JStr event) (register (JStr event) l m) = Some (set_add l s)
            /\ s = listeners (JStr event) m.
Proof.
  unfold register, listeners, JsMap.has.
  destruct (JsMap.get (JStr event) m) as [s|] eqn:E.
  - rewrite E. exists s. rewrite get_set_eq. auto.
  - rewrite get_set_eq. exists []. rewrite get_set_eq. auto.
Qed.

Lemma register_twice (event : string) (l : nat) (m : list (JsValue * list nat)) :
  register (JStr event) l (register (JStr event) l m) = register (JStr event) l m.
Proof.
  destruct (register_get event l m) as (s & Hs & _).
  unfold register at 1. unfold JsMap.has. rewrite Hs, Hs, set_add_same.
  apply set_same_value. exact Hs.
Qed.

Lemma register_other (event other : string) (l : nat) (m : list (JsValue * list nat)) :
  event <> other ->
  listeners (JStr other) (register (JStr event) l m) = listeners (JStr other) m.
Proof.
  intros H. unfold listeners, register, JsMap.has.
  destruct (JsMap.get (JStr event) m) as [s|] eqn:E.
  - rewrite E, get_set_other by exact H. reflexivity.
  - rewrite get_set_eq, !get_set_other by exact H. reflexivity.
Qed.

Lemma unregister_listeners (event : string) (l : nat) (m : list (JsValue * list nat)) :
  listeners (JStr event) (unregister (JStr event) l m)
  = set_delete l (listeners (JStr event) m).
Proof.
  unfold listeners, unregister. destruct (JsMap.get (JStr event) m) as [s|] eqn:E.
  - rewrite get_set_eq. reflexivity.
  - rewrite E. reflexivity.
Qed.

Lemma unregister_other (event other : string) (l : nat) (m : list (JsValue * list nat)) :
  event <> other ->
  listeners (JStr other) (unregister (JStr event) l m) = listeners (JStr other) m.
Proof.
  intros H. unfold listeners, unregister. destruct (JsMap.get (JStr event) m) as [s|] eqn:E.
  - rewrite get_set_other by exact H. reflexivity.
  - reflexivity.
Qed.

(** X17. A listener registered with [once] and not with [on] is called by
    the next [emit] of its event and by no later one. *)
Theorem once_listener_runs_once (e : Emitter) (event : string) (l : nat) :
  ~ In l (listeners (JStr event) (events e)) ->
  JsMap.count (JStr event) (onceEvents e) <= 1 ->
  let first := emit event (once event l e) in
  let second := emit event (snd first) in
  In l (fst first) /\ ~ In l (fst second)
  /\ fst second = listeners (JStr event) (events e).
Proof.
  intros Hon Hcount. cbn [emit once fst snd events onceEvents].
  destruct (register_get event l (onceEvents e)) as (s & Hs & _).
  assert (Hgone : listeners (JStr event)
                    (JsMap.delete (JStr event) (register (JStr event) l (onceEvents e))) = []).
  { unfold listeners. rewrite get_delete; [reflexivity|].
    unfold register, JsMap.has.
    destruct (JsMap.get (JStr event) (onceEvents e)) as [s0|] eqn:E.
    - rewrite E, count_set_present by congruence. exact Hcount.
    - rewrite get_set_eq, count_set_present by (rewrite get_set_eq; congruence).
      rewrite count_set_absent by exact E. lia. }
  rewrite Hgone, app_nil_r. split; [|split; [exact Hon | reflexivity]].
  apply in_or_app. right. unfold listeners. rewrite Hs. apply set_add_In.
Qed.

(** X18. The listeners of an event are a set: registering the same function
    a second time with [on] changes nothing, so [emit] still calls it once for
    that registration; and it leaves the listeners of every other event as
    they are. *)
Theorem on_same_listener_twice (e : Emitter) (event : string) (l : nat) :
  on event l (on event l e) = on event l e
  /\ forall other, event <> other -> fst (emit other (on event l e)) = fst (emit other e).
Proof.
  split.
  - unfold on. cbn [events onceEvents]. rewrite register_twice. reflexivity.
  - intros other H. cbn [emit on fst events onceEvents]. rewrite register_other by exact H.
    reflexivity.
Qed.

(** X19. After [off(event, listener)] no [emit] of the event calls the
    listener, whether it was registered with [on] or with [once], and the
    listeners of the other events are called as before; after [off(event)]
    with no listener an [emit] of the event calls nobody. *)
Theorem off_removes_listener (e : Emitter) (event : string) (l : nat) :
  JsMap.count (JStr event) (events e) <= 1 ->
  JsMap.count (JStr event) (onceEvents e) <= 1 ->
  ~ In l (fst (emit event (off event (Some l) e)))
  /\ (forall other, event <> other ->
        fst (emit other (off event (Some l) e)) = fst (emit other e)
        /\ fst (emit other (off event None e)) = fst (emit other e))
  /\ fst (emit event (off event None e)) = [].
Proof.
  intros H1 H2. cbn [emit off fst events onceEvents]. split; [|split].
  - rewrite !unregister_listeners. intros H. apply in_app_or in H as [H|H];
      exact (set_delete_not_In _ _ H).
  - intros other H. rewrite !unregister_other by exact H.
    unfold listeners. rewrite !get_delete_other by exact H. auto.
  - unfold listeners. rewrite !get_delete by assumption. reflexivity.
Qed.

End EmitterFacts.

Module MonitorFacts.
Import PerformanceMonitor MapFacts.

(** The samples of [label] after the values [vs] were added in turn. *)
Lemma tl_skipn_snoc {A} (k : nat) (l : list A) (v : A) :
  k < List.length l -> tl (skipn k l ++ [v]) = skipn (S k) (l ++ [v]).
Proof.
  revert k. induction l as [|x l IH]; intros k H; cbn in H; [lia|].
  destruct k as [|k].
  - reflexivity.
  - cbn [skipn app]. destruct l as [|y l]; [cbn in H; lia|].
    rewrite IH by (cbn in *; lia). reflexivity.
Qed.

Lemma skipn_snoc {A} (k : nat) (l : list A) (v : A) :
  k <= List.length l -> skipn k l ++ [v] = skipn k (l ++ [v]).
Proof. intros H. rewrite skipn_app. replace (k - List.length l) with 0 by lia. reflexivity. Qed.

(** X20. [PerformanceMonitor] keeps a window of the last 100 samples of a
    label: after any number of [addMetric] calls on a label that had no
    samples, the samples kept are the last 100 values added, oldest first. *)
Theorem samples_window (label : string) (values : list Q) (metrics : list (JsValue * list Q)) :
  JsMap.get (JStr label) metrics = None ->
  values <> [] ->
  JsMap.get (JStr label) (fold_left (fun m v => addMetric label v m) values metrics)
  = Some (skipn (List.length values - maxSamples) values).
Proof.
  intros Hnone. induction values as [|v values IH] using rev_ind; [congruence|]. intros _.
  rewrite fold_left_app. cbn [fold_left].
  set (m := fold_left (fun m v => addMetric label v m) values metrics) in *.
  unfold addMetric, JsMap.has.
  destruct values as [|v0 values'] eqn:Ev.
  - subst m. cbn [fold_left]. rewrite Hnone, get_set_eq, get_set_eq. reflexivity.
  - rewrite <- Ev in *. assert (Hne : values <> []) by (rewrite Ev; discriminate).
    rewrite (IH Hne), (IH Hne), get_set_eq. f_equal.
    rewrite length_app, length_app. cbn [List.length].
    rewrite length_skipn. unfold maxSamples.
    destruct (Nat.ltb_spec 100 (List.length values - (List.length values - 100) + 1)).
    + rewrite tl_skipn_snoc by lia. f_equal. lia.
    + rewrite skipn_snoc by lia. f_equal. lia.
Qed.

End MonitorFacts.
(* ------------------------------------------------------------------ *)
(** ** client/channel.ts *)
(* ------------------------------------------------------------------ *)

Module ChannelFacts.
Import Connection Predicates PresencePredicates TerminalFacts RegistryFacts PresenceFacts
       MapFacts QueueFacts.

Lemma set_absent {V} (k : string) (v : V) (m : list (JsValue * V)) :
  JsMap.get (JStr k) m = None -> JsMap.set (JStr k) v m = m ++ [(JStr k, v)].
Proof.
  induction m as [|[k0 v0] m IH]; cbn -[JsMap.same_value_zero]; [reflexivity|].
  destruct (JsMap.same_value_zero (JStr k) k0); [discriminate|].
  intros H. rewrite (IH H). reflexivity.
Qed.

Lemma delete_set_absent {V} (k : string) (v : V) (m : list (JsValue * V)) :
  JsMap.get (JStr k) m = None -> JsMap.delete (JStr k) (JsMap.set (JStr k) v m) = m.
Proof.
  induction m as [|[k0 v0] m IH]; cbn -[JsMap.same_value_zero].
  - rewrite svz_refl. reflexivity.
  - destruct (JsMap.same_value_zero (JStr k) k0) eqn:E; [discriminate|].
    cbn -[JsMap.same_value_zero]. rewrite E. intros H. rewrite (IH H). reflexivity.
Qed.

Lemma update_nth_id {A} (i : nat) (f : A -> A) (l : list A) (x : A) :
  nth_error l i = Some x -> f x = x -> update_nth i f l = l.
Proof.
  revert i. induction l as [|y l IH]; intros [|i]; cbn; try discriminate.
  - intros [= ->] ->. reflexivity.
  - intros H Hf. rewrite (IH _ H Hf). reflexivity.
Qed.

Section WithPlatform.
Context {P : Platform}.

(** What [handleMemberRemoved] does for an id that is in the map. *)
Lemma handleMemberRemoved_present (w : World) (c : nat) (ch : Channel)
      (member i : JsValue) (a : nat) :
  Channel.lookup c w = Some ch ->
  get_prop member "id" = Ok i ->
  JsMap.get i (members ch) = Some a ->
  let w' := exec (Channel.handleMemberRemoved c member) w in
  channelStore (cl w')
  = update_nth c (fun ch => set_members (JsMap.delete i (members ch)) ch)
               (channelStore (cl w))
  /\ memberStore (cl w')
     = update_nth a (fun _ => mkMember (JStr "") JUndefined) (memberStore (cl w))
  /\ memberPool (cl w')
     = (if (List.length (memberPool (cl w)) <? 50)%nat
        then a :: memberPool (cl w) else memberPool (cl w))
  /\ emitted (cl w')
     = emitted (cl w) ++ [mkEmitted (Some c) (JStr "lattestream:member_removed")
                                    (PMember a (Channel.readMember a w))].
Proof.
  intros Hc Hi Hg.
  unfold exec, Channel.handleMemberRemoved, Channel.release, Channel.writeMember,
    Channel.handleEvent, Channel.emit, Channel.update, bind, get, lift, modify_cl,
    modify, ret.
  rewrite Hi. cbn [fst snd]. rewrite Hc, Hg.
  destruct w as [k o cn r cl0]. destruct cl0 as [au chs cs ms mp em pa].
  cbn -[Nat.ltb update_nth]. destruct (List.length mp <? 50)%nat; cbn -[update_nth]; auto.
Qed.

(** X21. Adding a member whose id is not in the map and then removing it
    leaves the channel object as it was, members and count included; the two
    events are emitted on the channel, each with the member's id and info. *)
Theorem member_add_then_remove (w : World) (c : nat) (ch : Channel) (s : string)
        (x member : JsValue) :
  Channel.lookup c w = Some ch ->
  Channel.poolValid w ->
  JsMap.get (JStr s) (members ch) = None ->
  get_prop member "id" = Ok (JStr s) -> get_prop member "info" = Ok x ->
  let w2 := exec (Channel.handleMemberRemoved c member)
                 (exec (Channel.handleMemberAdded c member) w) in
  Channel.lookup c w2 = Some ch
  /\ Channel.getMemberCount c w2 = Channel.getMemberCount c w
  /\ exists a,
       emitted (cl w2)
       = emitted (cl w)
         ++ [mkEmitted (Some c) (JStr "lattestream:member_added")
                       (PMember a (mkMember (JStr s) x));
             mkEmitted (Some c) (JStr "lattestream:member_removed")
                       (PMember a (mkMember (JStr s) x))].
Proof.
  intros Hc Hv Hg Hi Hx w2.
  pose proof (handleMemberAdded_effect w c member Hi Hx) as E.
  destruct (@handleMemberAdded_lookup _ w c ch member _ _ Hv Hc Hi Hx) as (a' & Hc1 & Hr1 & _).
  pose proof (acquired_valid Hv) as V.
  destruct (acquired w) as [[a store] pool]. destruct V as [Va _].
  destruct E as (Hcs & Hms & _ & Hem).
  set (w1 := exec (Channel.handleMemberAdded c member) w) in *.
  assert (Ha' : a' = a).
  { unfold Channel.lookup in Hc1. rewrite Hcs in Hc1.
    unfold Channel.lookup in Hc. rewrite (nth_error_update_nth _ _ _ Hc) in Hc1.
    injection Hc1 as H.
    rewrite !set_absent in H by exact Hg. apply app_inv_head in H. congruence. }
  subst a'.
  assert (Hg1 : JsMap.get (JStr s) (members (set_members (JsMap.set (JStr s) a (members ch)) ch))
                = Some a) by (cbn; apply get_set_eq).
  destruct (@handleMemberRemoved_present w1 c _ member _ a Hc1 Hi Hg1) as (Hcs2 & _ & _ & Hem2).
  fold w2 in Hcs2, Hem2.
  assert (Hl2 : Channel.lookup c w2 = Some ch).
  { unfold Channel.lookup in *. rewrite Hcs2, (nth_error_update_nth _ _ _ Hc1). f_equal.
    cbn. rewrite delete_set_absent by exact Hg. destruct ch; reflexivity. }
  split; [exact Hl2|]. split.
  - unfold Channel.getMemberCount. rewrite Hl2, Hc. reflexivity.
  - exists a. rewrite Hem2, Hem, Hr1, <- app_assoc. reflexivity.
Qed.

(** X22. While the pool holds fewer than 50 objects, the object handed to the
    listeners of [member_removed] is reset and goes back to the pool, and the
    next [handleMemberAdded] takes it again: the same object then holds the
    new member, under the new id in the map. *)
Theorem removed_member_object_reused (w : World) (c : nat) (ch : Channel)
        (member1 member2 i : JsValue) (s2 : string) (x2 : JsValue) (a : nat) :
  Channel.lookup c w = Some ch ->
  get_prop member1 "id" = Ok i -> JsMap.get i (members ch) = Some a ->
  a < List.length (memberStore (cl w)) ->
  List.length (memberPool (cl w)) < 50 ->
  get_prop member2 "id" = Ok (JStr s2) -> get_prop member2 "info" = Ok x2 ->
  let w1 := exec (Channel.handleMemberRemoved c member1) w in
  let w2 := exec (Channel.handleMemberAdded c member2) w1 in
  emitted (cl w1)
  = emitted (cl w) ++ [mkEmitted (Some c) (JStr "lattestream:member_removed")
                                 (PMember a (Channel.readMember a w))]
  /\ Channel.readMember a w1 = mkMember (JStr "") JUndefined
  /\ Channel.readMember a w2 = mkMember (JStr s2) x2
  /\ Channel.getMember c (JStr s2) w2 = Some (mkMember (JStr s2) x2).
Proof.
  intros Hc Hi Hg Ha Hp Hi2 Hx2 w1 w2.
  destruct (@handleMemberRemoved_present w c ch member1 i a Hc Hi Hg) as (Hcs & Hms & Hmp & Hem).
  fold w1 in Hcs, Hms, Hmp, Hem.
  apply Nat.ltb_lt in Hp. rewrite Hp in Hmp.
  pose proof (handleMemberAdded_effect w1 c member2 Hi2 Hx2) as E.
  unfold acquired in E. rewrite Hmp in E. fold w2 in E. destruct E as (Hcs2 & Hms2 & _).
  split; [exact Hem|]. split; [|split].
  - unfold Channel.readMember. rewrite Hms. apply nth_update_nth. exact Ha.
  - unfold Channel.readMember. rewrite Hms2. apply nth_update_nth.
    rewrite Hms, length_update_nth. exact Ha.
  - unfold Channel.getMember, Channel.lookup. rewrite Hcs2, Hcs, update_nth_twice.
    unfold Channel.lookup in Hc. rewrite (nth_error_update_nth _ _ _ Hc). cbn [members set_members].
    rewrite get_set_eq. cbn [option_map]. f_equal.
    unfold Channel.readMember. rewrite Hms2. apply nth_update_nth.
    rewrite Hms, length_update_nth. exact Ha.
Qed.

Lemma bind_ok {A B} (m : M A) (k : A -> M B) (w w1 : World) (x : A) :
  m w = (Ok x, w1) -> bind m k w = k x w1.
Proof. intros H. unfold bind. rewrite H. reflexivity. Qed.

Lemma get_app_absent {V} (k : string) (m m' : list (JsValue * V)) :
  JsMap.get (JStr k) m = None -> JsMap.get (JStr k) (m ++ m') = JsMap.get (JStr k) m'.
Proof.
  induction m as [|[k0 v0] m IH]; cbn -[JsMap.same_value_zero]; [reflexivity|].
  destruct (JsMap.same_value_zero (JStr k) k0); [discriminate | exact IH].
Qed.

(** The loop of [PresenceChannel.handleSubscriptionSucceeded] over the
    entries of the hash: one new member object for each, in order. *)
Lemma presence_loop (c : nat) (es : list (string * JsValue)) :
  forall (w : World) (ch : Channel),
    Channel.lookup c w = Some ch ->
    NoDup (map fst es) ->
    (forall e, In e es -> JsMap.get (JStr (fst e)) (members ch) = None) ->
    forEach es (fun e =>
      bind (Channel.newMember (mkMember (JStr (fst e)) (snd e)))
           (fun a => Channel.setMember c (JStr (fst e)) a)) w
    = (Ok tt,
       set_cl (set_channelStore
                 (update_nth c
                    (fun ch => set_members
                                 (members ch ++ numbered (List.length (memberStore (cl w))) es) ch)
                    (channelStore (cl w)))
                 (set_memberStore (memberStore (cl w) ++ map hashMember es) (cl w))) w).
Proof.
  induction es as [|e es IH]; intros w ch Hc Hnd Habs.
  - cbn [forEach map numbered]. unfold ret. f_equal.
    destruct w as [k o cn r cl0]. destruct cl0 as [au chs cs ms mp em pa].
    unfold Channel.lookup in Hc. cbn in *. rewrite !app_nil_r.
    rewrite (update_nth_id c _ cs Hc); [reflexivity|].
    rewrite app_nil_r. destruct ch; reflexivity.
  - cbn [forEach]. inversion Hnd as [|? ? Hnotin Hnd']; subst.
    set (body := fun e0 : string * JsValue => bind _ _).
    assert (Hstep : body e w
                    = (Ok tt,
                       set_cl (set_channelStore
                                 (update_nth c
                                    (fun ch => set_members
                                       (JsMap.set (JStr (fst e)) (List.length (memberStore (cl w)))
                                                  (members ch)) ch)
                                    (channelStore (cl w)))
                                 (set_memberStore (memberStore (cl w) ++ [hashMember e]) (cl w)))
                              w)).
    { subst body. unfold Channel.newMember, Channel.setMember, Channel.update, bind, get,
        modify_cl, modify, ret. destruct w as [k o cn r cl0]. destruct cl0. reflexivity. }
    rewrite (@bind_ok _ _ _ _ _ _ _ Hstep). subst body. cbv beta.
    set (ch1 := set_members (members ch ++ [(JStr (fst e), List.length (memberStore (cl w)))]) ch).
    assert (Hc1 : Channel.lookup c
                    (set_cl (set_channelStore
                               (update_nth c
                                  (fun ch => set_members
                                     (JsMap.set (JStr (fst e)) (List.length (memberStore (cl w)))
                                                (members ch)) ch)
                                  (channelStore (cl w)))
                               (set_memberStore (memberStore (cl w) ++ [hashMember e]) (cl w)))
                            w) = Some ch1).
    { unfold Channel.lookup in *. cbn. rewrite (nth_error_update_nth _ _ _ Hc).
      rewrite set_absent by (apply Habs; left; reflexivity). reflexivity. }
    rewrite (IH _ ch1 Hc1 Hnd').
    + clear Hstep Hc1 IH. subst ch1. f_equal. destruct w as [k o cn r cl0].
      destruct cl0 as [au chs cs ms mp em pa].
      unfold Channel.lookup in Hc.
      cbv [set_cl set_channelStore set_memberStore cl channelStore memberStore authorizer
           channels memberPool emitted pendingAuth appKeyOrToken options conn rt] in Hc |- *.
      rewrite update_nth_twice, <- app_assoc. f_equal. f_equal.
      clear -Hc Habs. revert c Hc. induction cs as [|y cs IHc]; intros [|c]; cbn [update_nth nth_error];
        try discriminate.
      * intros [= ->]. f_equal. cbn [members set_members].
        rewrite set_absent by (apply Habs; left; reflexivity).
        rewrite <- app_assoc, length_app, Nat.add_1_r. destruct ch; reflexivity.
      * intros H. rewrite (IHc _ H). reflexivity.
    + intros e' He'. subst ch1. cbn [members set_members].
      rewrite get_app_absent by (apply Habs; right; exact He').
      cbn -[JsMap.same_value_zero]. rewrite svz_neq; [reflexivity|].
      intros Heq. apply Hnotin. rewrite Heq. apply in_map. exact He'.
Qed.

Lemma read_numbered (ms : list PresenceMember) (es : list (string * JsValue)) (d : PresenceMember) :
  forall tail,
  map (fun a => nth a (ms ++ map hashMember es ++ tail) d)
      (JsMap.values (numbered (List.length ms) es))
  = map hashMember es.
Proof.
  revert ms. induction es as [|e es IH]; intros ms tail; [reflexivity|].
  unfold JsMap.values in *. cbn -[nth]. f_equal.
  - rewrite app_nth2 by lia. rewrite Nat.sub_diag. reflexivity.
  - specialize (IH (ms ++ [hashMember e]) tail).
    rewrite length_app, Nat.add_1_r in IH. rewrite <- app_assoc in IH. exact IH.
Qed.

Lemma returns_enqueue (d : JsValue) : returns (enqueue d).
Proof.
  unfold enqueue, flush, clearFlushTimer, sendRaw, setTimeout, clearTimeout,
    modify_conn, modify_rt.
  returns_tac.
Qed.

(** X24. [Channel.trigger] never throws, and it returns [true] exactly when
    the channel is subscribed and the connection is connected and, with
    batching switched off, the socket is open: the type of the channel plays
    no part. *)
Theorem trigger_result (w : World) (c : nat) (eventName : string) (data : JsValue) :
  fst (Channel.trigger c eventName data w)
  = Ok (Channel.isSubscribed c w
        && ConnectionState_eqb (state (conn w)) connected
        && (not_false (enableBatching (options w)) || socketOpen w)).
Proof.
  unfold Channel.trigger, Channel.isSubscribed, bind at 1, get.
  destruct (Channel.lookup c w) as [ch|]; [|reflexivity].
  destruct (subscribed ch); [|reflexivity]. cbn [negb andb].
  unfold Channel.send, send, bind at 1, get.
  destruct (state (conn w)); try reflexivity. cbn [ConnectionState_eqb andb].
  destruct (not_false (enableBatching (options w))); cbn [orb].
  - rewrite exec_seq by apply returns_enqueue. reflexivity.
  - unfold socketOpen.
    destruct (ws (conn w)) as [i|] eqn:Ews.
    + destruct (socketState i w) as [[]|] eqn:Es;
        try (rewrite sendRaw_not_open; [reflexivity|];
             intros j Hj; rewrite Ews in Hj; injection Hj as <-; rewrite Es; discriminate).
      rewrite (sendRaw_open _ _ Ews Es). reflexivity.
    + rewrite sendRaw_not_open; [reflexivity|]. intros j Hj. congruence.
Qed.

(** X23. A [subscription_succeeded] frame on a presence channel whose data is
    an object with a [presence.hash] of distinct ids and no (or a falsy)
    [presence.me]: the member map is replaced by the entries of the hash, in
    their order, the channel is subscribed, and the event is emitted on the
    channel with the data. *)
Theorem presence_subscription_members (w : World) (c : nat) (ch : Channel)
        (fields : list (string * JsValue)) (pres me : JsValue)
        (hash : list (string * JsValue)) :
  Channel.lookup c w = Some ch -> channelType ch = presence ->
  get_prop (JObj fields) "presence" = Ok pres -> truthy pres = true ->
  get_prop pres "hash" = Ok (JObj hash) -> NoDup (map fst hash) ->
  get_prop pres "me" = Ok me -> truthy me = false ->
  let w' := exec (Channel.handleSubscriptionSucceeded c (JObj fields)) w in
  Channel.getMembers c w' = map hashMember hash
  /\ Channel.getMemberCount c w' = List.length hash
  /\ Channel.isSubscribed c w' = true
  /\ emitted (cl w')
     = emitted (cl w) ++ [mkEmitted (Some c) (JStr "lattestream:subscription_succeeded")
                                    (PValue (JObj fields))].
Proof.
  intros Hc Hty Hp Htp Hh Hnd Hme Htm w'.
  assert (Ew : w' = snd (Channel.handleSubscriptionSucceeded c (JObj fields) w)) by reflexivity.
  clearbody w'. revert Ew.
  unfold Channel.handleSubscriptionSucceeded, bind at 1, get.
  unfold Channel.getType. rewrite Hc. cbn [option_map]. rewrite Hty.
  unfold Channel.presenceHandleSubscriptionSucceeded.
  cbn [Channel.parseEventData truthy].
  assert (Hc0 : Channel.lookup c
                  (set_cl (set_channelStore
                             (update_nth c (set_members []) (channelStore (cl w))) (cl w)) w)
                = Some (set_members [] ch)).
  { unfold Channel.lookup in *. cbn. exact (nth_error_update_nth _ _ _ Hc). }
  erewrite bind_ok.
  2:{ erewrite bind_ok by (unfold lift; rewrite Hp; reflexivity). rewrite Htp.
      erewrite bind_ok by (unfold Channel.update, modify_cl, modify; reflexivity).
      erewrite bind_ok by (unfold lift; rewrite Hh; reflexivity).
      erewrite bind_ok by (unfold lift; reflexivity).
      erewrite bind_ok by (apply (@presence_loop c hash _ _ Hc0 Hnd); reflexivity).
      erewrite bind_ok by (unfold lift; rewrite Hme; reflexivity). rewrite Htm.
      reflexivity. }
  unfold Channel.baseHandleSubscriptionSucceeded, Channel.handleEvent, Channel.emit,
    Channel.update, bind, modify_cl, modify.
  cbn [fst snd Channel.parsePayload Channel.parseEventData].
  intros ->.
  destruct w as [k o cn r cl0]. destruct cl0 as [au chs cs ms mp em pa].
  unfold Channel.lookup in Hc.
  unfold Channel.getMembers, Channel.getMemberCount, Channel.isSubscribed, Channel.lookup,
    Channel.readMember.
  cbn -[nth] in Hc |- *. rewrite !update_nth_twice, (nth_error_update_nth _ _ _ Hc).
  cbn -[nth].
  repeat split.
  - pose proof (read_numbered ms hash (mkMember JUndefined JUndefined) []) as R.
    rewrite app_nil_r in R. exact R.
  - unfold JsMap.size. clear. generalize (List.length ms). induction hash; intros n; cbn; auto.
Qed.

End WithPlatform.

End ChannelFacts.
(* ------------------------------------------------------------------ *)
(** ** client/client.ts and client/connection.ts *)
(* ------------------------------------------------------------------ *)

Module ClientFacts.
Import Connection Predicates PresencePredicates TerminalFacts RegistryFacts PresenceFacts
       MapFacts QueueFacts ChannelFacts.

Lemma returns_channel_unsubscribe (c : nat) : returns (Channel.unsubscribe c).
Proof.
  unfold Channel.unsubscribe, Channel.update, modify_cl.
  returns_tac; try (apply returns_bind; [apply returns_send | returns_tac]).
Qed.

Lemma returns_forEach {A} (l : list A) (f : A -> M unit) :
  (forall x, returns (f x)) -> returns (forEach l f).
Proof.
  intros H. induction l as [|x l IH]; cbn [forEach]; [apply returns_ret|].
  apply returns_bind; [apply H | intros _; exact IH].
Qed.

Lemma returns_resetActivityTimer : returns resetActivityTimer.
Proof.
  unfold resetActivityTimer, startActivityTimer, setTimeout, clearTimeout, modify_conn,
    modify_rt.
  returns_tac.
Qed.

(** X25. [unsubscribe(name)] takes the name out of the channel map, so the
    next [subscribe(name)] constructs a new channel object: it is not the one
    the first [subscribe] returned, and it starts unsubscribed and empty. *)
Theorem unsubscribe_then_subscribe_fresh (w : World) (channelName : string) :
  JsMap.get (JStr channelName) (channels (cl w)) = None ->
  getChannelType channelName = public \/ authorizer (cl w) <> None ->
  let c := List.length (channelStore (cl w)) in
  let w2 := exec (LatteStream.unsubscribe channelName)
                 (exec (LatteStream.subscribe channelName) w) in
  fst (LatteStream.subscribe channelName w) = Ok c
  /\ JsMap.has (JStr channelName) (channels (cl w2)) = false
  /\ fst (LatteStream.subscribe channelName w2) = Ok (S c)
  /\ Channel.lookup (S c) (exec (LatteStream.subscribe channelName) w2)
     = Some (mkChannel channelName (getChannelType channelName) false [] JNull).
Proof.
  intros Hget Hauth c w2.
  destruct (subscribe_new w channelName Hget Hauth) as (w1 & H1 & Hch & Hst & Hau).
  assert (E1 : exec (LatteStream.subscribe channelName) w = w1)
    by (unfold exec; rewrite H1; reflexivity).
  assert (E2 : w2 = set_cl (set_channels (channels (cl w)) (cl w1)) w1).
  { subst w2. rewrite E1. unfold exec, LatteStream.unsubscribe, bind at 1, get.
    rewrite Hch, get_set_eq.
    assert (Hun : Channel.unsubscribe (List.length (channelStore (cl w))) w1 = (Ok tt, w1)).
    { unfold Channel.unsubscribe, bind, get, Channel.lookup. rewrite Hst, nth_error_snoc.
      reflexivity. }
    rewrite (@bind_ok _ _ _ _ _ _ _ Hun). unfold modify_cl, modify. cbn [snd].
    rewrite Hch, delete_set_absent by exact Hget. reflexivity. }
  assert (Hget2 : JsMap.get (JStr channelName) (channels (cl w2)) = None)
    by (rewrite E2; exact Hget).
  assert (Hau2 : getChannelType channelName = public \/ authorizer (cl w2) <> None).
  { rewrite E2. cbn. rewrite Hau. exact Hauth. }
  destruct (subscribe_new w2 channelName Hget2 Hau2) as (w3 & H3 & _ & Hst3 & _).
  assert (Hlen : List.length (channelStore (cl w2)) = S c).
  { rewrite E2. cbn. rewrite Hst, length_app. cbn. subst c. lia. }
  split; [rewrite H1; reflexivity|]. split; [unfold JsMap.has; rewrite Hget2; reflexivity|].
  split; [rewrite H3, Hlen; reflexivity|].
  unfold exec. rewrite H3. cbn [snd]. unfold Channel.lookup.
  rewrite Hst3, <- Hlen. apply nth_error_snoc.
Qed.

Lemma find_timer_filter_none (h : nat) (p : Timer -> bool) (ts : list Timer) :
  find_timer h ts = None -> find_timer h (filter p ts) = None.
Proof.
  unfold find_timer. induction ts as [|t ts IH]; cbn; [reflexivity|].
  destruct (Nat.eqb (handle t) h) eqn:E; [discriminate|]. intros H.
  destruct (p t); cbn; [rewrite E|]; exact (IH H).
Qed.

(** Unsubscribing a channel leaves the three timer fields of the connection
    as they are. *)
Lemma channel_unsubscribe_timer_fields (c : nat) :
  keeps (fun w => (reconnectTimer (conn w), activityTimer (conn w), pongTimer (conn w)))
        (Channel.unsubscribe c).
Proof.
  unfold Channel.unsubscribe, Channel.update, Channel.send, send, enqueue, flush,
    clearFlushTimer, sendRaw, setTimeout, clearTimeout, modify_cl, modify_conn, modify_rt.
  CounterFrame.keeps_tac.
Qed.

(** [Connection.disconnect], the channel map emptied, cancels the timers its
    three fields refer to. *)
Lemma disconnect_cancels (w : World) (h : nat) :
  reconnectTimer (conn w) = Some h \/ activityTimer (conn w) = Some h
  \/ pongTimer (conn w) = Some h ->
  find_timer h (timers (rt (exec (disconnect LatteStream.handleConnectionStateChange)
                                 (set_cl (set_channels [] (cl w)) w))))
  = None.
Proof.
  unfold exec, disconnect, clearTimers, closeCurrentSocket, closeSocket, setState,
    LatteStream.handleConnectionStateChange, LatteStream.resetChannelStates,
    LatteStream.triggerGlobalEvent, Channel.emit, clearTimeout, bind, get, modify_cl,
    modify_conn, modify_rt, modify, ret.
  destruct w as [k o cn r cl0]. destruct cn as [w0 st n rtm atm ptm sid dt dd db q ft].
  cbn [conn reconnectTimer activityTimer pongTimer].
  intros H. destruct rtm, atm, ptm, w0, st; cbn;
    destruct H as [H|[H|H]]; try discriminate H; injection H as ->;
    repeat first [ apply find_timer_filter | apply find_timer_filter_none ].
Qed.

(** X26. [LatteStream.disconnect()] returns, whatever the state, and leaves
    an empty channel map, the state [disconnected], the attempt counter at
    zero, no socket, and the reconnect, activity and pong timer fields empty,
    the timers they referred to cancelled. *)
Theorem disconnect_forgets_channels (w : World) :
  let w' := exec LatteStream.disconnect w in
  fst (LatteStream.disconnect w) = Ok tt
  /\ channels (cl w') = []
  /\ state (conn w') = disconnected
  /\ reconnectAttempts (conn w') = 0
  /\ ws (conn w') = None
  /\ reconnectTimer (conn w') = None /\ activityTimer (conn w') = None
  /\ pongTimer (conn w') = None
  /\ forall h,
       reconnectTimer (conn w) = Some h \/ activityTimer (conn w) = Some h
       \/ pongTimer (conn w) = Some h ->
       find_timer h (timers (rt w')) = None.
Proof.
  intros w'. subst w'. unfold exec.
  assert (E : LatteStream.disconnect w
              = bind (modify_cl (set_channels []))
                     (fun _ => disconnect LatteStream.handleConnectionStateChange)
                     (snd (forEach (JsMap.values (channels (cl w))) Channel.unsubscribe w))).
  { unfold LatteStream.disconnect, bind at 1, get.
    rewrite exec_seq by (apply returns_forEach; apply returns_channel_unsubscribe).
    reflexivity. }
  rewrite E.
  pose proof (CounterFrame.keeps_forEach (JsMap.values (channels (cl w)))
                Channel.unsubscribe channel_unsubscribe_timer_fields w) as K.
  cbn beta in K. revert K.
  generalize (snd (forEach (JsMap.values (channels (cl w))) Channel.unsubscribe w)).
  intros w1 K. injection K as K1 K2 K3.
  repeat match goal with |- _ /\ _ => split end.
  9: { intros h Hh. rewrite <- K1, <- K2, <- K3 in Hh.
       exact (disconnect_cancels w1 Hh). }
  all: clear; unfold disconnect, clearTimers, closeCurrentSocket, closeSocket, setState,
    LatteStream.handleConnectionStateChange, LatteStream.resetChannelStates,
    LatteStream.triggerGlobalEvent, Channel.emit, clearTimeout, bind, get, modify_cl,
    modify_conn, modify_rt, modify, ret;
    destruct w1 as [k o cn r cl0]; destruct cn as [w0 st n rtm atm ptm sid dt dd db q ft];
    destruct rtm, atm, ptm, w0, st; cbn; reflexivity.
Qed.

Lemma get_prop_total (v : JsValue) (k k' : string) (x : JsValue) :
  get_prop v k = Ok x -> exists y, get_prop v k' = Ok y.
Proof.
  destruct v; cbn; try discriminate; eauto.
  intros _. destruct (assoc k' fields); eauto.
Qed.

Section WithPlatform.
Context {P : Platform}.

(** X27. A message for a channel that is not in the channel map is dropped:
    [handleParsedMessage] returns and nothing is written, so the event reaches
    no listener, the global ones included. *)
Theorem message_for_unknown_channel_dropped (w : World) (message channel : JsValue) :
  LatteStream.messageChannel message = Ok channel ->
  truthy channel = true ->
  JsMap.get channel (channels (cl w)) = None ->
  LatteStream.handleParsedMessage message w = (Ok tt, w).
Proof.
  intros Hm Ht Hg.
  assert (Hnn : exists y, get_prop message "channel" = Ok y).
  { unfold LatteStream.messageChannel in Hm.
    destruct (get_prop message "channel") as [y|]; [eauto | discriminate]. }
  destruct Hnn as [y Hy].
  destruct (@get_prop_total _ _ "event" _ Hy) as [ev Hev].
  destruct (@get_prop_total _ _ "data" _ Hy) as [d Hd].
  unfold LatteStream.handleParsedMessage, bind, lift. rewrite Hm, Hev, Hd, Ht.
  unfold LatteStream.handleChannelEvent, bind, get. rewrite Hg. reflexivity.
Qed.

(** X28. A frame that cannot be decoded (text that is not JSON, bytes that
    are neither JSON nor a protocol message, data of another kind) is
    swallowed: [onmessage] returns, no event is emitted, not even an error,
    and the frame only restarts the activity timer. *)
Theorem undecodable_frame_swallowed (w : World) (data : MessageData) (e : JsError) :
  decodeFrame data = Throw e ->
  LatteStream.onmessage data w = resetActivityTimer w
  /\ cl (exec (LatteStream.onmessage data) w) = cl w
  /\ wire (rt (exec (LatteStream.onmessage data) w)) = wire (rt w)
  /\ state (conn (exec (LatteStream.onmessage data) w)) = state (conn w).
Proof.
  intros Hd.
  assert (Hh : handleMessage LatteStream.handleConnectionStateChange data w = (Ok JNull, w)).
  { unfold handleMessage. destruct data as [text|bytes|]; [| |reflexivity];
      cbn [decodeFrame] in Hd; unfold try_catch, bind, lift; rewrite Hd; reflexivity. }
  assert (E : LatteStream.onmessage data w = resetActivityTimer w).
  { unfold LatteStream.onmessage, onmessage, try_catch.
    rewrite (@bind_ok _ _ _ _ _ _ _ Hh). cbn [truthy when].
    unfold bind at 1, ret at 1.
    destruct (returns_resetActivityTimer w) as [[] Hr].
    destruct (resetActivityTimer w) as [r w1]. cbn in Hr. subst r. reflexivity. }
  split; [exact E|]. unfold exec. rewrite E.
  unfold resetActivityTimer, startActivityTimer, setTimeout, clearTimeout, bind, get,
    modify_conn, modify_rt, modify, ret.
  destruct w as [k o cn r cl0]. destruct cn as [w0 st n rtm atm ptm sid dt dd db q ft].
  destruct atm; cbn; auto.
Qed.

End WithPlatform.

End ClientFacts.
(* ------------------------------------------------------------------ *)
(** ** client/discovery.ts and client/auth.ts *)
(* ------------------------------------------------------------------ *)

Module DiscoveryFacts.
Import DiscoveryService.

Section Loop.
Context {P : Platform}.
Variable o : DiscoveryOptions.
Variable fetches : nat -> Fetched.
Variable randoms : nat -> Q.

Lemma attemptLimit_pos : 0 < attemptLimit o.
Proof. unfold attemptLimit. destruct (maxAttempts o) as [[|n]|]; lia. Qed.

(** The loop from [attempts] failures on, while the requests fail up to
    number [k] and that one is accepted. *)
Lemma loop_succeeds (k : nat) (data : JsValue) :
  k < attemptLimit o ->
  accepted (fetches k) = Some data ->
  forall attempts fuel,
    attempts <= k -> k < fuel + attempts ->
    (forall j, attempts <= j < k -> accepted (fetches j) = None) ->
    attemptLoop o fetches randoms fuel attempts
    = (Ok data, map (fun j => retryDelay o (S j) (randoms (S j))) (seq attempts (k - attempts))).
Proof.
  intros Hk Hacc attempts fuel. revert attempts.
  induction fuel as [|fuel IH]; intros attempts Hle Hfuel Hfail; [lia|].
  cbn [attemptLoop].
  destruct (Nat.ltb_spec attempts (attemptLimit o)) as [_|]; [|lia].
  destruct (Nat.eq_dec attempts k) as [->|Hne].
  - rewrite Hacc, Nat.sub_diag. reflexivity.
  - rewrite (Hfail attempts) by lia.
    destruct (Nat.leb_spec (attemptLimit o) (S attempts)) as [|_]; [lia|].
    rewrite IH by (try lia; intros j Hj; apply Hfail; lia).
    replace (k - attempts) with (S (k - S attempts)) by lia. reflexivity.
Qed.

Lemma loop_fails :
  forall attempts fuel,
    attempts < attemptLimit o -> attemptLimit o <= fuel + attempts ->
    (forall j, attempts <= j < attemptLimit o -> accepted (fetches j) = None) ->
    attemptLoop o fetches randoms fuel attempts
    = (Throw DiscoveryFailed,
       map (fun j => retryDelay o (S j) (randoms (S j)))
           (seq attempts (attemptLimit o - 1 - attempts))).
Proof.
  intros attempts fuel. revert attempts.
  induction fuel as [|fuel IH]; intros attempts Hlt Hfuel Hfail; [lia|].
  cbn [attemptLoop].
  destruct (Nat.ltb_spec attempts (attemptLimit o)) as [_|]; [|lia].
  rewrite (Hfail attempts) by lia.
  destruct (Nat.leb_spec (attemptLimit o) (S attempts)) as [Hlast|Hmore].
  - replace (attemptLimit o - 1 - attempts) with 0 by lia. reflexivity.
  - rewrite IH by (try lia; intros j Hj; apply Hfail; lia).
    replace (attemptLimit o - 1 - attempts) with (S (attemptLimit o - 1 - S attempts)) by lia.
    reflexivity.
Qed.

(** X29. [DiscoveryService.discover] makes at most [maxAttempts || 3]
    requests. It returns the data of the first response that is accepted
    ([ok], JSON, with a truthy [discovery_token]), having slept after each of
    the [k] failures before it for [multiplier^(j-1) * baseDelay] ms, jitter
    added, [j] the number of the failure; when no request is accepted it
    throws "Discovery failed" after the last one, without a further sleep. *)
Theorem discover_retries :
  (forall k data,
      k < attemptLimit o ->
      (forall j, j < k -> accepted (fetches j) = None) ->
      accepted (fetches k) = Some data ->
      discover o fetches randoms
      = (Ok data, map (fun j => retryDelay o (S j) (randoms (S j))) (seq 0 k)))
  /\ ((forall j, j < attemptLimit o -> accepted (fetches j) = None) ->
      discover o fetches randoms
      = (Throw DiscoveryFailed,
         map (fun j => retryDelay o (S j) (randoms (S j))) (seq 0 (attemptLimit o - 1)))).
Proof.
  unfold discover. split.
  - intros k data Hk Hfail Hacc.
    rewrite (loop_succeeds Hk Hacc) with (attempts := 0) by (try lia; intros j Hj; apply Hfail; lia).
    rewrite Nat.sub_0_r. reflexivity.
  - intros Hfail. pose proof attemptLimit_pos.
    rewrite loop_fails by (try lia; intros j Hj; apply Hfail; lia).
    rewrite Nat.sub_0_r. reflexivity.
Qed.

End Loop.

End DiscoveryFacts.

Module AuthorizerFacts.
Import Connection Predicates TerminalFacts RegistryFacts Authorizer ChannelFacts.

Section WithPlatform.
Context {P : Platform}.

(** X30. A private channel is subscribed with what [Authorizer.authorize]
    returns, and that is the object [{auth, channel_data}] built from the
    answer of the endpoint, not its [auth] string: the subscribe frame handed
    to [send] carries the object under [data.auth]. When the authorization
    fails nothing is sent, and [lattestream:subscription_error] is emitted on
    the channel. *)
Theorem private_subscribe_frame (w : World) (c : nat) (ch : Channel) (response : Fetched) :
  Channel.lookup c w = Some ch -> channelType ch = private ->
  (forall authResponse a channel_data,
      response = FetchBody (Ok authResponse) ->
      get_prop authResponse "auth" = Ok a -> truthy a = true ->
      get_prop authResponse "channel_data" = Ok channel_data ->
      exec (Channel.resumeSubscribe c (authorize response)) w
      = exec (Channel.send
                (JObj [("event"%string, JStr "lattestream:subscribe");
                       ("data"%string,
                        JObj [("channel"%string, JStr (name ch));
                              ("auth"%string,
                               JObj [("auth"%string, a);
                                     ("channel_data"%string, channel_data)])])])) w)
  /\ (authorize response = Throw AuthorizationFailed ->
      exec (Channel.resumeSubscribe c (authorize response)) w
      = set_cl (set_emitted
                  (emitted (cl w)
                   ++ [mkEmitted (Some c) (JStr "lattestream:subscription_error")
                                 (PError AuthorizationFailed)]) (cl w)) w).
Proof.
  intros Hc Hty. split.
  - intros authResponse a cd -> Ha Ht Hcd. unfold authorize. rewrite Ha, Hcd, Ht.
    unfold exec, Channel.resumeSubscribe, bind at 1, get. rewrite Hc, Hty.
    unfold Channel.subscribeFrame.
    destruct (exec_bind (fun _ : bool => ret tt) w (returns_send
      (JObj [("event"%string, JStr "lattestream:subscribe");
             ("data"%string,
              JObj [("channel"%string, JStr (name ch));
                    ("auth"%string,
                     JObj [("auth"%string, a); ("channel_data"%string, cd)])])])))
      as [b Hb].
    unfold Channel.send. rewrite Hb. reflexivity.
  - intros ->. unfold exec, Channel.resumeSubscribe, bind at 1, get. rewrite Hc.
    reflexivity.
Qed.

End WithPlatform.

End AuthorizerFacts.
(* ------------------------------------------------------------------ *)
(** ** The further properties on the examples *)
(* ------------------------------------------------------------------ *)

Module MoreInstances.
Import BinaryProtocol BinaryInspect CodecExamples ClientExamples MoreExamples Predicates
       PresencePredicates.
#[local] Existing Instance RefPlatform.platform.
Local Open Scope string_scope.
Local Open Scope list_scope.

Lemma parseBinaryMessage_error_witness :
  parseBinaryMessage scenarioD
  = Throw (UnableToParseBinaryMessage (FailedToParseMessageType 2 (MetadataTruncated 24 19)))
  /\ exists inner e',
       UnableToParseBinaryMessage (FailedToParseMessageType 2 (MetadataTruncated 24 19))
       = UnableToParseBinaryMessage inner
       /\ parseLatteStreamBinaryProtocol scenarioD = Throw e'
       /\ (inner = e' \/ inner = UnableToParseAsJsonOrBinary \/ inner = EmptyOrInvalidUtf8).
Proof.
  assert (H : parseBinaryMessage scenarioD
              = Throw (UnableToParseBinaryMessage
                         (FailedToParseMessageType 2 (MetadataTruncated 24 19))))
    by (vm_compute; reflexivity).
  split; [exact H | exact (@BinaryEntryFacts.parseBinaryMessage_error _ _ _ H)].
Defined.

Lemma parseBinaryMessage_frame_witness :
  parseLatteStreamBinaryProtocol jsonFrame = Ok testMessage
  /\ parseBinaryMessage jsonFrame = Ok testMessage.
Proof.
  assert (H1 : getUint32 jsonFrame 0 = Ok 1%Z) by (vm_compute; reflexivity).
  assert (H2 : (1 <= 1 <= 3)%Z) by lia.
  assert (H3 : parseLatteStreamBinaryProtocol jsonFrame = Ok testMessage)
    by (vm_compute; reflexivity).
  split; [exact H3|].
  apply (@BinaryEntryFacts.parseBinaryMessage_frame _ jsonFrame 1%Z testMessage H1 H2 H3).
  left. vm_compute. reflexivity.
Defined.

Lemma header_only_rejected_witness :
  (len (setUint32 1 ++ setUint32 5) <= 8)%Z
  /\ exists e,
       parseLatteStreamBinaryProtocol (setUint32 1 ++ setUint32 5) = Throw e
       /\ (e = BinaryMessageTooShort (len (setUint32 1 ++ setUint32 5))
           \/ e = ZeroPayloadLength
           \/ exists expected, e = PayloadTruncated expected (len (setUint32 1 ++ setUint32 5))).
Proof.
  assert (H : (len (setUint32 1 ++ setUint32 5) <= 8)%Z) by (vm_compute; discriminate).
  split; [exact H | exact (BinaryEntryFacts.header_only_rejected _ H)].
Defined.

Lemma createBinaryMessage_layout_witness :
  createBinaryMessage 1 testMessage = Ok jsonFrame
  /\ getBinaryMessageType jsonFrame = Some 1%Z
  /\ getUint32 jsonFrame 4 = Ok (len jsonFrame - 8)%Z.
Proof.
  assert (H1 : createBinaryMessage 1 testMessage = Ok jsonFrame) by (vm_compute; reflexivity).
  assert (H2 : (len jsonFrame - 8 < 4294967296)%Z) by (vm_compute; reflexivity).
  split; [exact H1|].
  exact (proj2 (@BinaryEntryFacts.createBinaryMessage_layout _ _ _ _ H1 H2)).
Defined.

Lemma other_types_read_as_json_witness :
  parseLatteStreamBinaryProtocol compressedFrame = Ok testMessage
  /\ parseLatteStreamBinaryProtocol (setUint32 9 ++ setUint32 (len testPayload) ++ testPayload)
     = Ok testMessage.
Proof.
  assert (H3 : (0 <= 3 < 4294967296)%Z) by lia.
  assert (H9 : (0 <= 9 < 4294967296)%Z) by lia.
  assert (N3 : 3%Z <> 2%Z) by discriminate.
  assert (N9 : 9%Z <> 2%Z) by discriminate.
  assert (Hl : (0 < len testPayload < 4294967296)%Z) by (vm_compute; split; reflexivity).
  assert (Ht : trim (TextDecoder_decode testPayload) <> "") by (vm_compute; discriminate).
  assert (Hj : JSON_parse (TextDecoder_decode testPayload) = Some testMessage)
    by (vm_compute; reflexivity).
  split.
  - apply (proj2 (@BinaryEntryFacts.other_types_read_as_json _ 3%Z testPayload testMessage
                    H3 N3 Hl Ht)). exact Hj.
  - apply (proj2 (@BinaryEntryFacts.other_types_read_as_json _ 9%Z testPayload testMessage
                    H9 N9 Hl Ht)). exact Hj.
Defined.

Lemma createBinaryMessage_returns_witness :
  let payload := JObj [("metadata", testMetadata);
                       ("binaryData", JArr [JNum 1; JNum 2; JNum 300])] in
  createBinaryMessage 3 payload = Throw (UnsupportedMessageType 3)
  /\ createBinaryMessage 2 (JObj [("metadata", testMetadata); ("binaryData", JNum 5)])
     = Throw RangeError
  /\ createBinaryMessage 2 (JObj [("metadata", JNum 0); ("binaryData", JBytes hello)])
     = Throw RequiresMetadataAndBinaryData
  /\ exists bytes,
       len bytes = 3%Z
       /\ createBinaryMessage 2 payload
          = Ok (setUint32 2 ++ setUint32 (4 + len (encode_json testMetadata) + 3)
                ++ setUint32 (len (encode_json testMetadata))
                ++ encode_json testMetadata ++ bytes).
Proof.
  intros payload. split; [|split; [|split]].
  - apply (proj1 (BinaryEntryFacts.createBinaryMessage_returns 3 payload)); discriminate.
  - apply (proj2 (proj2 (BinaryEntryFacts.createBinaryMessage_returns 2
                           (JObj [("metadata", testMetadata); ("binaryData", JNum 5)])))
             (JNum 5) testMetadata eq_refl eq_refl).
    + reflexivity.
    + right. exists 5%Z. split; [reflexivity | discriminate].
  - apply (proj2 (proj2 (BinaryEntryFacts.createBinaryMessage_returns 2
                           (JObj [("metadata", JNum 0); ("binaryData", JBytes hello)])))
             (JBytes hello) (JNum 0) eq_refl eq_refl).
    reflexivity.
  - apply (proj2 (proj2 (BinaryEntryFacts.createBinaryMessage_returns 2 payload))
             (JArr [JNum 1; JNum 2; JNum 300]) testMetadata eq_refl eq_refl);
      [reflexivity | reflexivity | reflexivity | vm_compute; discriminate].
Defined.

Lemma verifyAuthString_malformed_witness :
  EncryptionHelper.verifyAuthString "lsk_secret" "1234.5678" "private-orders" None = false
  /\ EncryptionHelper.verifyAuthString "lsk_secret" (":" ++ "1234.5678") "private-orders" None
     = false
  /\ EncryptionHelper.verifyAuthString "lsk_secret" ("1234.5678" ++ ":") "private-orders" None
     = false.
Proof.
  destruct (ServerAuthFacts.verifyAuthString_malformed "lsk_secret" "private-orders" None
              "1234.5678") as (H1 & H2 & H3).
  split; [apply H1; reflexivity|]. split; [exact H2 | apply H3; reflexivity].
Defined.

Lemma authorizeChannel_verifies_witness :
  let r := ServerAuthorizer.mkAuth
             (EncryptionHelper.generateAuthString "lsk_secret" "1a2b.3c4d" "private-orders" None)
             None in
  ServerAuthorizer.authorizeChannel "lsk_secret" (JStr "1a2b.3c4d") (JStr "private-orders")
  = ServerAuthorizer.Done r
  /\ ServerAuthorizer.verifyChannelAuth "lsk_secret" (ServerAuthorizer.auth r)
       "private-orders" None = true.
Proof.
  intros r.
  assert (H : ServerAuthorizer.authorizeChannel "lsk_secret" (JStr "1a2b.3c4d")
                (JStr "private-orders") = ServerAuthorizer.Done r) by reflexivity.
  split; [exact H|].
  destruct (@ServerAuthFacts.authorizeChannel_verifies "lsk_secret" _ _ _ H)
    as (s & c & Es & Ec & _ & _ & _ & Hv).
  injection Ec as <-. exact Hv.
Defined.

Lemma authorizePresenceChannel_verifies_witness :
  exists r,
    ServerAuthorizer.authorizePresenceChannel "lsk_secret" (JStr "1a2b.3c4d")
      "presence-room: lobby" (JObj [("user_id", JStr "u1")]) = ServerAuthorizer.Done r
    /\ ServerAuthorizer.channelData r = Some (json_text "{'user_id':'u1'}")
    /\ ServerAuthorizer.verifyChannelAuth "lsk_secret" (ServerAuthorizer.auth r)
         "presence-room: lobby" (ServerAuthorizer.channelData r) = true.
Proof.
  destruct (@ServerAuthFacts.authorizePresenceChannel_verifies _ "lsk_secret"
              (JStr "1a2b.3c4d") "presence-room: lobby" (JObj [("user_id", JStr "u1")])
              (JStr "u1") eq_refl eq_refl eq_refl eq_refl eq_refl eq_refl)
    as (r & Hr & Hd & Hv).
  exists r. split; [exact Hr|]. split; [rewrite Hd; reflexivity | exact Hv].
Defined.

Lemma flush_sends_witness :
  let w' := exec Connection.flush queued in
  queue (conn queued)
  = [JObj [("event", JStr "client-typing"); ("data", typing); ("channel", JStr "news")];
     JObj [("event", JStr "client-stopped"); ("data", typing); ("channel", JStr "news")]]
  /\ queue (conn w') = []
  /\ wire (rt w') = wire (rt queued) ++ [(0, Connection.batchMessage (queue (conn queued)))].
Proof.
  intros w'.
  assert (H1 : ws (conn queued) = Some 0) by (vm_compute; reflexivity).
  assert (H2 : socketState 0 queued = Some OPEN) by (vm_compute; reflexivity).
  assert (Hq : queue (conn queued)
               = [JObj [("event", JStr "client-typing"); ("data", typing);
                        ("channel", JStr "news")];
                  JObj [("event", JStr "client-stopped"); ("data", typing);
                        ("channel", JStr "news")]]) by (vm_compute; reflexivity).
  destruct (@QueueFacts.flush_sends queued 0 H1 H2) as (Hq' & _ & Hw & _).
  split; [exact Hq|]. split; [exact Hq'|]. fold w' in Hw. rewrite Hw, Hq. reflexivity.
Defined.

Lemma flush_drops_when_not_open_witness :
  let w := setReadyState 0 CLOSING queued in
  List.length (queue (conn w)) = 2
  /\ queue (conn (exec Connection.flush w)) = []
  /\ wire (rt (exec Connection.flush w)) = wire (rt w).
Proof.
  intros w.
  assert (H : forall i, ws (conn w) = Some i -> socketState i w <> Some OPEN).
  { intros i Hi. vm_compute in Hi. injection Hi as <-. vm_compute. discriminate. }
  destruct (@QueueFacts.flush_drops_when_not_open w H) as (Hq & _ & Hw).
  split; [vm_compute; reflexivity|]. split; [exact Hq | exact Hw].
Defined.

Lemma enqueue_bounded_witness :
  let w' := exec (Connection.enqueue typing) queued in
  (0 < num_or (batchSize (options queued)) 10)%Q
  /\ (inject_Z (Z.of_nat (List.length (queue (conn w'))))
      < num_or (batchSize (options queued)) 10)%Q
  /\ List.length (queue (conn w')) = 3.
Proof.
  intros w'.
  assert (H : (0 < num_or (batchSize (options queued)) 10)%Q) by (vm_compute; reflexivity).
  split; [exact H|]. split; [|vm_compute; reflexivity].
  exact (proj1 (QueueFacts.enqueue_bounded queued typing H)).
Defined.

Lemma pool_release_acquire_witness :
  let w1 := exec (Channel.release 3) clientA in
  fst (Channel.acquire w1) = Ok 3
  /\ Channel.readMember 3 w1 = mkMember (JStr "") JUndefined.
Proof.
  intros w1.
  assert (H1 : 3 < List.length (memberStore (cl clientA))) by (vm_compute; lia).
  assert (H2 : List.length (memberPool (cl clientA)) < 50) by (vm_compute; lia).
  destruct (@PoolFacts.pool_release_acquire clientA 3 H1 H2) as (Ha & _ & Hr).
  split; [exact Ha | exact Hr].
Defined.

Lemma member_pool_capped_witness :
  List.length (memberPool (cl inRoom)) <= 50
  /\ List.length (memberPool (cl (exec (Channel.handleMemberAdded 0 (member "u1" JNull))
                                       inRoom))) <= 50.
Proof.
  assert (H : List.length (memberPool (cl inRoom)) <= 50) by (vm_compute; lia).
  split; [exact H|].
  exact (proj1 (@PoolFacts.member_pool_capped _ inRoom 0 (member "u1" JNull) H)).
Defined.

Lemma debounce_keeps_last_witness :
  let w := after clientC (firstn 2 scenarioC) in
  let w2 := exec Connection.debouncedReconnect (exec Connection.debouncedReconnect w) in
  map kind (timers (rt w)) = [DebounceTimer]
  /\ debounceTimeout (conn w2) = Some (S (nextHandle (rt w)))
  /\ map kind (timers (rt w2)) = [DebounceTimer].
Proof.
  intros w w2.
  assert (H : Forall (fun t => handle t < nextHandle (rt w)) (timers (rt w)))
    by (vm_compute; repeat constructor).
  destruct (@DebounceFacts.debounce_keeps_last w H) as (Hd & Ht).
  split; [vm_compute; reflexivity|]. split; [exact Hd|].
  fold w2 in Ht. rewrite Ht. vm_compute. reflexivity.
Defined.

Lemma once_listener_runs_once_witness :
  let first := FastEventEmitter.emit "message" (FastEventEmitter.once "message" 5 someEmitter) in
  let second := FastEventEmitter.emit "message" (snd first) in
  fst first = [1; 2; 5] /\ fst second = [1] /\ ~ In 5 (fst second).
Proof.
  intros first second.
  assert (H1 : ~ In 5 (FastEventEmitter.listeners (JStr "message")
                         (FastEventEmitter.events someEmitter))).
  { vm_compute. intros [H|[]]. discriminate. }
  assert (H2 : JsMap.count (JStr "message") (FastEventEmitter.onceEvents someEmitter) <= 1)
    by (vm_compute; lia).
  destruct (@EmitterFacts.once_listener_runs_once someEmitter "message" 5 H1 H2)
    as (_ & Hn & _).
  split; [vm_compute; reflexivity|]. split; [vm_compute; reflexivity | exact Hn].
Defined.

Lemma off_removes_listener_witness :
  fst (FastEventEmitter.emit "message" someEmitter) = [1; 2]
  /\ ~ In 2 (fst (FastEventEmitter.emit "message"
                    (FastEventEmitter.off "message" (Some 2) someEmitter)))
  /\ fst (FastEventEmitter.emit "other" (FastEventEmitter.off "message" None someEmitter))
     = [3]
  /\ fst (FastEventEmitter.emit "message" (FastEventEmitter.off "message" None someEmitter))
     = [].
Proof.
  assert (H1 : JsMap.count (JStr "message") (FastEventEmitter.events someEmitter) <= 1)
    by (vm_compute; lia).
  assert (H2 : JsMap.count (JStr "message") (FastEventEmitter.onceEvents someEmitter) <= 1)
    by (vm_compute; lia).
  destruct (@EmitterFacts.off_removes_listener someEmitter "message" 2 H1 H2)
    as (Hn & Ho & He).
  split; [vm_compute; reflexivity|]. split; [exact Hn|]. split; [|exact He].
  destruct (Ho "other") as [_ H]; [discriminate|]. rewrite H. vm_compute. reflexivity.
Defined.

Lemma samples_window_witness :
  let values := map (fun n => inject_Z (Z.of_nat n)) (seq 1 103) in
  JsMap.get (JStr "message_send")
    (fold_left (fun m v => PerformanceMonitor.addMetric "message_send" v m) values [])
  = Some (map (fun n => inject_Z (Z.of_nat n)) (seq 4 100)).
Proof.
  intros values.
  assert (H1 : JsMap.get (JStr "message_send") (@nil (JsValue * list Q)) = None) by reflexivity.
  assert (H2 : values <> []) by discriminate.
  rewrite (@MonitorFacts.samples_window "message_send" values [] H1 H2).
  vm_compute. reflexivity.
Defined.

Lemma member_add_then_remove_witness :
  let w2 := exec (Channel.handleMemberRemoved 0 (member "u1" (JStr "first")))
                 (exec (Channel.handleMemberAdded 0 (member "u1" (JStr "first"))) inRoom) in
  Channel.lookup 0 inRoom = Some room
  /\ Channel.lookup 0 w2 = Some room
  /\ Channel.getMemberCount 0 w2 = 0
  /\ List.length (emitted (cl w2)) = 2 + List.length (emitted (cl inRoom)).
Proof.
  intros w2.
  assert (H1 : Channel.lookup 0 inRoom = Some room) by (vm_compute; reflexivity).
  assert (H2 : Channel.poolValid inRoom)
    by (unfold Channel.poolValid; vm_compute; repeat constructor).
  assert (H3 : JsMap.get (JStr "u1") (members room) = None) by reflexivity.
  destruct (@ChannelFacts.member_add_then_remove _ inRoom 0 room "u1" (JStr "first")
              (member "u1" (JStr "first")) H1 H2 H3 eq_refl eq_refl)
    as (Hl & Hn & a & He).
  split; [exact H1|]. split; [exact Hl|].
  split; [exact (eq_trans Hn eq_refl)|].
  exact (eq_trans (f_equal (@List.length _) He)
                  (eq_trans (length_app _ _) (Nat.add_comm _ _))).
Defined.

Lemma removed_member_object_reused_witness :
  let w1 := exec (Channel.handleMemberRemoved 0 (member "u1" JNull)) withMember in
  let w2 := exec (Channel.handleMemberAdded 0 (member "u2" (JStr "second"))) w1 in
  Channel.readMember 9 withMember = mkMember (JStr "u1") (JStr "first")
  /\ Channel.readMember 9 w1 = mkMember (JStr "") JUndefined
  /\ Channel.readMember 9 w2 = mkMember (JStr "u2") (JStr "second").
Proof.
  intros w1 w2.
  assert (H1 : Channel.lookup 0 withMember
               = Some (mkChannel "presence-room" presence false [(JStr "u1", 9)] JNull))
    by (vm_compute; reflexivity).
  assert (H2 : 9 < List.length (memberStore (cl withMember))) by (vm_compute; lia).
  assert (H3 : List.length (memberPool (cl withMember)) < 50) by (vm_compute; lia).
  destruct (@ChannelFacts.removed_member_object_reused _ withMember 0 _
              (member "u1" JNull) (member "u2" (JStr "second")) (JStr "u1") "u2"
              (JStr "second") 9 H1 eq_refl eq_refl H2 H3 eq_refl eq_refl)
    as (_ & Hr1 & Hr2 & _).
  split; [vm_compute; reflexivity|]. split; [exact Hr1 | exact Hr2].
Defined.

Lemma presence_subscription_members_witness :
  let w' := exec (Channel.handleSubscriptionSucceeded 0 (JObj presenceData)) inRoom in
  Channel.getMembers 0 w'
  = [mkMember (JStr "u1") (JObj [("name", JStr "Ann")]);
     mkMember (JStr "u2") (JObj [("name", JStr "Bob")])]
  /\ Channel.getMemberCount 0 w' = 2
  /\ Channel.isSubscribed 0 w' = true.
Proof.
  intros w'.
  assert (H1 : Channel.lookup 0 inRoom = Some room) by (vm_compute; reflexivity).
  assert (Hnd : NoDup (map fst [("u1", JObj [("name", JStr "Ann")]);
                                ("u2", JObj [("name", JStr "Bob")])])).
  { repeat constructor; cbn; intuition discriminate. }
  destruct (@ChannelFacts.presence_subscription_members _ inRoom 0 room presenceData
              _ JUndefined _ H1 eq_refl eq_refl eq_refl eq_refl Hnd eq_refl eq_refl)
    as (Hm & Hn & Hs & _).
  split; [exact Hm|]. split; [exact Hn | exact Hs].
Defined.

Lemma unsubscribe_then_subscribe_fresh_witness :
  let w2 := exec (LatteStream.unsubscribe "news") (exec (LatteStream.subscribe "news") clientB) in
  fst (LatteStream.subscribe "news" clientB) = Ok 0
  /\ JsMap.has (JStr "news") (channels (cl w2)) = false
  /\ fst (LatteStream.subscribe "news" w2) = Ok 1.
Proof.
  intros w2.
  assert (H1 : JsMap.get (JStr "news") (channels (cl clientB)) = None) by reflexivity.
  assert (H2 : getChannelType "news" = public \/ authorizer (cl clientB) <> None)
    by (left; reflexivity).
  destruct (@ClientFacts.unsubscribe_then_subscribe_fresh clientB "news" H1 H2)
    as (Ha & Hb & Hc & _).
  split; [exact Ha|]. split; [exact Hb | exact Hc].
Defined.

Lemma message_for_unknown_channel_dropped_witness :
  let message := JObj [("event", JStr "price"); ("channel", JStr "stocks"); ("data", JNum 3)] in
  let w := after clientB scenarioB in
  LatteStream.handleParsedMessage message w = (Ok tt, w).
Proof.
  intros message w.
  apply (@ClientFacts.message_for_unknown_channel_dropped _ w message (JStr "stocks")).
  - reflexivity.
  - reflexivity.
  - vm_compute. reflexivity.
Defined.

Lemma undecodable_frame_swallowed_witness :
  let w := after clientB scenarioB in
  decodeFrame (TextData "not json") = Throw SyntaxError
  /\ cl (exec (LatteStream.onmessage (TextData "not json")) w) = cl w
  /\ wire (rt (exec (LatteStream.onmessage (TextData "not json")) w)) = wire (rt w).
Proof.
  intros w.
  assert (H : decodeFrame (TextData "not json") = Throw SyntaxError)
    by (vm_compute; reflexivity).
  destruct (@ClientFacts.undecodable_frame_swallowed _ w _ _ H) as (_ & Hc & Hw & _).
  split; [exact H|]. split; [exact Hc | exact Hw].
Defined.

Lemma discover_retries_witness :
  DiscoveryService.discover plainRetries thirdTime (fun _ => 0%Q)
  = (Ok discoveryAnswer,
     map (fun j => DiscoveryService.retryDelay plainRetries (S j) 0%Q) (seq 0 2))
  /\ DiscoveryService.discover plainRetries (fun _ => FetchRejected) (fun _ => 0%Q)
     = (Throw DiscoveryFailed,
        map (fun j => DiscoveryService.retryDelay plainRetries (S j) 0%Q) (seq 0 2)).
Proof.
  destruct (DiscoveryFacts.discover_retries plainRetries thirdTime (fun _ => 0%Q))
    as [Hok _].
  destruct (DiscoveryFacts.discover_retries plainRetries (fun _ => FetchRejected)
              (fun _ => 0%Q)) as [_ Hfail].
  split.
  - apply (Hok 2 discoveryAnswer); [vm_compute; lia | | reflexivity].
    intros [|[|j]] Hj; [reflexivity | reflexivity | lia].
  - apply Hfail. reflexivity.
Defined.

Lemma private_subscribe_frame_witness :
  let response := FetchBody (Ok (JObj [("auth", JStr "1234.5678:abcd")])) in
  Authorizer.authorize response
  = Ok (JObj [("auth", JStr "1234.5678:abcd"); ("channel_data", JUndefined)])
  /\ exec (Channel.resumeSubscribe 0 (Authorizer.authorize response)) withPrivate
     = exec (Channel.send
               (JObj [("event", JStr "lattestream:subscribe");
                      ("data",
                       JObj [("channel", JStr "private-orders");
                             ("auth",
                              JObj [("auth", JStr "1234.5678:abcd");
                                    ("channel_data", JUndefined)])])])) withPrivate.
Proof.
  intros response.
  assert (H1 : Channel.lookup 0 withPrivate
               = Some (mkChannel "private-orders" private false [] JNull))
    by (vm_compute; reflexivity).
  destruct (@AuthorizerFacts.private_subscribe_frame _ withPrivate 0 _ response H1 eq_refl)
    as [Hok _].
  split; [reflexivity|].
  exact (Hok _ _ _ eq_refl eq_refl eq_refl eq_refl).
Defined.

End MoreInstances.
